(** * Skaffold lint / inspect: a shallow embedding of the recommendation pipeline

    The development follows the Go sources of the two packages that make up
    the recommendation pipeline:

    - package [inspect]: the Dockerfile recommendation catalog
      ([StringEqualsRecs]), the string-equals matcher
      ([SuggestRecsViaStringEquals]), the diff synthesizer
      ([generateRecommendationDiff]) and the driver ([PrintDockerfilesList]);
    - package [lint]: the skaffold.yaml rule catalog ([skaffoldYamlRules]),
      its explanation populators, and the orchestrator
      ([GetSkaffoldYamlsLintResults]);

    and, in Part III, of three neighbours of the pipeline:

    - [hack/comparisonstats]: [timeSlice.avg] of package [types], and
      [validateArgs] with the start of [main];
    - package [cluster]: the minikube client ([IsMinikube], [UseDockerEnv],
      [resolveProfile], [listProfilesLight], [minikubeExec],
      [minikubeBinary], [getCurrentVersion]).

    Go strings are byte sequences and are modelled by [string] (a list of
    8-bit [ascii]).  Go [int] is modelled by [Z] with the 64-bit wrap-around
    of [+] and [-] written out.  Go's multiple results [(v, err)] are modelled
    by the sum type [result].  Collaborators that live outside the modelled
    sources (the Unicode case tables, [filepath.Join], the diff backend, the
    file system, the configuration loader, the dependency extractor and the
    linters) are fields of explicit environment records. *)

From Stdlib Require Import ZArith String Ascii List Lia Bool.
From stdpp Require Import gmap strings list fin_maps.
From Equations Require Import Equations.
Import ListNotations.

Set Default Proof Using "Type".

(* ===================================================================== *)
(** * Part I: definitions                                                 *)
(* ===================================================================== *)

(** ** Go values *)

(** Go's [error] interface; only the identity of an error matters here. *)
Definition error := string.

(** A Go call returning [(v, err)]: [Ok v] stands for [(v, nil)] and [Err e]
    for a non-nil error (the callers below never look at [v] in that case). *)
Inductive result (A : Type) : Type :=
| Ok (a : A)
| Err (e : error).
Arguments Ok {A} a.
Arguments Err {A} e.

Module GoInt.
Local Open Scope Z_scope.

Definition MaxInt : Z := 2 ^ 63 - 1.
Definition MinInt : Z := - 2 ^ 63.

(** Two's-complement reduction of a mathematical integer to [int]. *)
Definition wrap (z : Z) : Z := (z + 2 ^ 63) mod 2 ^ 64 - 2 ^ 63.

Definition add (a b : Z) : Z := wrap (a + b).
Definition sub (a b : Z) : Z := wrap (a - b).
End GoInt.

(** ** Package [strings] (the functions the sources call) *)

Module GoStrings.
Local Open Scope string_scope.

(** [len(s)]: the number of bytes. *)
Definition len (s : string) : Z := Z.of_nat (String.length s).

Definition byte (c : ascii) : nat := nat_of_ascii c.

(** [strings.HasPrefix]. *)
Fixpoint HasPrefix (s prefix : string) {struct prefix} : bool :=
  match prefix with
  | EmptyString => true
  | String p prefix' =>
      match s with
      | EmptyString => false
      | String c s' => Ascii.eqb c p && HasPrefix s' prefix'
      end
  end.

(** [s[n:]] and [s[:n]] for an in-range [n]. *)
Fixpoint drop (n : nat) (s : string) : string :=
  match n, s with
  | S n', String _ s' => drop n' s'
  | _, _ => s
  end.

Fixpoint take (n : nat) (s : string) : string :=
  match n, s with
  | S n', String c s' => String c (take n' s')
  | _, _ => EmptyString
  end.

(** [strings.HasSuffix]: [len(s) >= len(suffix) && s[len(s)-len(suffix):] == suffix]. *)
Definition HasSuffix (s suffix : string) : bool :=
  (String.length suffix <=? String.length s)%nat &&
  String.eqb (drop (String.length s - String.length suffix) s) suffix.

(** [strings.TrimPrefix]. *)
Definition TrimPrefix (s prefix : string) : string :=
  if HasPrefix s prefix then drop (String.length prefix) s else s.

(** The slice expressions [s[:i]] and [s[j:]]; [None] is the run-time panic
    "slice bounds out of range". *)
Definition sliceTo (s : string) (i : Z) : option string :=
  if ((0 <=? i) && (i <=? len s))%Z then Some (take (Z.to_nat i) s) else None.

Definition sliceFrom (s : string) (j : Z) : option string :=
  if ((0 <=? j) && (j <=? len s))%Z then Some (drop (Z.to_nat j) s) else None.

(** [strings.Index(s, substr)]: the index of the first instance of [substr]
    in [s], or [-1].  The library picks among several search algorithms;
    the model is the plain left-to-right scan they all implement. *)
Fixpoint indexFrom (i : Z) (s substr : string) : Z :=
  if HasPrefix s substr then i
  else match s with
       | EmptyString => (-1)%Z
       | String _ s' => indexFrom (i + 1)%Z s' substr
       end.

Definition Index (s substr : string) : Z := indexFrom 0%Z s substr.

(** [strings.ToUpper].  The library first scans for a byte [>= 0x80]
    ([utf8.RuneSelf]); an all-ASCII string is returned unchanged when it
    has no lower-case letter and with ['a'..'z'] shifted by ['a' - 'A']
    otherwise.  Any other string goes through [Map(unicode.ToUpper, s)],
    which depends on the Unicode tables: that mapping is the parameter
    [unicodeUpper]. *)
Definition isLower (c : ascii) : bool :=
  (97 <=? byte c)%nat && (byte c <=? 122)%nat.

Definition upperByte (c : ascii) : ascii :=
  if isLower c then ascii_of_nat (byte c - 32) else c.

Fixpoint isASCII (s : string) : bool :=
  match s with
  | EmptyString => true
  | String c s' => (byte c <? 128)%nat && isASCII s'
  end.

Fixpoint hasLower (s : string) : bool :=
  match s with
  | EmptyString => false
  | String c s' => isLower c || hasLower s'
  end.

Fixpoint mapBytes (f : ascii -> ascii) (s : string) : string :=
  match s with
  | EmptyString => EmptyString
  | String c s' => String (f c) (mapBytes f s')
  end.

Definition ToUpper (unicodeUpper : string -> string) (s : string) : string :=
  if isASCII s then
    if hasLower s then mapBytes upperByte s else s
  else unicodeUpper s.
End GoStrings.

(** ** The state-and-error monad of the drivers

    Both drivers are loops over the configuration set that update local maps
    and return early on the first error.  [M St A] threads the locals [St];
    an error ends the computation and keeps the state reached so far, which
    is where the log of external calls lives. *)

Definition M (St A : Type) : Type := St -> result A * St.

Definition ret {St A} (a : A) : M St A := fun s => (Ok a, s).

Definition bind {St A B} (m : M St A) (k : A -> M St B) : M St B :=
  fun s =>
    match m s with
    | (Ok a, s') => k a s'
    | (Err e, s') => (Err e, s')
    end.

Definition get {St} : M St St := fun s => (Ok s, s).
Definition modify {St} (f : St -> St) : M St unit := fun s => (Ok tt, f s).

(** [v, err := call(); if err != nil { return ..., err }]. *)
Definition try {St A} (r : result A) : M St A := fun s => (r, s).

Notation "'let*' x ':=' m 'in' k" := (bind m (fun x => k))
  (at level 10, x name, m at level 100, k at level 200, only parsing).
Notation "'run' m 'then' k" := (bind m (fun _ => k))
  (at level 10, m at level 100, k at level 200, only parsing).

(** [for _, x := range xs { body }], where [body] may return from the
    enclosing function with an error. *)
Fixpoint forEach {St A} (body : A -> M St unit) (xs : list A) : M St unit :=
  match xs with
  | [] => ret tt
  | x :: xs' => run body x then forEach body xs'
  end.

(** ** The configuration schema (the fields the drivers read) *)

Module Schema.
Record DockerArtifact := { DockerfilePath : string }.

Record Artifact := {
  Workspace : string;
  (** [*DockerArtifact]: [None] is the nil pointer. *)
  DockerArtifact_ : option DockerArtifact
}.

Record BuildConfig := { Artifacts : list Artifact }.

Record SkaffoldConfig := {
  SourceFile : string;
  Build : BuildConfig
}.
End Schema.

(** ** Package [diff] (github.com/shazow/go-diff), as the synthesizer uses it *)

Module diff.
Record Object := { ReadSeeker : string; Path : string }.
Record Writer := { SrcPrefix : string; DstPrefix : string }.
End diff.

(** ** The regular expression [(?m)[\r\n]+^index.*$]

    [regexp.MustCompile("(?m)[\r\n]+^index.*$").ReplaceAllString(out, "")],
    written out for this one pattern under Go's leftmost-first semantics.
    A match starts at a CR or LF.  [[\r\n]+] has to take the whole maximal run
    of CR/LF bytes, because the byte after it must be the [i] of [index];
    [^] (multi-line) then asks that the last byte of the run is LF; [.*$]
    runs to the next LF (excluded) or to the end of the text. *)

Module IndexLine.
Local Open Scope string_scope.

Definition LF : ascii := "010"%char.
Definition CR : ascii := "013"%char.

(** The maximal run of CR/LF at the head of [s]: whether the last byte
    consumed was LF ([lastLF] for the bytes before [s]), and the rest. *)
Fixpoint newlineRun (lastLF : bool) (s : string) : bool * string :=
  match s with
  | EmptyString => (lastLF, s)
  | String c s' =>
      if Ascii.eqb c LF then newlineRun true s'
      else if Ascii.eqb c CR then newlineRun false s'
      else (lastLF, s)
  end.

(** [.*$]: skip to the next LF or to the end. *)
Fixpoint dropLine (s : string) : string :=
  match s with
  | EmptyString => s
  | String c s' => if Ascii.eqb c LF then s else dropLine s'
  end.

(** The text after the match that starts at the head of [s], if any. *)
Definition matchAt (s : string) : option string :=
  let (lastLF, rest) := newlineRun false s in
  if lastLF && GoStrings.HasPrefix rest "index" then Some (dropLine rest)
  else None.

Lemma newlineRun_length b s :
  (String.length (newlineRun b s).2 <= String.length s)%nat /\
  ((newlineRun b s).1 <> b -> (String.length (newlineRun b s).2 < String.length s)%nat).
Proof.
  revert b; induction s as [|c s IH]; intros b; simpl; [split; [lia|done]|].
  destruct (Ascii.eqb c LF); [destruct (IH true); split; lia|].
  destruct (Ascii.eqb c CR); [destruct (IH false); split; lia|].
  simpl; split; [lia|done].
Qed.

Lemma dropLine_length s : (String.length (dropLine s) <= String.length s)%nat.
Proof.
  induction s as [|c s IH]; simpl; [lia|].
  destruct (Ascii.eqb c LF); simpl; lia.
Qed.

Lemma matchAt_shorter s rest :
  matchAt s = Some rest -> (String.length rest < String.length s)%nat.
Proof.
  unfold matchAt.
  pose proof (newlineRun_length false s) as [_ Hrun].
  destruct (newlineRun false s) as [b r].
  destruct b; cbn [andb fst snd] in *; [|discriminate].
  destruct (GoStrings.HasPrefix r "index"); [|discriminate].
  intros [= <-].
  pose proof (dropLine_length r). specialize (Hrun ltac:(done)). lia.
Qed.

(** Replace every match by the empty string: at each position, drop a
    match that starts there and go on after it, or else copy one byte. *)
Equations? ReplaceAllString (s : string) : string by wf (String.length s) lt :=
  ReplaceAllString s with Logic.inspect (matchAt s) := {
    | exist _ (Some rest) _ => ReplaceAllString rest
    | exist _ None _ with s := {
        | EmptyString => EmptyString
        | String c s' => String c (ReplaceAllString s') } }.
Proof. by apply matchAt_shorter. Qed.
End IndexLine.

(** ** Package [inspect]: Dockerfile recommendations *)

Module Action.
Local Open Scope string_scope.

(** [type Action int]. *)
Definition t : Type := Z.

Definition names : list string := ["Replace"; "Add"; "Delete"; "Noop"].

(** [[...]string{"Replace", "Add", "Delete", "Noop"}[a]]: indexing the
    array literal; [None] is the panic "index out of range". *)
Definition String (a : t) : option string :=
  if ((0 <=? a) && (a <? Z.of_nat (List.length names)))%Z
  then names !! Z.to_nat a
  else None.
End Action.

(** [const ( Replace Action = iota; Add; Delete; Noop )]. *)
Definition Replace : Action.t := 0%Z.
Definition Add : Action.t := 1%Z.
Definition Delete : Action.t := 2%Z.
Definition Noop : Action.t := 3%Z.

Record ConfigOpt := {
  Action : Action.t;
  Path : string;
  ConfigTemplate : string;
  TextStartIndex : Z;
  TextEndIndex : Z;
  Explanation : string
}.

Record Recommendation := {
  FlaggedConfig : ConfigOpt;
  RecommendedConfig : ConfigOpt
}.

Record Dockerfile := {
  AbsPath : string;
  RelPath : string;
  Text : string
}.

Record dockerfileRecsList := {
  DockerfileRecs : list Recommendation;
  Dockerfiles : list Dockerfile
}.

(** How a call of [PrintDockerfilesList] ends: [return err] or a panic. *)
Inductive outcome :=
| Return (err : option error)
| Panic.

Module Inspect.
Import Schema.
Local Open Scope string_scope.

(** The collaborators of the package. *)
Record Env := {
  (** [strings.Map(unicode.ToUpper, s)] *)
  unicodeUpper : string -> string;
  (** [filepath.Join(elem...)] *)
  filepathJoin : list string -> string;
  (** the bytes [diff.Writer.Diff(a, b)] writes to its [Writer] *)
  writerDiff : diff.Writer -> diff.Object -> diff.Object -> string;
  (** [inspect.GetConfigSet(ctx, opts)] *)
  GetConfigSet : result (list SkaffoldConfig);
  (** [util.RealWorkDir()] *)
  RealWorkDir : result string;
  (** [ioutil.ReadFile(path)] *)
  ReadFile : string -> result string;
  (** [formatter.WriteErr(err)] *)
  WriteErr : error -> option error
}.

(** The zero value of [ConfigOpt] with the fields a literal sets. *)
Definition configOpt (template : string) (action : Action.t) (explanation : string) : ConfigOpt :=
  {| Action := action; Path := ""; ConfigTemplate := template;
     TextStartIndex := 0; TextEndIndex := 0; Explanation := explanation |}.

Definition copyAllExplanation : string :=
  "Found 'COPY . .', this is possibly a docker anti-pattern and has the " ++
  "potential to dramatically slow 'skaffold dev' down by having skaffold watch all files in a directory for changes. If you notice skaffold rebuilding images unnecessarily when non-image-critical files are " ++
  "modified, consider changing this to `COPY $MIN_SET_OF_NECESSARY_SOURCE_FILES_FOR_IMAGE .` for each required source file instead of " ++
  "using 'COPY . .'. See TODO:ADD_A_LINK_HERE".

(** [var StringEqualsRecs = RecommendedConfig{...}], a [[]Recommendation]. *)
Definition StringEqualsRecs : list Recommendation :=
  [ {| FlaggedConfig := configOpt "Copy . ." Replace "";
       RecommendedConfig :=
         configOpt "Copy $MIN_SET_OF_NECESSARY_SOURCE_FILES_FOR_IMAGE ." Replace copyAllExplanation |};
    {| FlaggedConfig :=
         configOpt "Testing what only flagged recommendation w/ no rec looks like" Replace "";
       RecommendedConfig := configOpt "" Noop "" |} ].

(** The four assignments to the loop's copy [rec] of a catalog entry. *)
Definition flagged (d : Dockerfile) (idx : Z) (rec : Recommendation) : Recommendation :=
  let f := FlaggedConfig rec in
  let r := RecommendedConfig rec in
  {| FlaggedConfig :=
       {| Action := Action f;
          Path := AbsPath d;
          ConfigTemplate := ConfigTemplate f;
          TextStartIndex := idx;
          TextEndIndex := GoInt.add idx (GoStrings.len (ConfigTemplate f));
          Explanation := Explanation f |};
     RecommendedConfig :=
       {| Action := Action r;
          Path := AbsPath d;
          ConfigTemplate := ConfigTemplate r;
          TextStartIndex := TextStartIndex r;
          TextEndIndex := TextEndIndex r;
          Explanation := Explanation r |} |}.

Section WithEnv.
Variable env : Env.

Definition ToUpper : string -> string := GoStrings.ToUpper (unicodeUpper env).

(** One iteration of the loop of [SuggestRecsViaStringEquals]. *)
Definition suggestStep (d : Dockerfile) (recs : list Recommendation) (rec : Recommendation)
  : list Recommendation :=
  let idx := GoStrings.Index (ToUpper (Text d)) (ToUpper (ConfigTemplate (FlaggedConfig rec))) in
  if negb (idx =? -1)%Z then (recs ++ [flagged d idx rec])%list else recs.

Definition SuggestRecsViaStringEquals (rc : list Recommendation) (d : Dockerfile)
  : result (list Recommendation) :=
  Ok (fold_left (suggestStep d) rc []).

Definition regexpRecommendations : result (list Recommendation) := Ok [].
Definition graphRecommendations : result (list Recommendation) := Ok [].

Definition getDockerfileRecommendations (d : Dockerfile) : result (list Recommendation) :=
  let recs : list Recommendation := [] in
  match SuggestRecsViaStringEquals StringEqualsRecs d with
  | Err e => Err e
  | Ok stringEqualsRecs =>
      let recs := (recs ++ stringEqualsRecs)%list in
      match regexpRecommendations with
      | Err e => Err e
      | Ok regexpRecs =>
          let recs := (recs ++ regexpRecs)%list in
          match graphRecommendations with
          | Err e => Err e
          | Ok graphRecs => Ok (recs ++ graphRecs)%list
          end
      end
  end.

(** [None] is a panic of one of the two slice expressions. *)
Definition generateRecommendationDiff (d : Dockerfile) (r : Recommendation) : option string :=
  match GoStrings.sliceTo (Text d) (TextStartIndex (FlaggedConfig r)) with
  | None => None
  | Some before =>
      match GoStrings.sliceFrom (Text d) (TextEndIndex (FlaggedConfig r)) with
      | None => None
      | Some after =>
          let s := before ++ ConfigTemplate (RecommendedConfig r) ++ after in
          let a := {| diff.ReadSeeker := Text d; diff.Path := RelPath d ++ ".orig" |} in
          let b := {| diff.ReadSeeker := s; diff.Path := RelPath d |} in
          let w := {| diff.SrcPrefix := ""; diff.DstPrefix := "" |} in
          let out := writerDiff env w a b in
          Some (IndexLine.ReplaceAllString out)
      end
  end.

(** The locals of [PrintDockerfilesList] that its loops update. *)
Record locals := {
  seen : gmap string bool;
  l : dockerfileRecsList
}.

Definition markSeen (fp : string) (s : locals) : locals :=
  {| seen := <[fp := true]> (seen s); l := l s |}.

Definition collect (recs : list Recommendation) (d : Dockerfile) (s : locals) : locals :=
  {| seen := seen s;
     l := {| DockerfileRecs := (DockerfileRecs (l s) ++ recs)%list;
             Dockerfiles := (Dockerfiles (l s) ++ [d])%list |} |}.

(** The body of the loop over [c.Build.Artifacts]. *)
Definition inspectArtifact (workdir : string) (a : Artifact) : M locals unit :=
  match DockerArtifact_ a with
  | None => ret tt
  | Some da =>
      let fp := filepathJoin env [workdir; Workspace a; DockerfilePath da] in
      let* s := get in
      match seen s !! fp with
      | Some _ => ret tt
      | None =>
          run modify (markSeen fp) then
          let* b := try (ReadFile env fp) in
          let d := {| AbsPath := fp;
                      RelPath := filepathJoin env [Workspace a; DockerfilePath da];
                      Text := b |} in
          let* recs := try (getDockerfileRecommendations d) in
          modify (collect recs d)
      end
  end.

(** [for i := range l.DockerfileRecs { fmt.Println(generateRecommendationDiff(
    l.Dockerfiles[i], &l.DockerfileRecs[i])) }]: the lines printed, and
    how the loop ends. *)
Fixpoint printDiffs (dockerfiles : list Dockerfile) (i : nat) (recs : list Recommendation)
  : list string * outcome :=
  match recs with
  | [] => ([], Return None)
  | r :: recs' =>
      match dockerfiles !! i with
      | None => ([], Panic)
      | Some d =>
          match generateRecommendationDiff d r with
          | None => ([], Panic)
          | Some text =>
              let (printed, o) := printDiffs dockerfiles (S i) recs' in
              (text :: printed, o)
          end
      end
  end.

(** The two nested loops over the configuration set and its artifacts. *)
Definition collectRecommendations (workdir : string) (cfgs : list SkaffoldConfig)
  : M locals unit :=
  forEach (fun c => forEach (inspectArtifact workdir) (Artifacts (Build c))) cfgs.

Definition init : locals :=
  {| seen := ∅; l := {| DockerfileRecs := []; Dockerfiles := [] |} |}.

(** The lines written to standard output, and the outcome. *)
Definition PrintDockerfilesList : list string * outcome :=
  match GetConfigSet env with
  | Err e => ([], Return (WriteErr env e))
  | Ok cfgs =>
      match RealWorkDir env with
      | Err e => ([], Return (Some e))
      | Ok workdir =>
          match collectRecommendations workdir cfgs init with
          | (Err e, _) => ([], Return (Some e))
          | (Ok _, s) => printDiffs (Dockerfiles (l s)) 0 (DockerfileRecs (l s))
          end
      end
  end.
End WithEnv.
End Inspect.

(** ** Package [docker]: the build configuration handed to the extractor *)

Module docker.
Record BuildConfig := {
  workspace : string;
  artifact : string;
  dockerfilePath : string;
  (** [map[string]*string] *)
  args : gmap string (option string)
}.

Definition NewBuildConfig (ws artifactName path : string) (buildArgs : gmap string (option string))
  : BuildConfig :=
  {| workspace := ws; artifact := artifactName; dockerfilePath := path; args := buildArgs |}.
End docker.

(** ** Package [kyaml/yaml]: the filters the rule catalog builds *)

Module yaml.
Inductive Filter :=
| FieldMatcher (Name StringRegexValue : string)
| Get (name : string)
| Lookup (path : list string).
End yaml.

(** ** Package [lint]: the skaffold.yaml rules and the orchestrator *)

Module Lint.
Import Schema.
Local Open Scope string_scope.

Record ConfigFile := {
  AbsPath : string;
  RelPath : string;
  Text : string
}.

Record LintInputs := {
  ConfigFile_ : ConfigFile;
  DockerfileToDepMap : gmap string (list string);
  SkaffoldConfig_ : SkaffoldConfig
}.

(** The two implementations of the [Linter] interface in [SkaffoldYamlLinters]. *)
Inductive Linter := RegExpLinter | YamlFieldLinter.

Inductive RuleID :=
| SkaffoldYamlAPIVersionOutOfDate
| SkaffoldYamlUseStaticPort
| SkaffoldYamlSyncPython.

Inductive RuleType := RegExpLintRule | YamlFieldLintRule.

Record YamlFieldFilter := {
  Filter_ : yaml.Filter;
  FieldOnly : string;
  InvertMatch : bool
}.

(** A [Rule], without its explanation template and populator (no property
    below reads them).  [RuleID = None] is a literal that leaves the field
    at its zero value. *)
Record Rule := {
  Filter : YamlFieldFilter;
  RuleID_ : option RuleID;
  RuleType_ : RuleType;
  LintConditions : list (LintInputs -> bool)
}.

(** The collaborators of the orchestrator.  [Result] is the element type
    of what a linter returns. *)
Record Env (Result : Type) := {
  (** [getConfigSet(ctx, config.SkaffoldOptions{...})] *)
  getConfigSet : result (list SkaffoldConfig);
  (** [realWorkDir()] *)
  realWorkDir : result string;
  (** [ioutil.ReadFile(path)] *)
  ReadFile : string -> result string;
  (** [filepath.Join(elem...)] *)
  filepathJoin : list string -> string;
  (** [docker.GetDependencies(ctx, buildCfg, nil)] *)
  GetDependencies : docker.BuildConfig -> result (list string);
  (** [version.Get().ConfigVersion] *)
  ConfigVersion : string;
  (** [r.Lint(lintInputs, &rules)] for the linter [r] *)
  Lint : Linter -> LintInputs -> list Rule -> result (list Result)
}.
Arguments getConfigSet {Result} _.
Arguments realWorkDir {Result} _.
Arguments ReadFile {Result} _ _.
Arguments filepathJoin {Result} _ _.
Arguments GetDependencies {Result} _ _.
Arguments ConfigVersion {Result} _.
Arguments Lint {Result} _ _ _ _.

(** The external calls of a run, in the order they are made. *)
Inductive call :=
| CallReadFile (path : string)
| CallGetDependencies (ws fp : string)
| CallLint (linter : Linter) (inputs : LintInputs).

Definition SkaffoldYamlLinters : list Linter := [RegExpLinter; YamlFieldLinter].

Section WithEnv.
Context {Result : Type}.
Variable env : Env Result.

Definition getDockerfileFileDependencies (ws absPath : string) : result (list string) :=
  let buildArgs : gmap string (option string) := ∅ in
  GetDependencies env (docker.NewBuildConfig ws "dummy-artifact-name" absPath buildArgs).

(** The rule set of the nested evaluation in the first sync condition. *)
Definition noSyncStanzaRules : list Rule :=
  [ {| Filter := {| Filter_ := yaml.Lookup ["build"; "sync"]; FieldOnly := ""; InvertMatch := true |};
       RuleID_ := None;
       RuleType_ := YamlFieldLintRule;
       LintConditions := [] |} ].

(** First condition of the sync rule: a nested lint finds no [build.sync]. *)
Definition noSyncStanza (lintInputs : LintInputs) : bool :=
  match Lint env YamlFieldLinter lintInputs noSyncStanzaRules with
  | Err _ => false
  | Ok recs => if (0 <? List.length recs)%nat then true else false
  end.

(** Second condition: some extracted dependency ends in [.py]. *)
Definition hasPythonDependency (lintInputs : LintInputs) : bool :=
  existsb (fun entry : string * list string =>
             existsb (fun dep => GoStrings.HasSuffix dep ".py") entry.2)
          (map_to_list (DockerfileToDepMap lintInputs)).

Definition skaffoldYamlRules : list Rule :=
  [ {| Filter := {| Filter_ := yaml.FieldMatcher "apiVersion" ("[^" ++ ConfigVersion env ++ "]");
                    FieldOnly := ""; InvertMatch := false |};
       RuleID_ := Some SkaffoldYamlAPIVersionOutOfDate;
       RuleType_ := YamlFieldLintRule;
       LintConditions := [] |};
    {| Filter := {| Filter_ := yaml.FieldMatcher "portForward" "";
                    FieldOnly := ""; InvertMatch := true |};
       RuleID_ := Some SkaffoldYamlUseStaticPort;
       RuleType_ := YamlFieldLintRule;
       LintConditions := [] |};
    {| Filter := {| Filter_ := yaml.Get "build"; FieldOnly := "build"; InvertMatch := false |};
       RuleID_ := Some SkaffoldYamlSyncPython;
       RuleType_ := YamlFieldLintRule;
       LintConditions := [noSyncStanza; hasPythonDependency] |} ].

(** The locals of [GetSkaffoldYamlsLintResults] that its loops update,
    and the log of the external calls made so far. *)
Record locals := {
  seen : gmap string bool;
  l : list Result;
  dockerfileDepMap : gmap string (list string);
  calls : list call
}.

Definition markSeen (fp : string) (s : locals) : locals :=
  {| seen := <[fp := true]> (seen s); l := l s;
     dockerfileDepMap := dockerfileDepMap s; calls := calls s |}.

Definition setDeps (fp : string) (deps : list string) (s : locals) : locals :=
  {| seen := seen s; l := l s;
     dockerfileDepMap := <[fp := deps]> (dockerfileDepMap s); calls := calls s |}.

Definition appendResults (results : list Result) (s : locals) : locals :=
  {| seen := seen s; l := (l s ++ results)%list;
     dockerfileDepMap := dockerfileDepMap s; calls := calls s |}.

Definition logCall (c : call) (s : locals) : locals :=
  {| seen := seen s; l := l s;
     dockerfileDepMap := dockerfileDepMap s; calls := (calls s ++ [c])%list |}.

(** An external call: it is logged, then its result is examined. *)
Definition external {A} (c : call) (r : result A) : M locals A :=
  run modify (logCall c) then try r.

(** The body of the loop over [c.Build.Artifacts]. *)
Definition extractArtifact (workdir : string) (a : Artifact) : M locals unit :=
  match DockerArtifact_ a with
  | None => ret tt
  | Some da =>
      let ws := filepathJoin env [workdir; Workspace a] in
      let fp := filepathJoin env [ws; DockerfilePath da] in
      let* s := get in
      match seen s !! fp with
      | Some _ => ret tt
      | None =>
          run modify (markSeen fp) then
          let* deps := external (CallGetDependencies ws fp) (getDockerfileFileDependencies ws fp) in
          modify (setDeps fp deps)
      end
  end.

(** The loop over [SkaffoldYamlLinters]; [results] is the slice built so far. *)
Fixpoint runLinters (skaffoldyaml : ConfigFile) (c : SkaffoldConfig)
  (linters : list Linter) (results : list Result) : M locals (list Result) :=
  match linters with
  | [] => ret results
  | r :: linters' =>
      let* s := get in
      let inputs := {| ConfigFile_ := skaffoldyaml;
                       DockerfileToDepMap := dockerfileDepMap s;
                       SkaffoldConfig_ := c |} in
      let* recs := external (CallLint r inputs) (Lint env r inputs skaffoldYamlRules) in
      runLinters skaffoldyaml c linters' (results ++ recs)%list
  end.

(** The body of the loop over the configuration set. *)
Definition lintConfig (workdir : string) (c : SkaffoldConfig) : M locals unit :=
  let* b := external (CallReadFile (SourceFile c)) (ReadFile env (SourceFile c)) in
  let skaffoldyaml := {| AbsPath := SourceFile c;
                         RelPath := GoStrings.TrimPrefix (SourceFile c) workdir;
                         Text := b |} in
  run forEach (extractArtifact workdir) (Artifacts (Build c)) then
  let* results := runLinters skaffoldyaml c SkaffoldYamlLinters [] in
  modify (appendResults results).

Definition init : locals :=
  {| seen := ∅; l := []; dockerfileDepMap := ∅; calls := [] |}.

(** The returned pair, and the locals (with the call log) at the return. *)
Definition GetSkaffoldYamlsLintResults : result (list Result) * locals :=
  match getConfigSet env with
  | Err e => (Err e, init)
  | Ok cfgs =>
      match realWorkDir env with
      | Err e => (Err e, init)
      | Ok workdir =>
          match forEach (lintConfig workdir) cfgs init with
          | (Err e, s) => (Err e, s)
          | (Ok _, s) => (Ok (l s), s)
          end
      end
  end.
End WithEnv.
End Lint.

(** ** Specification vocabulary *)

(** [sub] occurs in [s] at byte offset [i]. *)
Definition occursAt (s sub : string) (i : Z) : Prop :=
  exists before after : string,
    s = (before ++ sub ++ after)%string /\ GoStrings.len before = i.





(** No line of [s] after the first one begins with [index]. *)
Fixpoint noIndexAfterLF (s : string) : bool :=
  match s with
  | EmptyString => true
  | String c s' =>
      (if Ascii.eqb c IndexLine.LF then negb (GoStrings.HasPrefix s' "index") else true)
      && noIndexAfterLF s'
  end.

(** No line of [s] begins with [index]. *)
Definition noIndexLine (s : string) : bool :=
  negb (GoStrings.HasPrefix s "index") && noIndexAfterLF s.

(** *** The orchestrator's log *)

Section LintVocabulary.
Import Schema Lint.
Context {Result : Type}.
Variable env : Env Result.

(** The workspace [ws] and the Dockerfile path [fp] the orchestrator
    computes for a Docker artifact. *)
Definition artifactPath (workdir : string) (a : Artifact) : option (string * string) :=
  match DockerArtifact_ a with
  | None => None
  | Some da =>
      let ws := filepathJoin env [workdir; Workspace a] in
      Some (ws, filepathJoin env [ws; DockerfilePath da])
  end.

(** The Docker artifacts of the whole configuration set, in discovery order. *)
Definition artifactPaths (workdir : string) (cfgs : list SkaffoldConfig)
  : list (string * string) :=
  flat_map (fun c => omap (artifactPath workdir) (Artifacts (Build c))) cfgs.

(** The deduplicated artifact list: the first encounter of each Dockerfile
    path that is not in [known]. *)
Fixpoint firstEncounters (known : gset string) (paths : list (string * string))
  : list (string * string) :=
  match paths with
  | [] => []
  | (ws, fp) :: paths' =>
      if decide (fp ∈ known) then firstEncounters known paths'
      else (ws, fp) :: firstEncounters (known ∪ {[fp]}) paths'
  end.

(** The side-table built from a list of artifacts, one extraction each. *)
Definition recordDeps (table : gmap string (list string)) (p : string * string)
  : gmap string (list string) :=
  match getDockerfileFileDependencies env p.1 p.2 with
  | Ok deps => <[p.2 := deps]> table
  | Err _ => table
  end.

Definition sideTable (paths : list (string * string)) : gmap string (list string) :=
  fold_left recordDeps paths ∅.

(** The dependency extractions of a log. *)
Definition extraction (c : call) : option (string * string) :=
  match c with
  | CallGetDependencies ws fp => Some (ws, fp)
  | _ => None
  end.

Definition extractions (cs : list call) : list (string * string) := omap extraction cs.

Definition isLint (c : call) : bool :=
  match c with CallLint _ _ => true | _ => false end.

Definition isExtraction (c : call) : bool :=
  match c with CallGetDependencies _ _ => true | _ => false end.

(** Every extraction of the log is made before the first rule evaluation. *)
Fixpoint noExtractionAfterLint (cs : list call) : bool :=
  match cs with
  | [] => true
  | c :: cs' =>
      if isLint c then forallb (fun c' => negb (isExtraction c')) cs'
      else noExtractionAfterLint cs'
  end.

(** The error a logged call returned, if it failed. *)
Definition failure (c : call) : option error :=
  match c with
  | CallReadFile path =>
      match ReadFile env path with Ok _ => None | Err e => Some e end
  | CallGetDependencies ws fp =>
      match getDockerfileFileDependencies env ws fp with Ok _ => None | Err e => Some e end
  | CallLint linter inputs =>
      match Lint env linter inputs (skaffoldYamlRules env) with Ok _ => None | Err e => Some e end
  end.

(** The side-table handed to a rule evaluation has an entry for every
    Docker artifact of the unit under evaluation. *)
Definition coversOwnArtifacts (workdir : string) (c : call) : Prop :=
  match c with
  | CallLint _ inputs =>
      forall a ws fp,
        In a (Artifacts (Build (SkaffoldConfig_ inputs))) ->
        artifactPath workdir a = Some (ws, fp) ->
        is_Some (DockerfileToDepMap inputs !! fp)
  | _ => True
  end.
End LintVocabulary.

(** *** Outcomes of a computation in the monad *)

Section Outcomes.
Context {St : Type}.

(** The outcome of a computation: [I] on normal termination, [E] on an error. *)
Definition ends {B} (I : St -> Prop) (E : error -> St -> Prop) (p : result B * St) : Prop :=
  match p with
  | (Ok _, s) => I s
  | (Err e, s) => E e s
  end.
End Outcomes.

(** *** The string-equals matcher and the diff synthesizer *)

Section InspectVocabulary.
Import Inspect.
Local Open Scope string_scope.
Variable env : Env.

(** What one catalog entry contributes to the result. *)
Definition emitted (d : Dockerfile) (rec : Recommendation) : list Recommendation :=
  let idx := GoStrings.Index (ToUpper env (Text d)) (ToUpper env (ConfigTemplate (FlaggedConfig rec))) in
  if negb (idx =? -1)%Z then [flagged d idx rec] else [].

(** [i] is a valid bound of a slice expression on [text]. *)
Definition inRange (text : string) (i : Z) : Prop := (0 <= i <= GoStrings.len text)%Z.

(** Every collected Dockerfile was collected once, under a path marked as seen. *)
Definition collectedOnce (s : locals) : Prop :=
  NoDup (AbsPath <$> Dockerfiles (l s)) /\
  forall d, d ∈ Dockerfiles (l s) -> is_Some (seen s !! AbsPath d).

(** A flag-only recommendation carries no replacement text. *)
Definition noopHasNoTemplate (r : Recommendation) : Prop :=
  Action (RecommendedConfig r) = Noop -> ConfigTemplate (RecommendedConfig r) = "".

(** At the end of a line: at the end of the text or in front of a LF. *)
Definition atLineEnd (s : string) : Prop := s = "" \/ exists s', s = String IndexLine.LF s'.

(** A byte, or a word, without CR and LF. *)
Definition plainByte (c : ascii) : Prop := c <> IndexLine.LF /\ c <> IndexLine.CR.

Fixpoint plain (w : string) : Prop :=
  match w with
  | EmptyString => True
  | String c w' => plainByte c /\ plain w'
  end.
End InspectVocabulary.

(** *** Invariants of the orchestrator *)

Section OrchestratorVocabulary.
Import Schema Lint.
Context {Result : Type}.
Variable env : Env Result.

#[local] Abbreviation locals := (@locals Result).

(** The [LintInputs] literal and the [ConfigFile] literal of the orchestrator. *)
Definition lintInputs (skaffoldyaml : ConfigFile) (c : SkaffoldConfig) (s : locals) : LintInputs :=
  {| ConfigFile_ := skaffoldyaml; DockerfileToDepMap := dockerfileDepMap s; SkaffoldConfig_ := c |}.

Definition configFile (workdir : string) (c : SkaffoldConfig) (b : string) : ConfigFile :=
  {| AbsPath := SourceFile c;
     RelPath := GoStrings.TrimPrefix (SourceFile c) workdir;
     Text := b |}.

(** Every logged call succeeded; or the last one failed with [e] and every
    earlier one succeeded. *)
Definition allSucceeded (cs : list call) : Prop :=
  Forall (fun c => failure env c = None) cs.

Definition failedLast (e : error) (cs : list call) : Prop :=
  exists pre c, cs = pre ++ [c] /\ allSucceeded pre /\ failure env c = Some e.

Definition logOk (s : locals) : Prop := allSucceeded (calls s).
Definition logFailed (e : error) (s : locals) : Prop := failedLast e (calls s).

(** Every logged rule evaluation saw a table that covers its own unit;
    every path marked as seen has an entry in the table. *)
Definition covered (workdir : string) (s : locals) : Prop :=
  Forall (coversOwnArtifacts env workdir) (calls s).

Definition tableHasSeen (s : locals) : Prop :=
  forall fp, is_Some (seen s !! fp) -> is_Some (dockerfileDepMap s !! fp).

Definition artifactsSeen (workdir : string) (arts : list Artifact) (s : locals) : Prop :=
  forall a ws fp, In a arts -> artifactPath env workdir a = Some (ws, fp) ->
    is_Some (seen s !! fp).

(** The consistency of the locals with the log. *)
Definition seenIsExtracted (s : locals) : Prop :=
  forall fp, is_Some (seen s !! fp) <-> fp ∈ (extractions (calls s)).*2.

Definition consistent (s : locals) : Prop :=
  NoDup (extractions (calls s)).*2 /\
  seenIsExtracted s /\
  dockerfileDepMap s = sideTable env (extractions (calls s)).

(** The extractions made so far are the first encounters among the
    artifacts processed so far. *)
Definition extractedFirst (paths : list (string * string)) (s : locals) : Prop :=
  consistent s /\ extractions (calls s) = firstEncounters ∅ paths.
End OrchestratorVocabulary.

(** ** Sample environments, to run the model on concrete inputs *)

Module Samples.
Import Schema.
Local Open Scope string_scope.

Definition nl : string := String IndexLine.LF "".

Fixpoint joinPath (elems : list string) : string :=
  match elems with
  | [] => ""
  | [e] => e
  | e :: rest => e ++ "/" ++ joinPath rest
  end.

(** A stand-in for the diff backend: the header lines of a git-style
    patch, then the two buffers. *)
Definition gitStyleDiff (w : diff.Writer) (a b : diff.Object) : string :=
  "diff --git " ++ diff.SrcPrefix w ++ diff.Path a ++ " " ++ diff.DstPrefix w ++ diff.Path b ++ nl ++
  "index 0000000..1111111 100644" ++ nl ++
  "--- " ++ diff.SrcPrefix w ++ diff.Path a ++ nl ++
  "+++ " ++ diff.DstPrefix w ++ diff.Path b ++ nl ++
  "-" ++ diff.ReadSeeker a ++ nl ++
  "+" ++ diff.ReadSeeker b.

Definition dockerArtifact (ws path : string) : Artifact :=
  {| Workspace := ws; DockerArtifact_ := Some {| DockerfilePath := path |} |}.

(** The scenario text [FROM x], newline, [COPY . .], newline. *)
Definition copyAllText : string := "FROM x" ++ nl ++ "COPY . ." ++ nl.

Definition copyAllDockerfile : Dockerfile :=
  {| AbsPath := "/w/app/Dockerfile"; RelPath := "app/Dockerfile"; Text := copyAllText |}.

Definition copySrcRule : list Recommendation :=
  [ {| FlaggedConfig := Inspect.configOpt "Copy . ." Replace "";
       RecommendedConfig := Inspect.configOpt "Copy $SRC ." Replace "" |} ].

(** A Dockerfile that holds the phrase the flag-only catalog entry looks for. *)
Definition flagOnlyText : string :=
  "Testing what only flagged recommendation w/ no rec looks like".

Definition inspectEnv : Inspect.Env :=
  {| Inspect.unicodeUpper := fun s => s;
     Inspect.filepathJoin := joinPath;
     Inspect.writerDiff := gitStyleDiff;
     Inspect.GetConfigSet :=
       Ok [ {| SourceFile := "/w/skaffold.yaml";
               Build := {| Artifacts := [dockerArtifact "app" "Dockerfile"] |} |} ];
     Inspect.RealWorkDir := Ok "/w";
     Inspect.ReadFile := fun _ => Ok flagOnlyText;
     Inspect.WriteErr := fun e => Some e |}.

(** Two configuration units; the second one references the Dockerfile of
    the first one again. *)
Definition unitA : SkaffoldConfig :=
  {| SourceFile := "/w/a/skaffold.yaml";
     Build := {| Artifacts := [dockerArtifact "a" "Dockerfile"] |} |}.

Definition unitB : SkaffoldConfig :=
  {| SourceFile := "/w/b/skaffold.yaml";
     Build := {| Artifacts := [dockerArtifact "b" "Dockerfile"; dockerArtifact "a" "Dockerfile"] |} |}.

(** A linter reports its name and the file it looked at. *)
Definition linterName (r : Lint.Linter) : string :=
  match r with Lint.RegExpLinter => "regexp" | Lint.YamlFieldLinter => "yamlfield" end.

Definition lintEnv (extractionFails : string -> bool)
    (lintFails : Lint.Linter -> string -> bool) : Lint.Env string :=
  {| Lint.getConfigSet := Ok [unitA; unitB];
     Lint.realWorkDir := Ok "/w";
     Lint.ReadFile := fun _ => Ok "apiVersion: skaffold/v2beta26";
     Lint.filepathJoin := joinPath;
     Lint.GetDependencies := fun cfg =>
       if extractionFails (docker.dockerfilePath cfg) then Err "extraction failed"
       else Ok [docker.workspace cfg ++ "/main.py"];
     Lint.ConfigVersion := "skaffold/v2beta26";
     Lint.Lint := fun r inputs _ =>
       if lintFails r (SourceFile (Lint.SkaffoldConfig_ inputs)) then Err "lint failed"
       else Ok [linterName r ++ ":" ++ SourceFile (Lint.SkaffoldConfig_ inputs)] |}.

(** Every call succeeds. *)
Definition healthyEnv : Lint.Env string := lintEnv (fun _ => false) (fun _ _ => false).

(** The extraction for the Dockerfile of the second unit fails. *)
Definition brokenExtractionEnv : Lint.Env string :=
  lintEnv (String.eqb "/w/b/Dockerfile") (fun _ _ => false).

(** The first linter fails on the first unit. *)
Definition brokenLinterEnv : Lint.Env string :=
  lintEnv (fun _ => false)
    (fun r file => match r with
                   | Lint.RegExpLinter => String.eqb file "/w/a/skaffold.yaml"
                   | Lint.YamlFieldLinter => false
                   end).

(** The field linter fails on every input. *)
Definition brokenFieldLinterEnv : Lint.Env string :=
  lintEnv (fun _ => false)
    (fun r _ => match r with Lint.RegExpLinter => false | Lint.YamlFieldLinter => true end).

Definition sampleInputs : Lint.LintInputs :=
  {| Lint.ConfigFile_ :=
       {| Lint.AbsPath := "/w/a/skaffold.yaml"; Lint.RelPath := "/a/skaffold.yaml";
          Lint.Text := "apiVersion: skaffold/v2beta26" |};
     Lint.DockerfileToDepMap := {[ "/w/a/Dockerfile" := ["/w/a/main.py"] ]};
     Lint.SkaffoldConfig_ := unitA |}.
End Samples.

(** The recommendation of the scenario, as the matcher returns it. *)
Definition scenarioRecommendation : Recommendation :=
  {| FlaggedConfig :=
       {| Action := Replace; Path := "/w/app/Dockerfile"; ConfigTemplate := "Copy . .";
          TextStartIndex := 7; TextEndIndex := 15; Explanation := "" |};
     RecommendedConfig :=
       {| Action := Replace; Path := "/w/app/Dockerfile"; ConfigTemplate := "Copy $SRC .";
          TextStartIndex := 0; TextEndIndex := 0; Explanation := "" |} |}.

(** The Dockerfile of the sample environment, as the driver builds it. *)
Definition flagOnlyDockerfile : Dockerfile :=
  {| AbsPath := "/w/app/Dockerfile"; RelPath := "app/Dockerfile"; Text := Samples.flagOnlyText |}.

(** ** Further sample environments *)

Module MoreSamples.
Import Schema.
Local Open Scope string_scope.

(** A Dockerfile that holds the phrases of both catalog entries. *)
Definition bothPhrasesText : string :=
  "COPY . ." ++ Samples.nl ++ Samples.flagOnlyText.

Definition bothPhrasesDockerfile : Dockerfile :=
  {| AbsPath := "/w/app/Dockerfile"; RelPath := "app/Dockerfile"; Text := bothPhrasesText |}.

(** The inspect environment over a configuration set and a file system. *)
Definition inspectEnvWith (cfgs : list SkaffoldConfig) (read : string -> result string)
  : Inspect.Env :=
  {| Inspect.unicodeUpper := fun s => s;
     Inspect.filepathJoin := Samples.joinPath;
     Inspect.writerDiff := Samples.gitStyleDiff;
     Inspect.GetConfigSet := Ok cfgs;
     Inspect.RealWorkDir := Ok "/w";
     Inspect.ReadFile := read;
     Inspect.WriteErr := fun e => Some e |}.

Definition oneDockerfile : list SkaffoldConfig :=
  [ {| SourceFile := "/w/skaffold.yaml";
       Build := {| Artifacts := [Samples.dockerArtifact "app" "Dockerfile"] |} |} ].

(** Three Docker artifacts over two units, two distinct Dockerfile paths. *)
Definition sharedDockerfile : list SkaffoldConfig :=
  [ {| SourceFile := "/w/skaffold.yaml";
       Build := {| Artifacts := [Samples.dockerArtifact "app" "Dockerfile";
                                 Samples.dockerArtifact "web" "Dockerfile"] |} |};
    {| SourceFile := "/w/other.yaml";
       Build := {| Artifacts := [Samples.dockerArtifact "app" "Dockerfile"] |} |} ].

Definition bothPhrasesEnv : Inspect.Env :=
  inspectEnvWith oneDockerfile (fun _ => Ok bothPhrasesText).

Definition unreadableEnv : Inspect.Env :=
  inspectEnvWith oneDockerfile (fun _ => Err "permission denied").

Definition sharedEnv : Inspect.Env :=
  inspectEnvWith sharedDockerfile (fun _ => Ok Samples.copyAllText).

(** The directory of a slash-separated path. *)
Fixpoint hasSlash (p : string) : bool :=
  match p with
  | EmptyString => false
  | String c p' => Ascii.eqb c "/" || hasSlash p'
  end.

Fixpoint dirName (p : string) : string :=
  match p with
  | EmptyString => EmptyString
  | String c p' => if hasSlash p' then String c (dirName p') else EmptyString
  end.





(** The first Dockerfile holds no catalog phrase, the second one does. *)
Definition cleanThenFlaggedEnv : Inspect.Env :=
  inspectEnvWith sharedDockerfile
    (fun fp => if String.eqb fp "/w/app/Dockerfile" then Ok ("FROM x" ++ Samples.nl)
               else Ok Samples.copyAllText).
End MoreSamples.

(** ** Vocabulary of the further properties *)

Section DriverVocabulary.
Variable env : Inspect.Env.

(** What the driver has collected reflects the file system: every collected
    Dockerfile holds the bytes read at its path, and every collected
    recommendation points at a collected Dockerfile. *)
Definition collectedFaithful (s : Inspect.locals) : Prop :=
  Forall (fun d => Inspect.ReadFile env (AbsPath d) = Ok (Text d)) (Dockerfiles (Inspect.l s)) /\
  Forall (fun r => exists d, In d (Dockerfiles (Inspect.l s)) /\
                             In r (flat_map (emitted env d) Inspect.StringEqualsRecs) /\
                             Path (FlaggedConfig r) = AbsPath d /\
                             Path (RecommendedConfig r) = AbsPath d)
         (DockerfileRecs (Inspect.l s)).

(** What the catalog yields for a Dockerfile, and the collected
    recommendations as the concatenation of what it yields for the collected
    Dockerfiles, in their order. *)
Definition catalogRecs (d : Dockerfile) : list Recommendation :=
  flat_map (emitted env d) Inspect.StringEqualsRecs.

Definition collectedInOrder (s : Inspect.locals) : Prop :=
  DockerfileRecs (Inspect.l s) = flat_map catalogRecs (Dockerfiles (Inspect.l s)).

(** The diff of a Dockerfile with its only recommendation. *)
Definition ownDiff (d : Dockerfile) : option string :=
  match catalogRecs d with
  | [r] => Inspect.generateRecommendationDiff env d r
  | _ => None
  end.

(** The error of the collection loops comes from a read of a path that
    was just marked as seen. *)
Definition failedRead (e : error) (s : Inspect.locals) : Prop :=
  exists fp, Inspect.ReadFile env fp = Err e /\ is_Some (Inspect.seen s !! fp).
End DriverVocabulary.

Section TraceVocabulary.
Import Schema Lint.
Context {Result : Type}.
Variable env : Env Result.

#[local] Abbreviation locals := (@locals Result).

(** What a logged rule evaluation returned. *)
Definition lintResults (c : call) : list Result :=
  match c with
  | CallLint r inputs =>
      match Lint env r inputs (skaffoldYamlRules env) with
      | Ok recs => recs
      | Err _ => []
      end
  | _ => []
  end.

(** The rule evaluations and the reads of a log, and the side-tables
    handed to the rule evaluations. *)
Definition lintCall (c : call) : option (Linter * LintInputs) :=
  match c with CallLint r inputs => Some (r, inputs) | _ => None end.

Definition lintCalls (cs : list call) : list (Linter * LintInputs) := omap lintCall cs.

Definition readCall (c : call) : option string :=
  match c with CallReadFile path => Some path | _ => None end.

Definition reads (cs : list call) : list string := omap readCall cs.

Definition lintTables (cs : list call) : list (gmap string (list string)) :=
  (fun p : Linter * LintInputs => DockerfileToDepMap p.2) <$> lintCalls cs.

(** The linters of [SkaffoldYamlLinters], each paired with the unit [c]. *)
Definition unitLintCalls (c : SkaffoldConfig) : list (Linter * SkaffoldConfig) :=
  map (fun r => (r, c)) SkaffoldYamlLinters.

Definition evaluatedUnit (p : Linter * LintInputs) : Linter * SkaffoldConfig :=
  (p.1, SkaffoldConfig_ p.2).

(** The [ConfigFile] of a rule evaluation is the one built from the bytes
    read at the source file of its unit. *)
Definition readInputs (workdir : string) (p : Linter * LintInputs) : Prop :=
  exists b, ReadFile env (SourceFile (SkaffoldConfig_ p.2)) = Ok b /\
            ConfigFile_ p.2 = configFile workdir (SkaffoldConfig_ p.2) b.

(** The log and the result list after the units [prev] have been processed. *)
Definition trace (workdir : string) (prev : list SkaffoldConfig) (s : locals) : Prop :=
  l s = flat_map lintResults (calls s) /\
  evaluatedUnit <$> lintCalls (calls s) = flat_map unitLintCalls prev /\
  Forall (readInputs workdir) (lintCalls (calls s)) /\
  reads (calls s) = map SourceFile prev.

(** [s'] differs from [s] by dependency extractions only. *)
Definition sameTrace (s s' : locals) : Prop :=
  l s' = l s /\
  flat_map lintResults (calls s') = flat_map lintResults (calls s) /\
  lintCalls (calls s') = lintCalls (calls s) /\
  reads (calls s') = reads (calls s).

(** Every entry of the side-table is for a path marked as seen. *)
Definition tableInSeen (s : locals) : Prop :=
  forall fp, is_Some (dockerfileDepMap s !! fp) -> is_Some (seen s !! fp).

(** The side-tables handed to the rule evaluations grow along the log. *)
Definition increasing (tables : list (gmap string (list string))) : Prop :=
  forall j k t1 t2, (j <= k)%nat -> tables !! j = Some t1 -> tables !! k = Some t2 -> t1 ⊆ t2.

Definition tablesGrow (s : locals) : Prop :=
  tableInSeen s /\
  Forall (fun t => t ⊆ dockerfileDepMap s) (lintTables (calls s)) /\
  increasing (lintTables (calls s)).
End TraceVocabulary.

(** ** The explanation populators of the rule catalog *)

Module Populators.
Import Lint.
Local Open Scope string_scope.

(** [explanationInfo]; the zero value [explanationInfo{}] has a nil
    [FieldMap], which reads as the empty map. *)
Record explanationInfo := { FieldMap : gmap string string }.

Definition emptyInfo : explanationInfo := {| FieldMap := ∅ |}.

Section SyncPython.
(** [filepath.Join], [filepath.Dir], and the order in which [range]
    visits the entries of a map. *)
Variable filepathJoin : list string -> string.
Variable filepathDir : string -> string.
Variable rangeOrder : gmap string (list string) -> list (string * list string).

(** [for _, dep := range deps]: [Some] is the [return] inside the loop. *)
Fixpoint scanDeps (deps : list string) : option (result explanationInfo) :=
  match deps with
  | [] => None
  | dep :: deps' =>
      if GoStrings.HasSuffix dep ".py"
      then Some (Ok {| FieldMap := {[ "src" := filepathJoin [filepathDir dep; "**"; "*.py"] ]} |})
      else scanDeps deps'
  end.

(** [for _, deps := range lintInputs.DockerfileToDepMap]. *)
Fixpoint scanTable (entries : list (string * list string)) : option (result explanationInfo) :=
  match entries with
  | [] => None
  | (_, deps) :: entries' =>
      match scanDeps deps with
      | Some r => Some r
      | None => scanTable entries'
      end
  end.

(** The [ExplanationPopulator] of the [SkaffoldYamlSyncPython] rule. *)
Definition syncPythonPopulator (lintInputs : LintInputs) : result explanationInfo :=
  match scanTable (rangeOrder (DockerfileToDepMap lintInputs)) with
  | Some r => r
  | None => Ok emptyInfo
  end.
End SyncPython.

Section UseStaticPort.
(** [util.IsURL], [filepath.Glob] and [ioutil.ReadFile]. *)
Variable IsURL : string -> bool.
Variable Glob : string -> result (list string).
Variable ReadFile : string -> result string.

(** [for _, relPath := range expanded]: [Some] is the [return] inside the loop. *)
Fixpoint readExpanded (expanded : list string) : option (result explanationInfo) :=
  match expanded with
  | [] => None
  | relPath :: expanded' =>
      match ReadFile relPath with
      | Err _ => Some (Ok emptyInfo)
      | Ok _ => readExpanded expanded'
      end
  end.

(** The [ExplanationPopulator] of the [SkaffoldYamlUseStaticPort] rule;
    [manifests] is [lintInputs.SkaffoldConfig.Deploy.KubectlDeploy.Manifests],
    the only part of its argument the function reads. *)
Fixpoint useStaticPortPopulator (manifests : list string) : result explanationInfo :=
  match manifests with
  | [] => Ok emptyInfo
  | pattern :: manifests' =>
      if IsURL pattern then useStaticPortPopulator manifests'
      else
        match Glob pattern with
        | Err e => Err e
        | Ok expanded =>
            match readExpanded expanded with
            | Some r => r
            | None => useStaticPortPopulator manifests'
            end
        end
  end.

(** A pattern the scan walks past: a URL, or a pattern whose expansion
    succeeds and yields readable files only. *)
Definition passed (pattern : string) : Prop :=
  IsURL pattern = true \/
  exists expanded, Glob pattern = Ok expanded /\
                   Forall (fun relPath => exists b, ReadFile relPath = Ok b) expanded.
End UseStaticPort.
End Populators.

(** ** Package [types] of [hack/comparisonstats] *)

Module ComparisonStats.
Local Open Scope Z_scope.

(** [time.Duration] is an [int64]; [timeSlice] is [[]time.Duration]. *)
Definition Duration := Z.
Definition timeSlice := list Duration.

Definition Len (p : timeSlice) : Z := Z.of_nat (List.length p).

(** The running sum of the loop of [avg], with the wrap-around of [+=]. *)
Definition total (ts : timeSlice) : Duration := fold_left GoInt.add ts 0.

(** [avg]: [None] is the integer-divide-by-zero panic; Go's [/] on
    integers truncates toward zero. *)
Definition avg (ts : timeSlice) : option Duration :=
  if Len ts =? 0 then None else Some (total ts ÷ Len ts).

(** The mathematical sum of the durations. *)
Definition sum (ts : timeSlice) : Z := fold_right Z.add 0 ts.
End ComparisonStats.

(** ** Package [main] of [hack/comparisonstats] *)

Module Validate.
Local Open Scope string_scope.

(** How a function of the command ends: it returns, the process exits
    through [logrus.Fatal] or [logrus.Fatalf], or it panics. *)
Inductive exit (A : Type) : Type :=
| Returned (a : A)
| Fatal
| Panicked.
Arguments Returned {A} a.
Arguments Fatal {A}.
Arguments Panicked {A}.

Definition numBinaries : Z := 2.

Definition len (args : list string) : Z := Z.of_nat (List.length args).

(** [args[i]] and [args[lo:hi]]; [None] is the out-of-range panic. *)
Definition index (args : list string) (i : Z) : option string :=
  if (0 <=? i)%Z then args !! Z.to_nat i else None.

Definition slice (args : list string) (lo hi : Z) : option (list string) :=
  if ((0 <=? lo) && (lo <=? hi) && (hi <=? len args))%Z
  then Some (take (Z.to_nat (hi - lo)) (drop (Z.to_nat lo) args))
  else None.

Section WithFileSystem.
(** [os.Stat], of which only the error is looked at ([None] is [nil]), and
    [filepath.Join]. *)
Variable Stat : string -> option error.
Variable filepathJoin : list string -> string.

Fixpoint validateBinaries (binpaths : list string) : option error :=
  match binpaths with
  | [] => None
  | binpath :: binpaths' =>
      match Stat binpath with
      | Some err => Some err
      | None => validateBinaries binpaths'
      end
  end.

Definition validateExampleAppNameAndSrcFile (exampleAppName exampleSrcFile : string)
  : option error :=
  match Stat (filepathJoin ["../../examples/"; exampleAppName]) with
  | Some err => Some err
  | None =>
      match Stat (filepathJoin ["../../examples/"; exampleAppName; exampleSrcFile]) with
      | Some err => Some err
      | None => None
      end
  end.

Definition validateArgs (args : list string) : exit (option error) :=
  if (len args <? numBinaries + 1)%Z then Fatal
  else
    match slice args 1 (len args - 2) with
    | None => Panicked
    | Some binpaths =>
        match validateBinaries binpaths with
        | Some err => Returned (Some err)
        | None =>
            match index args (len args - 2), index args (len args - 1) with
            | Some exampleAppName, Some exampleSrcFile =>
                Returned (validateExampleAppNameAndSrcFile exampleAppName exampleSrcFile)
            | _, _ => Panicked
            end
        end
    end.

(** [main] up to the assignment of [conf.ExampleSrcFile]; [args] is
    [flag.Args()].  It returns the two configuration fields it has set. *)
Definition mainArgs (args : list string) : exit (string * string) :=
  match validateArgs args with
  | Fatal => Fatal
  | Panicked => Panicked
  | Returned (Some _) => Fatal
  | Returned None =>
      match index args 2 with
      | None => Panicked
      | Some exampleAppName =>
          match index args 3 with
          | None => Panicked
          | Some exampleSrcFile => Returned (exampleAppName, exampleSrcFile)
          end
      end
  end.

(** The paths [validateArgs] hands to [os.Stat] when no check fails, in
    the order of the checks. *)
Definition checkedPaths (args : list string) : list string :=
  let n := List.length args in
  let exampleAppName := default "" (args !! (n - 2)%nat) in
  let exampleSrcFile := default "" (args !! (n - 1)%nat) in
  (drop 1 (take (n - 2) args) ++
   [filepathJoin ["../../examples/"; exampleAppName];
    filepathJoin ["../../examples/"; exampleAppName; exampleSrcFile]])%list.

(** The first error of a sequence of checks. *)
Fixpoint firstError (paths : list string) : option error :=
  match paths with
  | [] => None
  | path :: paths' =>
      match Stat path with
      | Some err => Some err
      | None => firstError paths'
      end
  end.
End WithFileSystem.
End Validate.

(** ** Package [cluster]: the minikube client *)

Module Cluster.
Local Open Scope string_scope.
Set Implicit Arguments.

Section WithTypes.
(** [semver.Version] and [runtime.Object] are types of other modules. *)
Variable Version : Type.
Variable Object : Type.

(** The errors of the package: [errors.New(msg)], the wrapper type
    [versionErr], [fmt.Errorf(format, args...)], and [fmt.Errorf] with a
    format that ends in [%w], which wraps its last argument. *)
Inductive Error :=
| ErrorString (msg : string)
| versionErr (err : Error)
| Errorf (format : string) (args : list string)
| ErrorfW (format : string) (wrapped : Error).

(** [errors.As(err, &versionErr{})]: [versionErr] has no [Unwrap] method. *)
Fixpoint AsVersionErr (e : Error) : bool :=
  match e with
  | ErrorString _ => false
  | versionErr _ => true
  | Errorf _ _ => false
  | ErrorfW _ e' => AsVersionErr e'
  end.

(** A call returning [(v, err)] whose value is not looked at on an error. *)
Inductive res (A : Type) : Type :=
| OK (a : A)
| Fail (e : Error).
Arguments OK {A} a.
Arguments Fail {A} e.

Record node := { IP : string; Port : Z }.
Record kubernetesConfig := { ContainerRuntime : string }.
Record config := {
  Name : string;
  Driver : string;
  Nodes : list node;
  KubernetesConfig : kubernetesConfig
}.
Record profile := { Config : config }.
Record profileList := { Valid : list profile; Invalid : list profile }.

(** The parts of the kubeconfig the client reads; a [nil] extension is [None]. *)
Record KubeContext := {
  Cluster : string;
  Extensions : gmap string (option Object)
}.
Record KubeCluster := { Server : string; CertificateAuthority : string }.
Record KubeConfig := {
  Contexts : gmap string KubeContext;
  Clusters : gmap string KubeCluster
}.

(** A value of the map [ToUnstructured] returns. *)
Inductive value := VString (s : string) | VOther.

(** [exec.Command(name, arg...)]. *)
Inductive Cmd := Command (name : string) (arg : list string).

(** The package-level [mk] and [findOnce]. *)
Record mkT := { err : option Error; version : Version; path : string }.
Record globals := { findOnce : bool; mk : mkT }.

Record clientImpl := {
  kubeContext : string;
  isMinikube : bool;
  profile_ : option profile
}.

(** The package-level state and the receiver of the methods. *)
Record state := { g : globals; c : clientImpl }.

(** The collaborators of the package. *)
Record Env := {
  (** [v.GE(o)], [semver.MustParse(s)] and the zero [semver.Version{}] *)
  GE : Version -> Version -> bool;
  MustParse : string -> Version;
  zeroVersion : Version;
  (** [kctx.CurrentConfig()] *)
  CurrentConfig : res KubeConfig;
  (** [exec.LookPath(file)] *)
  LookPath : string -> string * option Error;
  (** [os.IsNotExist(err)] for the error of [os.Stat(name)] *)
  statIsNotExist : string -> bool;
  (** [GetCurrentVersionFunc(ctx)] *)
  GetCurrentVersionFunc : Version * option Error;
  (** [util.RunCmdOut(ctx, cmd)] *)
  RunCmdOut : Cmd -> res string;
  (** [json.Unmarshal(out, &profiles)] and [json.Unmarshal(out, &minikubeOutput)] *)
  unmarshalProfiles : string -> res profileList;
  unmarshalStrings : string -> gmap string string * option Error;
  (** [version.ParseVersion(v)] *)
  ParseVersion : string -> res Version;
  (** [url.Parse(rawURL)], of which the [Host] is read *)
  urlParseHost : string -> res string;
  (** [fmt.Sprintf("%s:%d", ip, port)] *)
  sprintfHostPort : string -> Z -> string;
  (** [runtime.DefaultUnstructuredConverter.ToUnstructured(obj)] *)
  ToUnstructured : Object -> res (gmap string value);
  (** [util.IsSubPath(basepath, targetpath)] *)
  IsSubPath : string -> string -> bool;
  (** [os.Getenv], [homedir.HomeDir], [filepath.Join], [filepath.Base] *)
  Getenv : string -> string;
  HomeDir : string;
  filepathJoin : list string -> string;
  filepathBase : string -> string
}.

Definition initGlobals (env : Env) : globals :=
  {| findOnce := false; mk := {| err := None; version := zeroVersion env; path := "" |} |}.

(** [getClient()]: [&clientImpl{}]. *)
Definition getClient : clientImpl :=
  {| kubeContext := ""; isMinikube := false; profile_ := None |}.

Definition setErr (e : Error) (m : mkT) : mkT :=
  {| err := Some e; version := version m; path := path m |}.
Definition setPath (p : string) (m : mkT) : mkT :=
  {| err := err m; version := version m; path := p |}.
Definition setVersion (v : Version) (m : mkT) : mkT :=
  {| err := err m; version := v; path := path m |}.

Definition setIsMinikube (b : bool) (s : state) : state :=
  {| g := g s;
     c := {| kubeContext := kubeContext (c s); isMinikube := b; profile_ := profile_ (c s) |} |}.
Definition setProfile (v : profile) (s : state) : state :=
  {| g := g s;
     c := {| kubeContext := kubeContext (c s); isMinikube := isMinikube (c s);
             profile_ := Some v |} |}.
Definition setGlobals (g' : globals) (s : state) : state := {| g := g'; c := c s |}.

Section WithEnv.
Variable env : Env.

Definition minikubeVersionWithUserFlag : Version := MustParse env "1.18.0".
Definition minikubeVersionWithProfileLightFlag : Version := MustParse env "1.18.0".

(** The function handed to [findOnce.Do]. *)
Definition findMinikube (m : mkT) : mkT :=
  let '(filename, lookErr) := LookPath env "minikube" in
  let m1 := match lookErr with
            | Some _ => setErr (ErrorString
                "unable to lookup minikube executable. Please add it to PATH environment variable") m
            | None => m
            end in
  let m2 := if statIsNotExist env filename
            then setErr (Errorf "unable to find minikube executable. File not found %s"
                                [filename]) m1
            else m1 in
  let m3 := setPath filename m2 in
  match GetCurrentVersionFunc env with
  | (_, Some e) => setErr (versionErr e) m3
  | (v, None) => setVersion v m3
  end.

Definition minikubeBinary (gl : globals) : (string * Version * option Error) * globals :=
  let gl' := if findOnce gl then gl
             else {| findOnce := true; mk := findMinikube (mk gl) |} in
  ((path (mk gl'), version (mk gl'), err (mk gl')), gl').

Definition getCurrentVersion : Version * option Error :=
  let cmd := Command "minikube" ["version"; "--output=json"] in
  match RunCmdOut env cmd with
  | Fail e => (zeroVersion env, Some e)
  | OK out =>
      let '(minikubeOutput, uerr) := unmarshalStrings env out in
      match minikubeOutput !! "minikubeVersion" with
      | Some v =>
          match ParseVersion env v with
          | Fail e => (zeroVersion env, Some e)
          | OK currentVersion => (currentVersion, None)
          end
      | None => (zeroVersion env, uerr)
      end
  end.

Definition supportsUserFlag (ver : Version) : bool :=
  GE env ver minikubeVersionWithUserFlag.

Definition isMinikubeExtension (extension : option Object) : bool :=
  match extension with
  | None => false
  | Some ext =>
      match ToUnstructured env ext with
      | Fail _ => false
      | OK m =>
          match m !! "provider" with
          | Some (VString p) => String.eqb p "minikube.sigs.k8s.io"
          | _ => false
          end
      end
  end.

Definition minikubePath : string :=
  let minikubeHomeEnv := Getenv env "MINIKUBE_HOME" in
  if String.eqb minikubeHomeEnv "" then filepathJoin env [HomeDir env; ".minikube"]
  else if String.eqb (filepathBase env minikubeHomeEnv) ".minikube" then minikubeHomeEnv
  else filepathJoin env [minikubeHomeEnv; ".minikube"].

Definition matchClusterCertPath (certPath : string) : bool :=
  negb (String.eqb certPath "") && IsSubPath env minikubePath certPath.

(** The package variable [FindMinikubeBinary], [minikubeBinary] unless a
    test overrides it. *)
Variable FindMinikubeBinary : globals -> (string * Version * option Error) * globals.

Definition minikubeExec (arg : list string) (gl : globals) : res Cmd * globals :=
  let '((b, v, e), gl') := FindMinikubeBinary gl in
  match e with
  | Some e' =>
      if negb (AsVersionErr e')
      then (Fail (ErrorfW "getting minikube executable: %w" e'), gl')
      else (OK (Command b arg), gl')
  | None =>
      if supportsUserFlag v then (OK (Command b (arg ++ ["--user=skaffold"])), gl')
      else (OK (Command b arg), gl')
  end.

Definition listProfilesLight (gl : globals) : res profileList * globals :=
  let args := ["profile"; "list"; "-o"; "json"] in
  let args := if GE env (version (mk gl)) minikubeVersionWithProfileLightFlag
              then (args ++ ["--light"])%list else args in
  match minikubeExec args gl with
  | (Fail e, gl') => (Fail (ErrorfW "minikube profile list: %w" e), gl')
  | (OK cmd, gl') =>
      match RunCmdOut env cmd with
      | Fail e => (Fail (ErrorfW "minikube profile list: %w" e), gl')
      | OK out =>
          match unmarshalProfiles env out with
          | Fail e => (Fail (ErrorfW "unmarshal minikube profile list: %w" e), gl')
          | OK profiles => (OK profiles, gl')
          end
      end
  end.

(** The first loop of [resolveProfile]: a valid profile with a node at
    the address of the API server. *)
Definition nodeMatches (host : string) (n : node) : bool :=
  String.eqb host (sprintfHostPort env (IP n) (Port n)).

Fixpoint findByNode (host : string) (valid : list profile) : option profile :=
  match valid with
  | [] => None
  | v :: valid' =>
      if existsb (nodeMatches host) (Nodes (Config v)) then Some v
      else findByNode host valid'
  end.

(** The second loop: a valid profile named as the cluster or the context. *)
Definition nameMatches (cluster kubeContext : string) (v : profile) : bool :=
  String.eqb (Name (Config v)) cluster || String.eqb (Name (Config v)) kubeContext.

Fixpoint findByName (cluster kubeContext : string) (valid : list profile) : option profile :=
  match valid with
  | [] => None
  | v :: valid' =>
      if nameMatches cluster kubeContext v then Some v
      else findByName cluster kubeContext valid'
  end.

Definition resolveProfile (s : state) : option Error * state :=
  match profile_ (c s) with
  | Some _ => (None, s)
  | None =>
      match CurrentConfig env with
      | Fail e => (Some e, s)
      | OK kubeConfig =>
          match Contexts kubeConfig !! kubeContext (c s) with
          | None => (Some (Errorf "no context named %q" [kubeContext (c s)]), s)
          | Some ktxt =>
              match Clusters kubeConfig !! Cluster ktxt with
              | None => (Some (Errorf "no cluster %q found for context %q"
                                      [Cluster ktxt; kubeContext (c s)]), s)
              | Some cluster =>
                  match listProfilesLight (g s) with
                  | (Fail e, gl') =>
                      (Some (ErrorfW "minikube profile list: %w" e), setGlobals gl' s)
                  | (OK profiles, gl') =>
                      let s1 := setGlobals gl' s in
                      match urlParseHost env (Server cluster) with
                      | Fail e => (Some e, s1)
                      | OK host =>
                          match findByNode host (Valid profiles) with
                          | Some v => (None, setProfile v s1)
                          | None =>
                              match findByName (Cluster ktxt) (kubeContext (c s))
                                               (Valid profiles) with
                              | Some v => (None, setProfile v s1)
                              | None =>
                                  (Some (Errorf "no valid minikube profile found for %q"
                                                [kubeContext (c s)]), s1)
                              end
                          end
                      end
                  end
              end
          end
      end
  end.

Definition hasMinikubeExtension (ktxt : KubeContext) (key : string) : bool :=
  match Extensions ktxt !! key with
  | Some ext => isMinikubeExtension ext
  | None => false
  end.

Definition IsMinikube (kubeContext' : string) (s : state) : bool * state :=
  if String.eqb (kubeContext (c s)) kubeContext' then (isMinikube (c s), s)
  else
    let c1 := {| kubeContext := kubeContext'; isMinikube := false; profile_ := None |} in
    let '((_, _, e), gl') := FindMinikubeBinary (g s) in
    let s1 := {| g := gl'; c := c1 |} in
    match e with
    | Some _ => (false, s1)
    | None =>
        match CurrentConfig env with
        | Fail _ => (false, s1)
        | OK kubeConfig =>
            match Contexts kubeConfig !! kubeContext' with
            | None => (false, s1)
            | Some ktxt =>
                match Clusters kubeConfig !! Cluster ktxt with
                | None => (false, s1)
                | Some cluster =>
                    if hasMinikubeExtension ktxt "context_info" then (true, setIsMinikube true s1)
                    else if hasMinikubeExtension ktxt "cluster_info"
                    then (true, setIsMinikube true s1)
                    else if matchClusterCertPath (CertificateAuthority cluster)
                    then (true, setIsMinikube true s1)
                    else
                      match resolveProfile s1 with
                      | (None, s2) => (true, setIsMinikube true s2)
                      | (Some _, s2) => (false, s2)
                      end
                end
            end
        end
    end.

(** [MinikubeExec] ignores its receiver. *)
Definition MinikubeExec (arg : list string) (s : state) : res Cmd * state :=
  let '(r, gl') := minikubeExec arg (g s) in (r, setGlobals gl' s).

(** [UseDockerEnv]: [None] is the nil-pointer panic of [c.profile.Config]. *)
Definition UseDockerEnv (s : state) : option bool * state :=
  match resolveProfile s with
  | (Some _, s') => (Some false, s')
  | (None, s') =>
      match profile_ (c s') with
      | None => (None, s')
      | Some p =>
          (Some (String.eqb (ContainerRuntime (KubernetesConfig (Config p))) "docker"
                 && (Z.of_nat (List.length (Nodes (Config p))) =? 1)%Z), s')
      end
  end.

(** The profile [v] matches the context of the client: one of its nodes
    is at the address of the API server, or it is named as the cluster or
    the context. *)
Definition profileMatches (kubeConfig : KubeConfig) (kubeContext' : string) (v : profile) : Prop :=
  exists ktxt cluster host,
    Contexts kubeConfig !! kubeContext' = Some ktxt /\
    Clusters kubeConfig !! Cluster ktxt = Some cluster /\
    urlParseHost env (Server cluster) = OK host /\
    (existsb (nodeMatches host) (Nodes (Config v)) = true \/
     nameMatches (Cluster ktxt) kubeContext' v = true).

(** The four detection criteria of [IsMinikube]. *)
Definition detected (kubeConfig : KubeConfig) (kubeContext' : string) (s : state) : Prop :=
  exists ktxt cluster,
    Contexts kubeConfig !! kubeContext' = Some ktxt /\
    Clusters kubeConfig !! Cluster ktxt = Some cluster /\
    (hasMinikubeExtension ktxt "context_info" = true \/
     hasMinikubeExtension ktxt "cluster_info" = true \/
     matchClusterCertPath (CertificateAuthority cluster) = true \/
     exists v, profile_ (c s) = Some v /\ profileMatches kubeConfig kubeContext' v).

(** What [listProfilesLight] does with the command it has built. *)
Definition runProfileList (cmd : Cmd) : res profileList :=
  match RunCmdOut env cmd with
  | Fail e => Fail (ErrorfW "minikube profile list: %w" e)
  | OK out =>
      match unmarshalProfiles env out with
      | Fail e => Fail (ErrorfW "unmarshal minikube profile list: %w" e)
      | OK profiles => OK profiles
      end
  end.
End WithEnv.
End WithTypes.

Arguments OK {A} a.
Arguments Fail {A} e.
Unset Implicit Arguments.
End Cluster.

(** ** A sample environment of the minikube client *)

Module ClusterSamples.
Import Cluster.
Local Open Scope string_scope.

(** Versions as triples, ordered lexicographically. *)
Record triple := { Major : Z; Minor : Z; Patch : Z }.

Definition tripleGE (v o : triple) : bool :=
  ((Major o <? Major v) ||
   ((Major v =? Major o) &&
    ((Minor o <? Minor v) || ((Minor v =? Minor o) && (Patch o <=? Patch v)))))%Z.

Definition single : profile :=
  {| Config := {| Name := "other"; Driver := "docker";
                  Nodes := [ {| IP := "192.168.49.2"; Port := 8443 |} ];
                  KubernetesConfig := {| ContainerRuntime := "docker" |} |} |}.

Definition named : profile :=
  {| Config := {| Name := "minikube"; Driver := "docker";
                  Nodes := [ {| IP := "10.0.0.1"; Port := 8443 |};
                             {| IP := "10.0.0.2"; Port := 8443 |} ];
                  KubernetesConfig := {| ContainerRuntime := "containerd" |} |} |}.

Definition kubeConfig : KubeConfig string :=
  {| Contexts := {[ "minikube" := {| Cluster := "minikube"; Extensions := ∅ |} ]};
     Clusters := {[ "minikube" := {| Server := "https://192.168.49.2:8443";
                                     CertificateAuthority := "/etc/ca.crt" |} ]} |}.

(** An environment over the result of the lookup, the result of the
    version query and the keys of the version output. *)
Definition clusterEnv (look : string * option Error) (ver : triple * option Error)
    (versionOutput : gmap string string) : Env triple string :=
  {| GE := tripleGE;
     MustParse := fun _ => {| Major := 1; Minor := 18; Patch := 0 |};
     zeroVersion := {| Major := 0; Minor := 0; Patch := 0 |};
     CurrentConfig := OK kubeConfig;
     LookPath := fun _ => look;
     statIsNotExist := fun name => String.eqb name "";
     GetCurrentVersionFunc := ver;
     RunCmdOut := fun _ => OK "{}";
     unmarshalProfiles := fun _ => OK {| Valid := [named; single]; Invalid := [] |};
     unmarshalStrings := fun _ => (versionOutput, None);
     ParseVersion := fun _ => OK {| Major := 1; Minor := 25; Patch := 0 |};
     urlParseHost := fun _ => OK "192.168.49.2:8443";
     sprintfHostPort := fun ip _ => ip ++ ":8443";
     ToUnstructured := fun provider => OK {[ "provider" := VString provider ]};
     IsSubPath := fun base target => GoStrings.HasPrefix target base;
     Getenv := fun _ => "";
     HomeDir := "/home/u";
     filepathJoin := Samples.joinPath;
     filepathBase := fun p => p |}.

Definition found : string * option Error := ("/usr/bin/minikube", None).
Definition notFound : string * option Error := ("", Some (ErrorString "not found")).
Definition v1_25 : triple * option Error := ({| Major := 1; Minor := 25; Patch := 0 |}, None).
Definition noVersion : triple * option Error :=
  ({| Major := 0; Minor := 0; Patch := 0 |}, Some (ErrorString "exit status 1")).

Definition healthy : Env triple string := clusterEnv found v1_25 ∅.

Definition fresh (env : Env triple string) : state triple :=
  {| g := initGlobals env; c := getClient |}.
End ClusterSamples.

(* ===================================================================== *)
(** * Part II: properties                                                 *)
(* ===================================================================== *)

(** ** Strings *)

#[local] Arguments Ascii.eqb : simpl never.

Section StringFacts.
Import GoStrings.
Local Open Scope string_scope.

Lemma app_cons c (s t : string) : String c s ++ t = String c (s ++ t).
Proof. reflexivity. Qed.

Lemma app_empty_l (s : string) : "" ++ s = s.
Proof. reflexivity. Qed.

Lemma app_empty_r (s : string) : s ++ "" = s.
Proof. induction s as [|c s IH]; [done|]. by rewrite app_cons, IH. Qed.

Lemma length_app (s t : string) :
  String.length (s ++ t) = (String.length s + String.length t)%nat.
Proof. induction s as [|c s IH]; [done|]. rewrite app_cons. simpl. by rewrite IH. Qed.

Lemma len_nonneg s : (0 <= len s)%Z.
Proof. unfold len; lia. Qed.

Lemma len_cons c s : len (String c s) = (len s + 1)%Z.
Proof. unfold len; simpl; lia. Qed.

Lemma len_app s1 s2 : len (s1 ++ s2) = (len s1 + len s2)%Z.
Proof. unfold len. rewrite length_app. lia. Qed.

Lemma HasPrefix_app s p : HasPrefix s p = true <-> exists after, s = p ++ after.
Proof.
  revert s; induction p as [|c p IH]; intros s; simpl.
  - split; [eauto|done].
  - destruct s as [|d s].
    + split; [done|]. intros [after Heq]. discriminate.
    + rewrite andb_true_iff, Ascii.eqb_eq, IH. split.
      * intros [-> [after ->]]. eauto.
      * intros [after [= -> ->]]. eauto.
Qed.

Lemma occursAt_nonneg s sub i : occursAt s sub i -> (0 <= i)%Z.
Proof. intros (b & a & _ & <-). apply len_nonneg. Qed.

Lemma occursAt_0 s sub : occursAt s sub 0 <-> HasPrefix s sub = true.
Proof.
  rewrite HasPrefix_app. split.
  - intros (b & a & -> & Hb). destruct b; [eauto|].
    rewrite len_cons in Hb. pose proof (len_nonneg b). lia.
  - intros [a ->]. by exists "", a.
Qed.

Lemma occursAt_succ c s sub i :
  (0 <= i)%Z -> occursAt (String c s) sub (i + 1) <-> occursAt s sub i.
Proof.
  intros Hi. split.
  - intros (b & a & Heq & Hb). destruct b as [|c' b].
    + unfold len in Hb; simpl in Hb. lia.
    + rewrite app_cons in Heq. injection Heq as -> ->. rewrite len_cons in Hb.
      exists b, a. split; [done|lia].
  - intros (b & a & -> & <-). exists (String c b), a.
    split; [done|]. by rewrite len_cons.
Qed.

Lemma occursAt_empty sub i : occursAt "" sub i -> sub = "" /\ i = 0%Z.
Proof.
  intros (b & a & Heq & <-). destruct b; [|discriminate].
  destruct sub; [done|discriminate].
Qed.

(** [indexFrom] returns [-1] when there is no occurrence, and otherwise the
    start offset [i] plus the least offset of an occurrence. *)
Lemma indexFrom_spec s sub : forall i, (0 <= i)%Z ->
  (indexFrom i s sub = (-1)%Z /\ forall j, ~ occursAt s sub j) \/
  (exists k, indexFrom i s sub = (i + k)%Z /\ occursAt s sub k /\
             forall j, occursAt s sub j -> (k <= j)%Z).
Proof.
  induction s as [|c s IH]; intros i Hi; simpl.
  - destruct (HasPrefix "" sub) eqn:P.
    + right. exists 0%Z. split; [lia|]. split; [by apply occursAt_0|].
      intros j Hj. by apply occursAt_nonneg in Hj.
    + left. split; [done|]. intros j Hj.
      apply occursAt_empty in Hj as [-> ->]. discriminate.
  - destruct (HasPrefix (String c s) sub) eqn:P.
    + right. exists 0%Z. split; [lia|]. split; [by apply occursAt_0|].
      intros j Hj. by apply occursAt_nonneg in Hj.
    + assert (Hshift : forall j, occursAt (String c s) sub j ->
                (1 <= j)%Z /\ occursAt s sub (j - 1)).
      { intros j Hj. pose proof (occursAt_nonneg _ _ _ Hj).
        destruct (decide (j = 0%Z)) as [->|Hne].
        - apply occursAt_0 in Hj. congruence.
        - split; [lia|]. replace j with (j - 1 + 1)%Z in Hj by lia.
          apply occursAt_succ in Hj; [done|lia]. }
      destruct (IH (i + 1)%Z ltac:(lia)) as [[E N]|(k & E & O & L)].
      * left. split; [done|]. intros j Hj. apply Hshift in Hj as [_ Hj]. by eapply N.
      * right. exists (k + 1)%Z. split; [lia|]. split.
        { apply occursAt_succ; [by eapply occursAt_nonneg|done]. }
        intros j Hj. apply Hshift in Hj as [? Hj]. apply L in Hj. lia.
Qed.

(** [strings.Index]: no occurrence and [-1], or the least offset of one. *)
Lemma Index_spec s sub :
  (Index s sub = (-1)%Z /\ forall j, ~ occursAt s sub j) \/
  (occursAt s sub (Index s sub) /\ forall j, occursAt s sub j -> (Index s sub <= j)%Z).
Proof.
  unfold Index. destruct (indexFrom_spec s sub 0 ltac:(lia)) as [?|(k & -> & ? & ?)]; [by left|].
  right. by rewrite Z.add_0_l.
Qed.


(** *** Upper-casing ASCII text keeps every byte offset *)

Lemma upperByte_not_lower c : isLower c = false -> upperByte c = c.
Proof. unfold upperByte. by intros ->. Qed.

Lemma mapBytes_upper_no_lower s : hasLower s = false -> mapBytes upperByte s = s.
Proof.
  induction s as [|c s IH]; simpl; [done|].
  intros [Hc Hs]%orb_false_elim. by rewrite upperByte_not_lower, IH.
Qed.

Lemma ToUpper_ascii unicodeUpper s :
  isASCII s = true -> ToUpper unicodeUpper s = mapBytes upperByte s.
Proof.
  unfold ToUpper. intros ->. destruct (hasLower s) eqn:E; [done|].
  by rewrite mapBytes_upper_no_lower.
Qed.

Lemma length_mapBytes f s : String.length (mapBytes f s) = String.length s.
Proof. induction s as [|c s IH]; simpl; [done|]. by rewrite IH. Qed.

Lemma mapBytes_take f n s : mapBytes f (take n s) = take n (mapBytes f s).
Proof.
  revert s; induction n as [|n IH]; intros [|c s]; simpl; try done. by rewrite IH.
Qed.

Lemma mapBytes_drop f n s : mapBytes f (drop n s) = drop n (mapBytes f s).
Proof. revert s; induction n as [|n IH]; intros [|c s]; simpl; try done. Qed.

Lemma drop_app_length (a b : string) : drop (String.length a) (a ++ b) = b.
Proof. induction a as [|c a IH]; [by destruct b|]. by rewrite app_cons. Qed.

Lemma take_app_length (a b : string) : take (String.length a) (a ++ b) = a.
Proof.
  induction a as [|c a IH]; [by destruct b|]. rewrite app_cons. simpl. by rewrite IH.
Qed.

(** An occurrence at offset [i] is the slice [s[i : i+len(sub)]]. *)
Lemma occursAt_slice s sub i :
  occursAt s sub i -> take (String.length sub) (drop (Z.to_nat i) s) = sub.
Proof.
  intros (before & after & -> & <-). unfold len. rewrite Nat2Z.id.
  by rewrite drop_app_length, take_app_length.
Qed.
End StringFacts.

(** ** Slices of strings *)

Section SliceFacts.
Import GoStrings.
Local Open Scope string_scope.

Lemma take_drop (n : nat) (s : string) : take n s ++ drop n s = s.
Proof.
  revert s; induction n as [|n IH]; intros [|c s]; simpl; try done.
  by rewrite app_cons, IH.
Qed.

Lemma drop_drop (n m : nat) (s : string) : drop m (drop n s) = drop (n + m) s.
Proof.
  revert s; induction n as [|n IH]; intros [|c s]; simpl; try done. by destruct m.
Qed.

Lemma length_take_le (n : nat) (s : string) :
  (n <= String.length s)%nat -> String.length (take n s) = n.
Proof.
  revert s; induction n as [|n IH]; intros [|c s]; simpl; try done; try lia.
  intros H. rewrite IH; lia.
Qed.

(** An occurrence in the upper-cased ASCII text cuts the text itself in
    three: the bytes before, the flagged bytes, the bytes after. *)
Lemma occursAt_upper_split (text t : string) (i : Z) :
  occursAt (mapBytes upperByte text) (mapBytes upperByte t) i ->
  exists n : nat,
    i = Z.of_nat n /\ (n + String.length t <= String.length text)%nat /\
    mapBytes upperByte (take (String.length t) (drop n text)) = mapBytes upperByte t.
Proof.
  intros Hocc. pose proof Hocc as (before & after & Heq & Hlen).
  exists (String.length before). split; [done|]. split.
  - rewrite <- (length_mapBytes upperByte text), Heq, !length_app, length_mapBytes. lia.
  - apply occursAt_slice in Hocc. rewrite <- Hlen in Hocc. unfold len in Hocc.
    rewrite Nat2Z.id, length_mapBytes in Hocc.
    by rewrite mapBytes_take, mapBytes_drop.
Qed.
End SliceFacts.

(** ** Case folding *)

Section FoldFacts.
Import GoStrings.
Local Open Scope string_scope.






End FoldFacts.

(** ** Go integers *)

Section IntFacts.
Local Open Scope Z_scope.

Lemma wrap_small z : GoInt.MinInt <= z <= GoInt.MaxInt -> GoInt.wrap z = z.
Proof.
  unfold GoInt.wrap, GoInt.MinInt, GoInt.MaxInt. intros H.
  rewrite Z.mod_small; lia.
Qed.

End IntFacts.

(** ** The string-equals matcher *)

Section StringEquals.
Import Inspect.
Variable env : Env.

Lemma fold_suggestStep d rc acc :
  fold_left (suggestStep env d) rc acc = acc ++ flat_map (emitted env d) rc.
Proof.
  revert acc; induction rc as [|rec rc IH]; intros acc; simpl.
  - by rewrite app_nil_r.
  - rewrite IH. unfold suggestStep, emitted.
    destruct (negb _); [by rewrite <- app_assoc|done].
Qed.

(** The loop emits the entries in catalog order, at most one per entry. *)
Lemma SuggestRecsViaStringEquals_flat_map rc d :
  SuggestRecsViaStringEquals env rc d = Ok (flat_map (emitted env d) rc).
Proof. unfold SuggestRecsViaStringEquals. by rewrite fold_suggestStep. Qed.

(** What the search of one entry computes: the least offset at which
    [ToUpper(t)] occurs in [ToUpper(text)], an offset of the upper-cased
    text. *)
Lemma emitted_inv d rec r :
  In r (emitted env d rec) ->
  r = flagged d (GoStrings.Index (ToUpper env (Text d))
                   (ToUpper env (ConfigTemplate (FlaggedConfig rec)))) rec /\
  (occursAt (ToUpper env (Text d)) (ToUpper env (ConfigTemplate (FlaggedConfig rec)))
     (GoStrings.Index (ToUpper env (Text d)) (ToUpper env (ConfigTemplate (FlaggedConfig rec)))) /\
   forall j, occursAt (ToUpper env (Text d)) (ToUpper env (ConfigTemplate (FlaggedConfig rec))) j ->
     (GoStrings.Index (ToUpper env (Text d)) (ToUpper env (ConfigTemplate (FlaggedConfig rec)))
      <= j)%Z).
Proof.
  unfold emitted.
  set (up := ToUpper env (Text d)). set (ut := ToUpper env (ConfigTemplate (FlaggedConfig rec))).
  destruct (Z.eqb_spec (GoStrings.Index up ut) (-1)) as [E|E]; simpl; [done|].
  intros [<-|[]]. split; [done|].
  by destruct (Index_spec up ut) as [[E' _]|[O L]].
Qed.


(** On all-ASCII input the offsets are offsets into the Dockerfile text
    itself: the flagged bytes equal the template up to the case of letters. *)
Lemma emitted_flags_raw_text d rec r :
  In r (emitted env d rec) ->
  GoStrings.isASCII (Text d) = true ->
  GoStrings.isASCII (ConfigTemplate (FlaggedConfig rec)) = true ->
  GoStrings.mapBytes GoStrings.upperByte
    (GoStrings.take (String.length (ConfigTemplate (FlaggedConfig rec)))
       (GoStrings.drop (Z.to_nat (TextStartIndex (FlaggedConfig r))) (Text d))) =
  GoStrings.mapBytes GoStrings.upperByte (ConfigTemplate (FlaggedConfig rec)).
Proof.
  intros Hr Htext Ht. apply emitted_inv in Hr as [-> [Hocc _]]. simpl.
  unfold ToUpper in Hocc. rewrite !ToUpper_ascii in Hocc by done.
  apply occursAt_slice in Hocc. rewrite length_mapBytes in Hocc.
  unfold ToUpper. rewrite !ToUpper_ascii by done.
  by rewrite mapBytes_take, mapBytes_drop.
Qed.
End StringEquals.




(** On the scenario text the rule is emitted once, with offsets 7 and 15. *)
Example scenario_recommendations (env : Inspect.Env) :
  Inspect.SuggestRecsViaStringEquals env Samples.copySrcRule Samples.copyAllDockerfile =
  Ok [ {| FlaggedConfig :=
            {| Action := Replace; Path := "/w/app/Dockerfile"; ConfigTemplate := "Copy . .";
               TextStartIndex := 7; TextEndIndex := 15; Explanation := "" |};
          RecommendedConfig :=
            {| Action := Replace; Path := "/w/app/Dockerfile"; ConfigTemplate := "Copy $SRC .";
               TextStartIndex := 0; TextEndIndex := 0; Explanation := "" |} |} ].
Proof. vm_compute. reflexivity. Qed.

(** C3, as stated, fails: on the scenario text the end offset is not 16. *)
Lemma scenario_end_index_16_fails :
  ~ (exists r : Recommendation,
       Inspect.SuggestRecsViaStringEquals Samples.inspectEnv Samples.copySrcRule
         Samples.copyAllDockerfile = Ok [r] /\
       TextStartIndex (FlaggedConfig r) = 7%Z /\
       TextEndIndex (FlaggedConfig r) = 16%Z).
Proof.
  intros (r & Hr & _ & Hend).
  rewrite scenario_recommendations in Hr. injection Hr as <-. simpl in Hend. lia.
Qed.

(** C3 (amended). On the text [FROM x], newline, [COPY . .], newline, a
    string-equals rule that flags [Copy . .] with replacement [Copy $SRC .]
    yields exactly one recommendation, with [TextStartIndex == 7] and
    [TextEndIndex == 15] (the flagged phrase is 8 bytes long). *)
Theorem scenario_offsets_7_15 (env : Inspect.Env) :
  exists r : Recommendation,
    Inspect.SuggestRecsViaStringEquals env Samples.copySrcRule Samples.copyAllDockerfile = Ok [r] /\
    TextStartIndex (FlaggedConfig r) = 7%Z /\
    TextEndIndex (FlaggedConfig r) = 15%Z /\
    ConfigTemplate (FlaggedConfig r) = "Copy . ."%string /\
    ConfigTemplate (RecommendedConfig r) = "Copy $SRC ."%string.
Proof.
  eexists. split; [apply scenario_recommendations|]. simpl. done.
Qed.

(** ** The stub strategies *)

(** The two appends of the stub results change nothing. *)
Lemma getDockerfileRecommendations_eq (env : Inspect.Env) (d : Dockerfile) :
  Inspect.getDockerfileRecommendations env d = Ok (flat_map (emitted env d) Inspect.StringEqualsRecs).
Proof.
  unfold Inspect.getDockerfileRecommendations, Inspect.regexpRecommendations,
    Inspect.graphRecommendations.
  rewrite SuggestRecsViaStringEquals_flat_map.
  by rewrite !app_nil_r.
Qed.

(** C9. [regexpRecommendations] and [graphRecommendations] return an empty
    list and a nil error, and for every Dockerfile
    [getDockerfileRecommendations] returns exactly what the string-equals
    matcher returns on the catalog [StringEqualsRecs]. *)
Theorem getDockerfileRecommendations_string_equals_only (env : Inspect.Env) (d : Dockerfile) :
  Inspect.regexpRecommendations = Ok [] /\
  Inspect.graphRecommendations = Ok [] /\
  Inspect.getDockerfileRecommendations env d =
    Inspect.SuggestRecsViaStringEquals env Inspect.StringEqualsRecs d.
Proof.
  split; [done|]. split; [done|].
  by rewrite getDockerfileRecommendations_eq, SuggestRecsViaStringEquals_flat_map.
Qed.

(** ** [Action.String] *)

(** C10. [Action.String] is defined exactly on the four declared values:
    [Replace], [Add], [Delete], [Noop] (0..3) map to their names, and for
    any integer [a] the call returns a string iff [0 <= a <= 3]; outside
    that range the array index panics ([None]). *)
Theorem Action_String_defined (a : Action.t) :
  Action.String Replace = Some "Replace"%string /\
  Action.String Add = Some "Add"%string /\
  Action.String Delete = Some "Delete"%string /\
  Action.String Noop = Some "Noop"%string /\
  ((0 <= a <= 3)%Z <-> exists s, Action.String a = Some s) /\
  (~ (0 <= a <= 3)%Z <-> Action.String a = None).
Proof.
  repeat (split; [reflexivity|]).
  unfold Action.String. simpl List.length.
  destruct (Z.leb_spec 0 a) as [Hlo|Hlo], (Z.ltb_spec a (Z.of_nat 4)) as [Hhi|Hhi]; simpl.
  - assert (Hcases : a = 0%Z \/ a = 1%Z \/ a = 2%Z \/ a = 3%Z) by lia.
    split; split; try lia.
    + intros _. destruct Hcases as [-> | [-> | [-> | ->]]]; simpl; eauto.
    + destruct Hcases as [-> | [-> | [-> | ->]]]; simpl; done.
  - split; split; try lia; try done; by intros (s & Hs).
  - split; split; try lia; try done; by intros (s & Hs).
  - split; split; try lia; try done; by intros (s & Hs).
Qed.

(** ** The diff synthesizer *)

Section IndexLineFacts.
Import IndexLine GoStrings.
Local Open Scope string_scope.

Lemma ReplaceAllString_eq s :
  ReplaceAllString s =
  match matchAt s with
  | Some rest => ReplaceAllString rest
  | None => match s with
            | EmptyString => EmptyString
            | String c s' => String c (ReplaceAllString s')
            end
  end.
Proof.
  funelim (ReplaceAllString s); try (rewrite e; reflexivity). reflexivity.
Qed.

(** Induction on the text that follows the recursion of [ReplaceAllString]. *)
Lemma ReplaceAllString_ind' (P : string -> Prop) :
  (forall s rest, matchAt s = Some rest -> P rest -> P s) ->
  (matchAt "" = None -> P "") ->
  (forall c s, matchAt (String c s) = None -> P s -> P (String c s)) ->
  forall s, P s.
Proof.
  intros Hmatch Hnil Hcons s.
  remember (String.length s) as n eqn:Hn. revert s Hn.
  induction n as [n IH] using lt_wf_ind. intros s ->.
  destruct (matchAt s) as [rest|] eqn:E.
  - apply (Hmatch _ _ E). apply (IH (String.length rest)); [by apply matchAt_shorter|done].
  - destruct s as [|c s]; [by apply Hnil|].
    apply Hcons; [done|]. apply (IH (String.length s)); [simpl; lia|done].
Qed.

Lemma dropLine_atLineEnd s : atLineEnd (dropLine s).
Proof.
  induction s as [|c s IH]; simpl; [by left|].
  destruct (Ascii.eqb_spec c LF) as [->|]; [right; eauto|done].
Qed.

Lemma matchAt_atLineEnd s rest : matchAt s = Some rest -> atLineEnd rest.
Proof.
  unfold matchAt. destruct (newlineRun false s) as [b r].
  destruct (b && HasPrefix r "index"); [|done].
  intros [= <-]. apply dropLine_atLineEnd.
Qed.

(** A match starts at a CR or a LF. *)
Lemma matchAt_head c s rest : matchAt (String c s) = Some rest -> c = LF \/ c = CR.
Proof.
  unfold matchAt. simpl.
  destruct (Ascii.eqb_spec c LF); [by left|].
  destruct (Ascii.eqb_spec c CR); [by right|].
  simpl. done.
Qed.

(** What the replacement leaves after a match starts a line end. *)
Lemma ReplaceAllString_atLineEnd s : atLineEnd s -> atLineEnd (ReplaceAllString s).
Proof.
  induction s as [s rest E IH| |c s E IH] using ReplaceAllString_ind';
    rewrite ReplaceAllString_eq.
  - intros _. rewrite E. apply IH. by eapply matchAt_atLineEnd.
  - intros _. simpl. by left.
  - rewrite E. intros [?|[s' [= -> ->]]]; [done|]. right. eauto.
Qed.

Lemma atLineEnd_no_plain_prefix s c w :
  plainByte c -> atLineEnd s -> HasPrefix s (String c w) = false.
Proof.
  intros [Hc _] [->|[s' ->]]; simpl; [done|].
  destruct (Ascii.eqb_spec LF c); [congruence|done].
Qed.

(** A word without CR or LF that starts the result starts the input. *)
Lemma ReplaceAllString_plain_prefix s : forall w,
  plain w -> HasPrefix (ReplaceAllString s) w = true -> HasPrefix s w = true.
Proof.
  induction s as [s rest E IH| |c s E IH] using ReplaceAllString_ind';
    intros w Hw; rewrite ReplaceAllString_eq.
  - rewrite E. destruct w as [|c w]; [done|]. destruct Hw as [Hc _].
    rewrite atLineEnd_no_plain_prefix; [done|done|].
    apply ReplaceAllString_atLineEnd. by eapply matchAt_atLineEnd.
  - done.
  - rewrite E. destruct w as [|c' w]; [done|]. destruct Hw as [_ Hw]. simpl.
    rewrite !andb_true_iff. intros [? ?]. split; [done|]. by apply IH.
Qed.

Lemma plain_index : plain "index".
Proof. repeat split; done. Qed.

Lemma newlineRun_plain b c s :
  plainByte c -> newlineRun b (String c s) = (b, String c s).
Proof.
  intros [? ?]. cbn [newlineRun].
  destruct (Ascii.eqb_spec c LF); [done|]. by destruct (Ascii.eqb_spec c CR).
Qed.

(** In front of [index], a single LF is a match. *)
Lemma matchAt_LF_index s :
  HasPrefix s "index" = true -> matchAt (String LF s) <> None.
Proof.
  intros P. destruct s as [|c s]; [done|].
  assert (c = "i"%char) as ->.
  { cbn [HasPrefix] in P. apply andb_true_iff in P as [P _]. by apply Ascii.eqb_eq in P. }
  unfold matchAt.
  change (newlineRun false (String LF (String "i" s)))
    with (newlineRun true (String "i" s)).
  rewrite newlineRun_plain by (split; done). cbn [andb]. by rewrite P.
Qed.

(** After the replacement, no line but possibly the first begins with [index]. *)
Lemma ReplaceAllString_noIndexAfterLF s : noIndexAfterLF (ReplaceAllString s) = true.
Proof.
  induction s as [s rest E IH| |c s E IH] using ReplaceAllString_ind';
    rewrite ReplaceAllString_eq.
  - by rewrite E.
  - done.
  - rewrite E. cbn [noIndexAfterLF]. rewrite IH, andb_true_r.
    destruct (Ascii.eqb_spec c LF) as [->|]; [|done].
    apply negb_true_iff, not_true_is_false. intros P.
    apply ReplaceAllString_plain_prefix in P; [|apply plain_index].
    by apply matchAt_LF_index in P.
Qed.

(** The first line of the result begins with [index] only if the first
    line of the input does. *)
Lemma ReplaceAllString_first_line s :
  HasPrefix s "index" = false -> HasPrefix (ReplaceAllString s) "index" = false.
Proof.
  intros P. apply not_true_is_false. intros Q.
  apply ReplaceAllString_plain_prefix in Q; [congruence|apply plain_index].
Qed.

Lemma ReplaceAllString_noIndexLine s :
  HasPrefix s "index" = false -> noIndexLine (ReplaceAllString s) = true.
Proof.
  intros P. unfold noIndexLine.
  by rewrite ReplaceAllString_first_line, ReplaceAllString_noIndexAfterLF.
Qed.
End IndexLineFacts.

Section DiffFacts.
Import Inspect.
Local Open Scope string_scope.
Variable env : Env.

Lemma sliceTo_inRange text i :
  inRange text i -> GoStrings.sliceTo text i = Some (GoStrings.take (Z.to_nat i) text).
Proof.
  intros [H0 H1]. unfold GoStrings.sliceTo.
  destruct (Z.leb_spec 0 i), (Z.leb_spec i (GoStrings.len text)); simpl; done || lia.
Qed.

Lemma sliceFrom_inRange text j :
  inRange text j -> GoStrings.sliceFrom text j = Some (GoStrings.drop (Z.to_nat j) text).
Proof.
  intros [H0 H1]. unfold GoStrings.sliceFrom.
  destruct (Z.leb_spec 0 j), (Z.leb_spec j (GoStrings.len text)); simpl; done || lia.
Qed.

Lemma sliceTo_None text i : GoStrings.sliceTo text i = None <-> ~ inRange text i.
Proof.
  unfold GoStrings.sliceTo, inRange.
  destruct (Z.leb_spec 0 i), (Z.leb_spec i (GoStrings.len text)); simpl; split; done || lia.
Qed.

Lemma sliceFrom_None text j : GoStrings.sliceFrom text j = None <-> ~ inRange text j.
Proof.
  unfold GoStrings.sliceFrom, inRange.
  destruct (Z.leb_spec 0 j), (Z.leb_spec j (GoStrings.len text)); simpl; split; done || lia.
Qed.

(** The synthesizer panics exactly when one of the two offsets is not a
    valid slice bound of the text. *)
Lemma generateRecommendationDiff_panics d r :
  generateRecommendationDiff env d r = None <->
  ~ (inRange (Text d) (TextStartIndex (FlaggedConfig r)) /\
     inRange (Text d) (TextEndIndex (FlaggedConfig r))).
Proof.
  unfold generateRecommendationDiff.
  destruct (GoStrings.sliceTo _ _) eqn:E1.
  - destruct (GoStrings.sliceFrom _ _) eqn:E2.
    + split; [done|]. intros H. exfalso. apply H. split.
      * destruct (decide (inRange (Text d) (TextStartIndex (FlaggedConfig r)))) as [|N];
          [done|]. apply sliceTo_None in N. congruence.
      * destruct (decide (inRange (Text d) (TextEndIndex (FlaggedConfig r)))) as [|N];
          [done|]. apply sliceFrom_None in N. congruence.
    + split; [|done]. intros _ [_ H]. by apply sliceFrom_None in E2.
  - split; [|done]. intros _ [H _]. by apply sliceTo_None in E1.
Qed.
End DiffFacts.

(** C7. When both offsets are valid slice bounds of the Dockerfile text,
    [generateRecommendationDiff] hands the diff backend two objects: the
    original text under the path [RelPath + ".orig"], and the buffer
    [original[:TextStartIndex] + RecommendedConfig.ConfigTemplate +
    original[TextEndIndex:]] under the path [RelPath]; it returns the
    backend's output with the [index] lines removed: no line after the first
    begins with [index], and neither does the first line unless the backend's
    output itself begins with [index] (the backend's first line is its
    [diff --git] header). *)
Theorem generateRecommendationDiff_splice_labels_strip
    (env : Inspect.Env) (d : Dockerfile) (r : Recommendation) :
  inRange (Text d) (TextStartIndex (FlaggedConfig r)) ->
  inRange (Text d) (TextEndIndex (FlaggedConfig r)) ->
  let modified :=
    (GoStrings.take (Z.to_nat (TextStartIndex (FlaggedConfig r))) (Text d) ++
     ConfigTemplate (RecommendedConfig r) ++
     GoStrings.drop (Z.to_nat (TextEndIndex (FlaggedConfig r))) (Text d))%string in
  let a := {| diff.ReadSeeker := Text d; diff.Path := (RelPath d ++ ".orig")%string |} in
  let b := {| diff.ReadSeeker := modified; diff.Path := RelPath d |} in
  let raw := Inspect.writerDiff env {| diff.SrcPrefix := ""; diff.DstPrefix := "" |} a b in
  exists out : string,
    Inspect.generateRecommendationDiff env d r = Some out /\
    out = IndexLine.ReplaceAllString raw /\
    noIndexAfterLF out = true /\
    (GoStrings.HasPrefix raw "index" = false -> noIndexLine out = true).
Proof.
  intros Hs He modified a b raw. exists (IndexLine.ReplaceAllString raw).
  split.
  - unfold Inspect.generateRecommendationDiff.
    by rewrite (sliceTo_inRange _ _ Hs), (sliceFrom_inRange _ _ He).
  - split; [done|]. split; [apply ReplaceAllString_noIndexAfterLF|].
    apply ReplaceAllString_noIndexLine.
Qed.

(** C7 on the scenario: the spliced buffer, the labels and the stripped output. *)
Lemma generateRecommendationDiff_splice_labels_strip_witness :
  inRange (Text Samples.copyAllDockerfile) 7 /\
  inRange (Text Samples.copyAllDockerfile) 15 /\
  exists out : string,
    Inspect.generateRecommendationDiff Samples.inspectEnv Samples.copyAllDockerfile
      scenarioRecommendation = Some out /\
    out = IndexLine.ReplaceAllString
            (Samples.gitStyleDiff {| diff.SrcPrefix := ""; diff.DstPrefix := "" |}
               {| diff.ReadSeeker := Samples.copyAllText; diff.Path := "app/Dockerfile.orig" |}
               {| diff.ReadSeeker :=
                    ("FROM x" ++ Samples.nl ++ "Copy $SRC ." ++ Samples.nl)%string;
                  diff.Path := "app/Dockerfile" |}) /\
    noIndexAfterLF out = true /\
    noIndexLine out = true.
Proof.
  assert (H7 : inRange (Text Samples.copyAllDockerfile) 7) by (vm_compute; split; discriminate).
  assert (H15 : inRange (Text Samples.copyAllDockerfile) 15) by (vm_compute; split; discriminate).
  split; [exact H7|]. split; [exact H15|].
  destruct (generateRecommendationDiff_splice_labels_strip Samples.inspectEnv
              Samples.copyAllDockerfile scenarioRecommendation H7 H15)
    as (out & Hout & Hraw & Hafter & Hfirst).
  exists out. split; [exact Hout|]. split; [exact Hraw|]. split; [exact Hafter|].
  apply Hfirst. vm_compute. reflexivity.
Defined.

(** ** Loops in the monad *)

Section Loops.
Context {St A : Type}.

Lemma forEach_cons (body : A -> M St unit) x xs s :
  forEach body (x :: xs) s =
  match body x s with
  | (Ok _, s') => forEach body xs s'
  | (Err e, s') => (Err e, s')
  end.
Proof. reflexivity. Qed.

(** A property of the state that every iteration preserves, whether it
    ends normally or with an error, holds when the loop ends. *)
Lemma forEach_invariant (I : St -> Prop) (body : A -> M St unit) xs :
  (forall x s r s', In x xs -> I s -> body x s = (r, s') -> I s') ->
  forall s r s', I s -> forEach body xs s = (r, s') -> I s'.
Proof.
  induction xs as [|x xs IH]; intros Hbody s r s' Hs Hrun.
  - by injection Hrun as _ <-.
  - rewrite forEach_cons in Hrun.
    destruct (body x s) as [[[]|e] s1] eqn:E.
    + eapply IH; [|eapply Hbody; [by left|done|done]|done].
      intros; eapply Hbody; [by right|done|done].
    + injection Hrun as _ <-. eapply Hbody; [by left|done|done].
Qed.

(** The loop rule, with an invariant that may mention the elements
    processed so far. *)
Lemma forEach_ends (I : list A -> St -> Prop) (E : error -> St -> Prop)
    (body : A -> M St unit) xs :
  (forall prev x todo s, xs = prev ++ x :: todo ->
     I prev s -> ends (I (prev ++ [x])) E (body x s)) ->
  forall s, I [] s -> ends (I xs) E (forEach body xs s).
Proof.
  intros Hbody.
  assert (Hgen : forall todo prev s, xs = prev ++ todo ->
            I prev s -> ends (I xs) E (forEach body todo s)).
  { induction todo as [|x todo IH]; intros prev s Hxs Hs.
    - simpl. rewrite app_nil_r in Hxs. by subst.
    - rewrite forEach_cons. specialize (Hbody prev x todo s Hxs Hs).
      destruct (body x s) as [[[]|e] s1]; simpl in Hbody; [|done].
      apply (IH (prev ++ [x])); [by rewrite <- app_assoc|done]. }
  intros s Hs. by apply (Hgen xs []).
Qed.
End Loops.

(** ** Flag-only recommendations and the print loop *)

Section NoopFacts.
Import Schema Inspect.
Local Open Scope string_scope.
Variable env : Env.

Lemma catalog_noopHasNoTemplate rec :
  In rec StringEqualsRecs -> noopHasNoTemplate rec.
Proof. intros [<-|[<-|[]]]; unfold noopHasNoTemplate; simpl; done. Qed.

(** The matcher keeps the action and the template of the recommended side. *)
Lemma getDockerfileRecommendations_noop d recs :
  getDockerfileRecommendations env d = Ok recs -> Forall noopHasNoTemplate recs.
Proof.
  rewrite getDockerfileRecommendations_eq. intros Heq.
  assert (recs = flat_map (emitted env d) StringEqualsRecs) as -> by congruence.
  apply Forall_forall. intros r Hr. apply list_elem_of_In in Hr.
  apply in_flat_map in Hr as (rec & Hrec & Hr).
  apply emitted_inv in Hr as [-> _].
  apply catalog_noopHasNoTemplate in Hrec. exact Hrec.
Qed.

Lemma inspectArtifact_noop workdir a s r s' :
  Forall noopHasNoTemplate (DockerfileRecs (l s)) ->
  inspectArtifact env workdir a s = (r, s') ->
  Forall noopHasNoTemplate (DockerfileRecs (l s')).
Proof.
  unfold inspectArtifact. intros Hs.
  destruct (DockerArtifact_ a) as [da|]; [|by intros [= _ <-]].
  unfold bind, get, modify, try, ret.
  destruct (seen s !! _); [by intros [= _ <-]|].
  destruct (ReadFile env _) as [b|e]; [|by intros [= _ <-]].
  destruct (getDockerfileRecommendations env _) as [recs|e] eqn:E; [|by intros [= _ <-]].
  intros [= _ <-]. simpl. apply Forall_app. split; [done|].
  by eapply getDockerfileRecommendations_noop.
Qed.

Lemma collectRecommendations_noop workdir cfgs r s :
  collectRecommendations env workdir cfgs init = (r, s) ->
  Forall noopHasNoTemplate (DockerfileRecs (l s)).
Proof.
  unfold collectRecommendations. intros Hrun.
  pose (I := fun s : locals => Forall noopHasNoTemplate (DockerfileRecs (l s))).
  apply (forEach_invariant I _ _) with (s := init) (r := r) (s' := s) in Hrun;
    [done| |by constructor].
  intros c s0 r0 s1 _ Hs0 Hc.
  apply (forEach_invariant I _ _) with (s := s0) (r := r0) (s' := s1) in Hc; [done| |done].
  intros a s2 r2 s3 _. apply inspectArtifact_noop.
Qed.

(** The driver reads and collects each Dockerfile path at most once. *)
Lemma inspectArtifact_once workdir a s r s' :
  collectedOnce s -> inspectArtifact env workdir a s = (r, s') -> collectedOnce s'.
Proof.
  unfold inspectArtifact. intros [Hnd Hseen].
  destruct (DockerArtifact_ a) as [da|]; [|by intros [= _ <-]].
  unfold bind, get, modify, try, ret.
  destruct (seen s !! _) eqn:Es; [by intros [= _ <-]|].
  set (fp := filepathJoin env [workdir; Workspace a; DockerfilePath da]) in *.
  assert (Hmark : collectedOnce (markSeen fp s)).
  { split; [done|]. intros d Hd. simpl.
    destruct (decide (fp = AbsPath d)) as [->|Hne]; [by rewrite lookup_insert_eq|].
    rewrite lookup_insert_ne by done. by apply Hseen. }
  destruct (ReadFile env fp) as [b|e]; [|by intros [= _ <-]].
  destruct (getDockerfileRecommendations env _) as [recs|e]; [|by intros [= _ <-]].
  intros [= _ <-]. split; simpl.
  - rewrite fmap_app. apply NoDup_app. split; [done|]. split; [|apply NoDup_singleton].
    intros p Hp ->%list_elem_of_singleton.
    apply list_elem_of_fmap in Hp as (d & Hfp & Hd). apply Hseen in Hd as [x Hx].
    simpl in Hfp. rewrite <- Hfp in Hx. congruence.
  - intros d [Hd| ->%list_elem_of_singleton]%elem_of_app; [by apply Hmark|].
    simpl. by rewrite lookup_insert_eq.
Qed.

Lemma collectRecommendations_once workdir cfgs r s :
  collectRecommendations env workdir cfgs init = (r, s) ->
  NoDup (AbsPath <$> Dockerfiles (l s)).
Proof.
  unfold collectRecommendations. intros Hrun.
  apply (forEach_invariant collectedOnce _ _) with (s := init) (r := r) (s' := s) in Hrun;
    [apply Hrun| |].
  - intros c s0 r0 s1 _ Hs0 Hc.
    apply (forEach_invariant collectedOnce _ _) with (s := s0) (r := r0) (s' := s1) in Hc;
      [done| |done].
    intros a s2 r2 s3 _. apply inspectArtifact_once.
  - split; [constructor|]. intros d Hd. by apply elem_of_nil in Hd.
Qed.

(** A print loop that runs to its end has printed one diff per
    recommendation, in order. *)
Lemma printDiffs_complete ds recs : forall i printed,
  printDiffs env ds i recs = (printed, Return None) ->
  List.length printed = List.length recs /\
  forall k r, recs !! k = Some r ->
    exists d text, ds !! (i + k)%nat = Some d /\
      generateRecommendationDiff env d r = Some text /\ printed !! k = Some text.
Proof.
  induction recs as [|r0 recs IH]; intros i printed; simpl.
  - intros [= <-]. split; [done|]. intros k r Hk. done.
  - destruct (ds !! i) as [d|] eqn:Ed; [|done].
    destruct (generateRecommendationDiff env d r0) as [text|] eqn:Et; [|done].
    destruct (printDiffs env ds (S i) recs) as [printed' o] eqn:Ep.
    intros [= <- ->]. destruct (IH _ _ Ep) as [Hlen Hk]. split; [simpl; lia|].
    intros [|k] r Hr; simpl in Hr.
    + injection Hr as <-. exists d, text. by rewrite Nat.add_0_r.
    + destruct (Hk k r Hr) as (d' & text' & ? & ? & ?).
      exists d', text'. by rewrite Nat.add_succ_r.
Qed.
End NoopFacts.

(** C2, as stated, fails: a Dockerfile that holds the phrase of the
    flag-only catalog entry yields one recommendation with
    [RecommendedConfig.Action == Noop], and [PrintDockerfilesList] prints the
    diff that [generateRecommendationDiff] builds for it. *)
Lemma noop_recommendation_gets_a_diff :
  exists (r : Recommendation) (text : string),
    Inspect.getDockerfileRecommendations Samples.inspectEnv flagOnlyDockerfile = Ok [r] /\
    Action (RecommendedConfig r) = Noop /\
    Inspect.generateRecommendationDiff Samples.inspectEnv flagOnlyDockerfile r = Some text /\
    Inspect.PrintDockerfilesList Samples.inspectEnv = ([text], Return None).
Proof.
  eexists. eexists. split; [vm_compute; reflexivity|].
  split; [reflexivity|]. split; vm_compute; reflexivity.
Qed.

(** C2 (amended). In a run of [PrintDockerfilesList] whose collection loops
    end without error, every collected recommendation whose
    [RecommendedConfig.Action == Noop] has an empty
    [RecommendedConfig.ConfigTemplate]; the print loop does not look at the
    action: when it runs to its end it has printed one
    [generateRecommendationDiff] result per collected recommendation. *)
Theorem noop_template_empty_diff_still_generated
    (env : Inspect.Env) (cfgs : list Schema.SkaffoldConfig) (workdir : string)
    (s : Inspect.locals) (printed : list string) :
  Inspect.GetConfigSet env = Ok cfgs ->
  Inspect.RealWorkDir env = Ok workdir ->
  Inspect.collectRecommendations env workdir cfgs Inspect.init = (Ok tt, s) ->
  Inspect.PrintDockerfilesList env = (printed, Return None) ->
  (forall r, In r (DockerfileRecs (Inspect.l s)) ->
     Action (RecommendedConfig r) = Noop -> ConfigTemplate (RecommendedConfig r) = ""%string) /\
  List.length printed = List.length (DockerfileRecs (Inspect.l s)) /\
  (forall i r, DockerfileRecs (Inspect.l s) !! i = Some r ->
     exists d text, In d (Dockerfiles (Inspect.l s)) /\
       Inspect.generateRecommendationDiff env d r = Some text /\ printed !! i = Some text).
Proof.
  intros Hcfg Hwd Hcollect Hprint.
  split.
  - intros r Hr. apply collectRecommendations_noop in Hcollect.
    rewrite Forall_forall in Hcollect. apply Hcollect. by apply list_elem_of_In.
  - unfold Inspect.PrintDockerfilesList in Hprint. rewrite Hcfg, Hwd, Hcollect in Hprint.
    apply printDiffs_complete in Hprint as [Hlen Hk]. split; [done|].
    intros i r Hr. destruct (Hk i r Hr) as (d & text & Hd & Hgen & Hp).
    exists d, text. split; [|done].
    apply list_elem_of_In. by eapply list_elem_of_lookup_2.
Qed.

(** C2 (amended) on the sample environment, whose only recommendation is
    the flag-only one. *)
Lemma noop_template_empty_diff_still_generated_witness :
  let collected := Inspect.collectRecommendations Samples.inspectEnv "/w"
               [ {| Schema.SourceFile := "/w/skaffold.yaml";
                    Schema.Build :=
                      {| Schema.Artifacts := [Samples.dockerArtifact "app" "Dockerfile"] |} |} ]
               Inspect.init in
  collected.1 = Ok tt /\
  exists printed,
    Inspect.PrintDockerfilesList Samples.inspectEnv = (printed, Return None) /\
    (forall r, In r (DockerfileRecs (Inspect.l collected.2)) ->
       Action (RecommendedConfig r) = Noop -> ConfigTemplate (RecommendedConfig r) = ""%string) /\
    List.length printed = List.length (DockerfileRecs (Inspect.l collected.2)) /\
    (forall i r, DockerfileRecs (Inspect.l collected.2) !! i = Some r ->
       exists d text, In d (Dockerfiles (Inspect.l collected.2)) /\
         Inspect.generateRecommendationDiff Samples.inspectEnv d r = Some text /\
         printed !! i = Some text).
Proof.
  intros collected.
  assert (Hrun : collected = (Ok tt, collected.2)) by (vm_compute; reflexivity).
  split; [by rewrite Hrun|].
  eexists. split; [vm_compute; reflexivity|].
  apply (noop_template_empty_diff_still_generated Samples.inspectEnv _ "/w" collected.2 _
           eq_refl eq_refl Hrun).
  vm_compute; reflexivity.
Defined.

(** ** The orchestrator *)

Section OrchestratorFacts.
Import Schema Lint.
Context {Result : Type}.
Variable env : Env Result.

#[local] Abbreviation locals := (@locals Result).

(** *** What one step does *)

Lemma extractArtifact_eq workdir a (s : locals) :
  extractArtifact env workdir a s =
  match artifactPath env workdir a with
  | None => (Ok tt, s)
  | Some (ws, fp) =>
      match seen s !! fp with
      | Some _ => (Ok tt, s)
      | None =>
          let s1 := logCall (CallGetDependencies ws fp) (markSeen fp s) in
          match getDockerfileFileDependencies env ws fp with
          | Ok deps => (Ok tt, setDeps fp deps s1)
          | Err e => (Err e, s1)
          end
      end
  end.
Proof.
  unfold extractArtifact, artifactPath.
  destruct (DockerArtifact_ a) as [da|]; [|done].
  unfold bind, get, external, bind, modify, try, ret. cbn beta iota.
  destruct (seen s !! _); [done|].
  by destruct (getDockerfileFileDependencies env _ _).
Qed.

Lemma runLinters_cons skaffoldyaml c r linters results (s : locals) :
  runLinters env skaffoldyaml c (r :: linters) results s =
  let s1 := logCall (CallLint r (lintInputs skaffoldyaml c s)) s in
  match Lint env r (lintInputs skaffoldyaml c s) (skaffoldYamlRules env) with
  | Ok recs => runLinters env skaffoldyaml c linters (results ++ recs) s1
  | Err e => (Err e, s1)
  end.
Proof.
  cbn [runLinters]. unfold bind, get, external, bind, modify, try. cbn beta iota.
  fold (lintInputs skaffoldyaml c s).
  by destruct (Lint env r _ _).
Qed.

Lemma lintConfig_eq workdir c (s : locals) :
  lintConfig env workdir c s =
  let s0 := logCall (CallReadFile (SourceFile c)) s in
  match ReadFile env (SourceFile c) with
  | Err e => (Err e, s0)
  | Ok b =>
      match forEach (extractArtifact env workdir) (Artifacts (Build c)) s0 with
      | (Err e, s1) => (Err e, s1)
      | (Ok _, s1) =>
          match runLinters env (configFile workdir c b) c SkaffoldYamlLinters [] s1 with
          | (Err e, s2) => (Err e, s2)
          | (Ok results, s2) => (Ok tt, appendResults results s2)
          end
      end
  end.
Proof.
  unfold lintConfig. unfold bind at 1. unfold external, bind, modify, try. cbn beta iota.
  destruct (ReadFile env (SourceFile c)) as [b|e]; [|done].
  fold (configFile workdir c b).
  destruct (forEach _ _ _) as [[[]|e] s1]; [|done].
  by destruct (runLinters _ _ _ _ _ _) as [[results|e] s2].
Qed.

(** *** Fail-fast: a failed call is the last call *)

Lemma allSucceeded_snoc cs c :
  allSucceeded env cs -> failure env c = None -> allSucceeded env (cs ++ [c]).
Proof. intros H1 H2. apply Forall_app. split; [done|]. by constructor. Qed.

Lemma extractArtifact_failFast workdir a (s : locals) :
  logOk env s -> ends (logOk env) (logFailed env) (extractArtifact env workdir a s).
Proof.
  intros Hs. rewrite extractArtifact_eq.
  destruct (artifactPath env workdir a) as [[ws fp]|]; [|done].
  destruct (seen s !! fp); [done|]. cbn zeta.
  destruct (getDockerfileFileDependencies env ws fp) as [deps|e] eqn:E; simpl.
  - apply allSucceeded_snoc; [done|]. simpl. by rewrite E.
  - exists (calls s), (CallGetDependencies ws fp). split; [done|]. split; [done|].
    simpl. by rewrite E.
Qed.

Lemma runLinters_failFast skaffoldyaml c linters : forall results (s : locals),
  logOk env s -> ends (logOk env) (logFailed env) (runLinters env skaffoldyaml c linters results s).
Proof.
  induction linters as [|r linters IH]; intros results s Hs; [done|].
  rewrite runLinters_cons. cbn zeta.
  destruct (Lint env r _ _) as [recs|e] eqn:E.
  - apply IH. apply allSucceeded_snoc; [done|]. simpl. by rewrite E.
  - exists (calls s), (CallLint r (lintInputs skaffoldyaml c s)).
    split; [done|]. split; [done|]. simpl. by rewrite E.
Qed.

Lemma lintConfig_failFast workdir c (s : locals) :
  logOk env s -> ends (logOk env) (logFailed env) (lintConfig env workdir c s).
Proof.
  intros Hs. rewrite lintConfig_eq. cbn zeta.
  destruct (ReadFile env (SourceFile c)) as [b|e] eqn:E.
  - assert (H0 : logOk env (logCall (CallReadFile (SourceFile c)) s)).
    { apply allSucceeded_snoc; [done|]. simpl. by rewrite E. }
    pose proof (forEach_ends (fun _ => logOk env) (logFailed env) (extractArtifact env workdir)
                  (Artifacts (Build c))
                  (fun _ a _ s' _ Hs' => extractArtifact_failFast workdir a s' Hs') _ H0) as H1.
    destruct (forEach _ _ _) as [[[]|e] s1]; [|done]. simpl in H1.
    pose proof (runLinters_failFast (configFile workdir c b) c SkaffoldYamlLinters [] s1 H1) as H2.
    by destruct (runLinters _ _ _ _ _ _) as [[results|e] s2].
  - exists (calls s), (CallReadFile (SourceFile c)). split; [done|]. split; [done|].
    simpl. by rewrite E.
Qed.

(** The log of a run: every call succeeded, or the run returns the error
    of the last call and every earlier call succeeded. *)
Lemma run_failFast res (s : locals) :
  GetSkaffoldYamlsLintResults env = (res, s) ->
  match res with
  | Ok _ => allSucceeded env (calls s)
  | Err e => calls s = [] \/ failedLast env e (calls s)
  end.
Proof.
  unfold GetSkaffoldYamlsLintResults.
  destruct (getConfigSet env) as [cfgs|e]; [|intros [= <- <-]; by left].
  destruct (realWorkDir env) as [workdir|e]; [|intros [= <- <-]; by left].
  pose proof (forEach_ends (fun _ => logOk env) (logFailed env) (lintConfig env workdir) cfgs
                (fun _ c _ s' _ Hs' => lintConfig_failFast workdir c s' Hs')
                init ltac:(by constructor)) as H.
  destruct (forEach _ _ _) as [[[]|e] s1]; intros [= <- <-]; [done|by right].
Qed.

(** A call of the log that failed is the last one, and the run returns
    its error. *)
Lemma failed_call_ends_run res (s : locals) pre c post e :
  GetSkaffoldYamlsLintResults env = (res, s) ->
  calls s = pre ++ c :: post ->
  failure env c = Some e ->
  res = Err e /\ post = [].
Proof.
  intros Hrun Hlog Hc. apply run_failFast in Hrun.
  assert (Hnot : forall post', ~ allSucceeded env (pre ++ c :: post')).
  { intros post' H. apply Forall_app in H as [_ H]. apply Forall_cons in H as [H _]. congruence. }
  destruct res as [rs|e'].
  - rewrite Hlog in Hrun. by apply Hnot in Hrun.
  - destruct Hrun as [Hnil|(pre' & c' & Hlast & Hpre' & Hc')].
    { rewrite Hlog in Hnil. by destruct pre. }
    rewrite Hlog in Hlast.
    destruct post as [|p post _] using rev_ind.
    + apply app_inj_tail in Hlast as [_ <-]. split; [congruence|done].
    + exfalso. rewrite app_comm_cons, app_assoc in Hlast.
      apply app_inj_tail in Hlast as [<- _]. by apply Hnot in Hpre'.
Qed.

(** *** The side-table covers the unit under evaluation *)

Lemma extractArtifact_covered workdir prev a (s : locals) :
  covered env workdir s /\ tableHasSeen s /\ artifactsSeen env workdir prev s ->
  ends (fun s' => covered env workdir s' /\ tableHasSeen s' /\ artifactsSeen env workdir (prev ++ [a]) s')
       (fun _ s' => covered env workdir s')
       (extractArtifact env workdir a s).
Proof.
  intros (Hc & Ht & Hp). rewrite extractArtifact_eq.
  unfold covered, tableHasSeen, artifactsSeen in *.
  destruct (artifactPath env workdir a) as [[ws fp]|] eqn:Ea.
  - destruct (seen s !! fp) eqn:Es.
    + simpl. split; [done|]. split; [done|].
      intros a' ws' fp' [Hin|[<-|[]]]%in_app_or Ha'; [by eapply Hp|].
      assert (fp' = fp) as -> by congruence. by rewrite Es.
    + cbn zeta. destruct (getDockerfileFileDependencies env ws fp) as [deps|e]; simpl.
      * split; [apply Forall_app; split; [done|by constructor]|]. split.
        { intros fp'. destruct (decide (fp = fp')) as [->|Hne].
          - by rewrite !lookup_insert_eq.
          - rewrite !lookup_insert_ne by done. apply Ht. }
        intros a' ws' fp' [Hin|[<-|[]]]%in_app_or Ha'.
        { destruct (decide (fp = fp')) as [->|Hne]; [by rewrite lookup_insert_eq|].
          rewrite lookup_insert_ne by done. by eapply Hp. }
        assert (fp' = fp) as -> by congruence. by rewrite lookup_insert_eq.
      * apply Forall_app; split; [done|by constructor].
  - simpl. split; [done|]. split; [done|].
    intros a' ws' fp' [Hin|[<-|[]]]%in_app_or Ha'; [by eapply Hp|congruence].
Qed.

Lemma runLinters_covered workdir skaffoldyaml c linters : forall results (s : locals),
  covered env workdir s ->
  (forall a ws fp, In a (Artifacts (Build c)) -> artifactPath env workdir a = Some (ws, fp) ->
     is_Some (dockerfileDepMap s !! fp)) ->
  let p := runLinters env skaffoldyaml c linters results s in
  covered env workdir p.2 /\ seen p.2 = seen s /\ dockerfileDepMap p.2 = dockerfileDepMap s.
Proof.
  induction linters as [|r linters IH]; intros results s Hc Ha; [done|].
  rewrite runLinters_cons. cbn zeta.
  assert (Hc' : covered env workdir (logCall (CallLint r (lintInputs skaffoldyaml c s)) s)).
  { apply Forall_app. split; [done|]. constructor; [|done]. exact Ha. }
  destruct (Lint env r _ _) as [recs|e]; [|done].
  exact (IH (results ++ recs) _ Hc' Ha).
Qed.

Lemma lintConfig_covered workdir c (s : locals) :
  covered env workdir s /\ tableHasSeen s ->
  ends (fun s' => covered env workdir s' /\ tableHasSeen s') (fun _ s' => covered env workdir s')
       (lintConfig env workdir c s).
Proof.
  intros [Hc Ht]. rewrite lintConfig_eq. cbn zeta.
  assert (Hc0 : covered env workdir (logCall (CallReadFile (SourceFile c)) s)).
  { apply Forall_app. split; [done|by constructor]. }
  destruct (ReadFile env (SourceFile c)) as [b|e]; [|done].
  pose proof (forEach_ends
                (fun prev s' => covered env workdir s' /\ tableHasSeen s' /\
                                artifactsSeen env workdir prev s')
                (fun _ s' => covered env workdir s') (extractArtifact env workdir)
                (Artifacts (Build c))
                (fun prev a _ s' _ Hs' => extractArtifact_covered workdir prev a s' Hs')
                (logCall (CallReadFile (SourceFile c)) s)) as H1.
  destruct (forEach _ _ _) as [[[]|e] s1]; simpl in H1.
  - destruct H1 as (Hc1 & Ht1 & Hs1); [split; [done|]; split; [done|]; by intros ? ? ? []|].
    pose proof (runLinters_covered workdir (configFile workdir c b) c SkaffoldYamlLinters []
                  s1 Hc1) as H2.
    destruct (runLinters _ _ _ _ _ _) as [[results|e] s2]; simpl in H2.
    + destruct H2 as (Hc2 & Hseen & Hmap); [intros; eapply Ht1, Hs1; done|].
      split; [done|]. unfold tableHasSeen. simpl. rewrite Hseen, Hmap. exact Ht1.
    + apply H2. intros; eapply Ht1, Hs1; done.
  - apply H1. split; [done|]. split; [done|]. by intros ? ? ? [].
Qed.

Lemma run_covered cfgs workdir res (s : locals) :
  getConfigSet env = Ok cfgs -> realWorkDir env = Ok workdir ->
  GetSkaffoldYamlsLintResults env = (res, s) ->
  covered env workdir s.
Proof.
  unfold GetSkaffoldYamlsLintResults. intros -> ->.
  pose proof (forEach_ends
                (fun _ s' => covered env workdir s' /\ tableHasSeen s')
                (fun _ s' => covered env workdir s') (lintConfig env workdir) cfgs
                (fun _ c _ s' _ Hs' => lintConfig_covered workdir c s' Hs') init) as H.
  assert (Hinit : covered env workdir init /\ tableHasSeen (@init Result)).
  { split; [by constructor|]. intros fp [x Hx]. simpl in Hx. by rewrite lookup_empty in Hx. }
  specialize (H Hinit).
  destruct (forEach _ _ _) as [[[]|e] s1]; intros [= <- <-]; simpl in H; [apply H|done].
Qed.
End OrchestratorFacts.

(** *** C4 and C5: when the side-table is built, and what a failure does *)

(** C4, as stated, fails.  When every call succeeds, the extraction for the
    second unit comes after the rules of the first unit were evaluated; and
    when that extraction fails the run returns its error after rules were
    evaluated. *)
Lemma side_table_not_built_before_rules :
  let healthy := Lint.GetSkaffoldYamlsLintResults Samples.healthyEnv in
  let broken := Lint.GetSkaffoldYamlsLintResults Samples.brokenExtractionEnv in
  (exists results, healthy.1 = Ok results) /\
  noExtractionAfterLint (Lint.calls healthy.2) = false /\
  broken.1 = Err "extraction failed"%string /\
  noExtractionAfterLint (Lint.calls broken.2) = false /\
  map isLint (Lint.calls broken.2) = [false; false; true; true; false; false] /\
  map isExtraction (Lint.calls broken.2) = [false; true; false; false; false; true].
Proof.
  cbv zeta. split; [eexists; vm_compute; reflexivity|].
  repeat split; vm_compute; reflexivity.
Qed.

(** C4 (amended). The side-table is built unit by unit: the table handed to
    a rule evaluation has an entry for every Docker artifact of the unit
    under evaluation.  A dependency extraction that fails is the last call
    of the run, which returns that error: no rule is evaluated after it
    (the rules of earlier units have been evaluated before it). *)
Theorem side_table_built_per_unit_fail_fast
    {Result : Type} (env : Lint.Env Result) (cfgs : list Schema.SkaffoldConfig)
    (workdir : string) (res : result (list Result)) (s : Lint.locals) :
  Lint.getConfigSet env = Ok cfgs ->
  Lint.realWorkDir env = Ok workdir ->
  Lint.GetSkaffoldYamlsLintResults env = (res, s) ->
  Forall (coversOwnArtifacts env workdir) (Lint.calls s) /\
  (forall pre ws fp post e,
     Lint.calls s = pre ++ Lint.CallGetDependencies ws fp :: post ->
     Lint.getDockerfileFileDependencies env ws fp = Err e ->
     res = Err e /\ post = []).
Proof.
  intros Hcfgs Hwd Hrun. split; [by eapply run_covered|].
  intros pre ws fp post e Hlog Hfail.
  eapply failed_call_ends_run; [done|done|]. simpl. by rewrite Hfail.
Qed.

(** C4 (amended) on the sample run whose second extraction fails. *)
Lemma side_table_built_per_unit_fail_fast_witness :
  let env := Samples.brokenExtractionEnv in
  let s := (Lint.GetSkaffoldYamlsLintResults env).2 in
  Lint.getConfigSet env = Ok [Samples.unitA; Samples.unitB] /\
  Lint.realWorkDir env = Ok "/w"%string /\
  Forall (coversOwnArtifacts env "/w") (Lint.calls s) /\
  (forall pre ws fp post e,
     Lint.calls s = pre ++ Lint.CallGetDependencies ws fp :: post ->
     Lint.getDockerfileFileDependencies env ws fp = Err e ->
     (Lint.GetSkaffoldYamlsLintResults env).1 = Err e /\ post = []).
Proof.
  intros env s. split; [reflexivity|]. split; [reflexivity|].
  exact (side_table_built_per_unit_fail_fast env [Samples.unitA; Samples.unitB] "/w"
           (Lint.GetSkaffoldYamlsLintResults env).1 s eq_refl eq_refl
           (surjective_pairing _)).
Defined.

(** C5, as stated, fails.  When the first linter fails on the first unit,
    the run returns that error and no result; the second linter, which
    fails on no input, is never called, and the second unit is not read. *)
Lemma linter_failure_is_not_isolated :
  let env := Samples.brokenLinterEnv in
  let p := Lint.GetSkaffoldYamlsLintResults env in
  p.1 = Err "lint failed"%string /\
  map isLint (Lint.calls p.2) = [false; false; true] /\
  ~ In (Lint.CallReadFile "/w/b/skaffold.yaml") (Lint.calls p.2) /\
  (forall inputs rules, exists recs,
     Lint.Lint env Lint.YamlFieldLinter inputs rules = Ok recs /\ recs <> []).
Proof.
  cbv zeta. split; [vm_compute; reflexivity|]. split; [vm_compute; reflexivity|]. split.
  - vm_compute. intros [H|[H|[H|[]]]]; discriminate.
  - intros inputs rules. eexists. split; [reflexivity|done].
Qed.

(** C5 (amended). A call of [Lint] that fails is the last call of the run:
    [GetSkaffoldYamlsLintResults] returns that error and no result, and
    neither the remaining linters nor the remaining configuration units
    are evaluated. *)
Theorem linter_failure_aborts_run
    {Result : Type} (env : Lint.Env Result) (res : result (list Result)) (s : Lint.locals)
    (pre post : list Lint.call) (linter : Lint.Linter) (inputs : Lint.LintInputs) (e : error) :
  Lint.GetSkaffoldYamlsLintResults env = (res, s) ->
  Lint.calls s = pre ++ Lint.CallLint linter inputs :: post ->
  Lint.Lint env linter inputs (Lint.skaffoldYamlRules env) = Err e ->
  res = Err e /\ post = [].
Proof.
  intros Hrun Hlog Hfail.
  eapply failed_call_ends_run; [done|done|]. simpl. by rewrite Hfail.
Qed.

(** C5 (amended) on the sample run whose first linter fails. *)
Lemma linter_failure_aborts_run_witness :
  let env := Samples.brokenLinterEnv in
  let p := Lint.GetSkaffoldYamlsLintResults env in
  let inputs :=
    {| Lint.ConfigFile_ :=
         {| Lint.AbsPath := "/w/a/skaffold.yaml"; Lint.RelPath := "/a/skaffold.yaml";
            Lint.Text := "apiVersion: skaffold/v2beta26" |};
       Lint.DockerfileToDepMap := Lint.dockerfileDepMap p.2;
       Lint.SkaffoldConfig_ := Samples.unitA |} in
  Lint.calls p.2 = take 2 (Lint.calls p.2) ++ [Lint.CallLint Lint.RegExpLinter inputs] /\
  Lint.Lint env Lint.RegExpLinter inputs (Lint.skaffoldYamlRules env) = Err "lint failed"%string /\
  p.1 = Err "lint failed"%string /\ @nil Lint.call = [].
Proof.
  intros env p inputs.
  assert (Hlog : Lint.calls p.2 = take 2 (Lint.calls p.2) ++ [Lint.CallLint Lint.RegExpLinter inputs])
    by (vm_compute; reflexivity).
  assert (Hfail : Lint.Lint env Lint.RegExpLinter inputs (Lint.skaffoldYamlRules env)
                  = Err "lint failed"%string) by reflexivity.
  split; [exact Hlog|]. split; [exact Hfail|].
  exact (linter_failure_aborts_run env p.1 p.2 _ [] Lint.RegExpLinter inputs _
           (surjective_pairing _) Hlog Hfail).
Defined.

(** *** C6: one extraction per Dockerfile path *)

Section FirstEncounters.
Lemma firstEncounters_paths known paths fp :
  fp ∈ (firstEncounters known paths).*2 <-> fp ∈ paths.*2 /\ fp ∉ known.
Proof.
  revert known; induction paths as [|[ws fp'] paths IH]; intros known; simpl.
  - split; [by intros ?%elem_of_nil|by intros [?%elem_of_nil _]].
  - rewrite elem_of_cons.
    destruct (decide (fp' ∈ known)) as [Hin|Hout]; simpl.
    + rewrite IH. split; [tauto|]. intros [[->|?] ?]; tauto.
    + rewrite elem_of_cons, IH, elem_of_union, elem_of_singleton.
      destruct (decide (fp = fp')) as [->|Hne]; tauto.
Qed.

Lemma firstEncounters_NoDup known paths : NoDup (firstEncounters known paths).*2.
Proof.
  revert known; induction paths as [|[ws fp] paths IH]; intros known; simpl.
  - constructor.
  - destruct (decide (fp ∈ known)); [apply IH|]. simpl. constructor; [|apply IH].
    rewrite firstEncounters_paths, elem_of_union, elem_of_singleton. tauto.
Qed.

(** One more artifact at the end: it is kept iff its path is new. *)
Lemma firstEncounters_snoc known paths ws fp :
  firstEncounters known (paths ++ [(ws, fp)]) =
  firstEncounters known paths ++
  (if decide (fp ∈ known \/ fp ∈ (firstEncounters known paths).*2) then [] else [(ws, fp)]).
Proof.
  revert known; induction paths as [|[ws' fp'] paths IH]; intros known; simpl.
  - destruct (decide (fp ∈ known)) as [H1|H1], (decide (fp ∈ known \/ fp ∈ [])) as [H2|H2];
      try done.
    + exfalso. apply H2. by left.
    + exfalso. destruct H2 as [?|H2]; [done|]. by apply elem_of_nil in H2.
  - destruct (decide (fp' ∈ known)) as [Hin|Hout]; [apply IH|].
    simpl. rewrite IH. f_equal.
    destruct (decide (fp ∈ known ∪ {[fp']} \/ _)) as [H1|H1], (decide (fp ∈ known \/ _)) as [H2|H2];
      try done; exfalso.
    + apply H2. rewrite elem_of_cons. rewrite elem_of_union, elem_of_singleton in H1. tauto.
    + apply H1. rewrite elem_of_cons in H2. rewrite elem_of_union, elem_of_singleton. tauto.
Qed.
End FirstEncounters.

Section ExtractionFacts.
Import Schema Lint.
Context {Result : Type}.
Variable env : Env Result.

#[local] Abbreviation locals := (@locals Result).

Lemma extractions_snoc_extraction cs ws fp :
  extractions (cs ++ [CallGetDependencies ws fp]) = extractions cs ++ [(ws, fp)].
Proof. unfold extractions. by rewrite omap_app. Qed.

Lemma extractions_snoc_other cs c :
  isExtraction c = false -> extractions (cs ++ [c]) = extractions cs.
Proof.
  intros Hc. unfold extractions. rewrite omap_app. destruct c; try done; by rewrite app_nil_r.
Qed.

Lemma sideTable_snoc paths p :
  sideTable env (paths ++ [p]) = recordDeps env (sideTable env paths) p.
Proof. unfold sideTable. by rewrite fold_left_app. Qed.

(** The second encounter of a path is a no-op. *)
Lemma extractArtifact_seen workdir a ws fp (s : locals) :
  artifactPath env workdir a = Some (ws, fp) ->
  is_Some (seen s !! fp) ->
  extractArtifact env workdir a s = (Ok tt, s).
Proof. intros Ha [b Hb]. rewrite extractArtifact_eq, Ha. by rewrite Hb. Qed.

Lemma consistent_extend (s s' : locals) ws fp :
  consistent env s -> seen s !! fp = None ->
  calls s' = calls s ++ [CallGetDependencies ws fp] ->
  seen s' = <[fp := true]> (seen s) ->
  dockerfileDepMap s' = recordDeps env (dockerfileDepMap s) (ws, fp) ->
  consistent env s'.
Proof.
  intros (Hnd & Hseen & Htab) Hnew Hcalls Hseen' Htab'.
  assert (Hfresh : fp ∉ (extractions (calls s)).*2).
  { intros Hin. apply Hseen in Hin as [b Hb]. congruence. }
  unfold consistent, seenIsExtracted in *.
  rewrite Hcalls, extractions_snoc_extraction, fmap_app, Hseen', Htab', sideTable_snoc, Htab.
  split; [|split; [|done]].
  - apply NoDup_app. split; [done|]. split; [|apply NoDup_singleton].
    intros x Hx ->%list_elem_of_singleton. done.
  - intros fp'. simpl. rewrite elem_of_app, list_elem_of_singleton, <- Hseen.
    destruct (decide (fp = fp')) as [->|Hne].
    + rewrite lookup_insert_eq. split; [by right|eauto].
    + rewrite lookup_insert_ne by done. split; [by left|]. intros [?|?]; [done|congruence].
Qed.

Lemma consistent_same (s s' : locals) c :
  consistent env s -> isExtraction c = false ->
  calls s' = calls s ++ [c] -> seen s' = seen s ->
  dockerfileDepMap s' = dockerfileDepMap s ->
  consistent env s'.
Proof.
  intros (Hnd & Hseen & Htab) Hc Hcalls Hseen' Htab'.
  unfold consistent, seenIsExtracted in *.
  by rewrite Hcalls, extractions_snoc_other, Hseen', Htab'.
Qed.

Lemma extractArtifact_consistent workdir a (s : locals) :
  consistent env s -> ends (consistent env) (fun _ => consistent env) (extractArtifact env workdir a s).
Proof.
  intros Hs. rewrite extractArtifact_eq.
  destruct (artifactPath env workdir a) as [[ws fp]|]; [|done].
  destruct (seen s !! fp) eqn:Es; [done|]. cbn zeta.
  destruct (getDockerfileFileDependencies env ws fp) as [deps|e] eqn:E; simpl;
    (eapply consistent_extend; [exact Hs|exact Es|done|done|]);
    unfold recordDeps; simpl; by rewrite E.
Qed.

Lemma runLinters_consistent skaffoldyaml c linters : forall results (s : locals),
  consistent env s ->
  ends (consistent env) (fun _ => consistent env) (runLinters env skaffoldyaml c linters results s).
Proof.
  induction linters as [|r linters IH]; intros results s Hs; [done|].
  rewrite runLinters_cons. cbn zeta.
  assert (Hs' : consistent env (logCall (CallLint r (lintInputs skaffoldyaml c s)) s))
    by (apply (consistent_same s _ (CallLint r (lintInputs skaffoldyaml c s))); done).
  destruct (Lint env r _ _) as [recs|e]; [by apply IH|done].
Qed.

Lemma lintConfig_consistent workdir c (s : locals) :
  consistent env s -> ends (consistent env) (fun _ => consistent env) (lintConfig env workdir c s).
Proof.
  intros Hs. rewrite lintConfig_eq. cbn zeta.
  assert (H0 : consistent env (logCall (CallReadFile (SourceFile c)) s))
    by (apply (consistent_same s _ (CallReadFile (SourceFile c))); done).
  destruct (ReadFile env (SourceFile c)) as [b|e]; [|done].
  pose proof (forEach_ends (fun _ => consistent env) (fun _ => consistent env)
                (extractArtifact env workdir) (Artifacts (Build c))
                (fun _ a _ s' _ Hs' => extractArtifact_consistent workdir a s' Hs') _ H0) as H1.
  destruct (forEach _ _ _) as [[[]|e] s1]; [|done]. simpl in H1.
  pose proof (runLinters_consistent (configFile workdir c b) c SkaffoldYamlLinters [] s1 H1) as H2.
  destruct (runLinters _ _ _ _ _ _) as [[results|e] s2]; [|done]. exact H2.
Qed.

Lemma init_consistent : consistent env init.
Proof.
  split; [constructor|]. split; [|done].
  intros fp. simpl. rewrite lookup_empty. split; [by intros [? ?]|set_solver].
Qed.

Lemma run_consistent res (s : locals) :
  GetSkaffoldYamlsLintResults env = (res, s) -> consistent env s.
Proof.
  unfold GetSkaffoldYamlsLintResults.
  destruct (getConfigSet env) as [cfgs|e]; [|intros [= <- <-]; apply init_consistent].
  destruct (realWorkDir env) as [workdir|e]; [|intros [= <- <-]; apply init_consistent].
  pose proof (forEach_ends (fun _ => consistent env) (fun _ => consistent env)
                (lintConfig env workdir) cfgs
                (fun _ c _ s' _ Hs' => lintConfig_consistent workdir c s' Hs')
                init init_consistent) as H.
  by destruct (forEach _ _ _) as [[[]|e] s1]; intros [= <- <-].
Qed.
End ExtractionFacts.

Section SuccessfulRun.
Import Schema Lint.
Context {Result : Type}.
Variable env : Env Result.
Variable workdir : string.

#[local] Abbreviation locals := (@locals Result).

Lemma extractArtifact_first paths prev a (s : locals) :
  extractedFirst env (paths ++ omap (artifactPath env workdir) prev) s ->
  ends (extractedFirst env (paths ++ omap (artifactPath env workdir) (prev ++ [a])))
       (fun _ _ => True)
       (extractArtifact env workdir a s).
Proof.
  intros [Hs Hx].
  pose proof (extractArtifact_consistent env workdir a s Hs) as Hc.
  rewrite extractArtifact_eq in *. rewrite omap_app. simpl.
  destruct Hs as (_ & Hseen & _).
  destruct (artifactPath env workdir a) as [[ws fp]|] eqn:Ea.
  - destruct (seen s !! fp) eqn:Es.
    + split; [done|]. rewrite app_assoc, firstEncounters_snoc, <- Hx.
      rewrite decide_True, app_nil_r; [done|].
      right. apply Hseen. by rewrite Es.
    + cbn zeta in *.
      destruct (getDockerfileFileDependencies env ws fp) as [deps|e]; [|done].
      split; [done|]. rewrite app_assoc, firstEncounters_snoc, <- Hx.
      simpl. rewrite extractions_snoc_extraction. rewrite decide_False; [done|].
      intros [Hin|Hin]; [by apply elem_of_empty in Hin|].
      apply Hseen in Hin as [? ?]. congruence.
  - rewrite !app_nil_r. by split.
Qed.

Lemma runLinters_extractions skaffoldyaml c linters : forall results (s : locals),
  extractions (calls (runLinters env skaffoldyaml c linters results s).2) = extractions (calls s).
Proof.
  induction linters as [|r linters IH]; intros results s; [done|].
  rewrite runLinters_cons. cbn zeta.
  destruct (Lint env r _ _) as [recs|e]; [rewrite IH|]; simpl;
    by rewrite extractions_snoc_other.
Qed.

Lemma artifactPaths_snoc cfgs c :
  artifactPaths env workdir (cfgs ++ [c]) =
  artifactPaths env workdir cfgs ++ omap (artifactPath env workdir) (Artifacts (Build c)).
Proof. unfold artifactPaths. rewrite flat_map_app. simpl. by rewrite app_nil_r. Qed.

Lemma lintConfig_first prev c (s : locals) :
  extractedFirst env (artifactPaths env workdir prev) s ->
  ends (extractedFirst env (artifactPaths env workdir (prev ++ [c]))) (fun _ _ => True)
       (lintConfig env workdir c s).
Proof.
  intros [Hs Hx].
  pose proof (lintConfig_consistent env workdir c s Hs) as Hc.
  rewrite lintConfig_eq in *. cbn zeta in *.
  destruct (ReadFile env (SourceFile c)) as [b|e]; [|done].
  assert (H0 : extractedFirst env (artifactPaths env workdir prev ++ omap (artifactPath env workdir) [])
                 (logCall (CallReadFile (SourceFile c)) s)).
  { simpl. rewrite app_nil_r. split.
    - apply (consistent_same env s _ (CallReadFile (SourceFile c))); done.
    - simpl. by rewrite extractions_snoc_other. }
  pose proof (forEach_ends
                (fun aprev => extractedFirst env (artifactPaths env workdir prev ++
                                              omap (artifactPath env workdir) aprev))
                (fun _ _ => True) (extractArtifact env workdir) (Artifacts (Build c))
                (fun aprev a _ s' _ Hs' => extractArtifact_first _ aprev a s' Hs') _ H0) as H1.
  destruct (forEach _ _ _) as [[[]|e] s1]; [|done]. simpl in H1. destruct H1 as [_ H1].
  pose proof (runLinters_extractions (configFile workdir c b) c SkaffoldYamlLinters [] s1) as H2.
  destruct (runLinters _ _ _ _ _ _) as [[results|e] s2]; [|done].
  split; [done|]. simpl in *. by rewrite H2, H1, artifactPaths_snoc.
Qed.

Lemma loop_first cfgs :
  ends (extractedFirst env (artifactPaths env workdir cfgs)) (fun _ _ => True)
       (forEach (lintConfig env workdir) cfgs init).
Proof.
  apply (forEach_ends (fun prev => extractedFirst env (artifactPaths env workdir prev))
           (fun _ _ => True) (lintConfig env workdir) cfgs
           (fun prev c _ s' _ Hs' => lintConfig_first prev c s' Hs')).
  split; [apply init_consistent|done].
Qed.
End SuccessfulRun.

(** C6. In every run each Dockerfile path is extracted at most once, the
    second encounter of a path leaves the locals unchanged, and the
    side-table is the table of the extractions made.  In a run that
    returns normally, the extractions are exactly the first encounters of
    the distinct Dockerfile paths of the configuration set, in discovery
    order (each distinct path is extracted exactly once), so that the
    side-table is the one built from the deduplicated artifact list. *)
Theorem extraction_once_per_dockerfile
    {Result : Type} (env : Lint.Env Result) (res : result (list Result)) (s : Lint.locals) :
  Lint.GetSkaffoldYamlsLintResults env = (res, s) ->
  NoDup (extractions (Lint.calls s)).*2 /\
  Lint.dockerfileDepMap s = sideTable env (extractions (Lint.calls s)) /\
  (forall workdir a ws fp (s0 : Lint.locals),
     artifactPath env workdir a = Some (ws, fp) ->
     is_Some (Lint.seen s0 !! fp) ->
     Lint.extractArtifact env workdir a s0 = (Ok tt, s0)) /\
  (forall results cfgs workdir,
     res = Ok results ->
     Lint.getConfigSet env = Ok cfgs ->
     Lint.realWorkDir env = Ok workdir ->
     let distinct := firstEncounters ∅ (artifactPaths env workdir cfgs) in
     extractions (Lint.calls s) = distinct /\
     Lint.dockerfileDepMap s = sideTable env distinct /\
     (forall fp, fp ∈ (artifactPaths env workdir cfgs).*2 ->
        List.length (filter (fun p => p.2 = fp) (extractions (Lint.calls s))) = 1%nat)).
Proof.
  intros Hrun. pose proof (run_consistent env res s Hrun) as (Hnd & Hseen & Htab).
  split; [done|]. split; [done|]. split; [apply extractArtifact_seen|].
  intros results cfgs workdir -> Hcfgs Hwd distinct.
  assert (Hx : extractions (Lint.calls s) = distinct).
  { unfold Lint.GetSkaffoldYamlsLintResults in Hrun. rewrite Hcfgs, Hwd in Hrun.
    pose proof (loop_first env workdir cfgs) as H.
    destruct (forEach _ _ _) as [[[]|e] s1]; [|done].
    injection Hrun as _ <-. apply H. }
  split; [done|]. split; [by rewrite <- Hx|].
  intros fp Hfp.
  assert (Hin : fp ∈ (extractions (Lint.calls s)).*2).
  { rewrite Hx. apply firstEncounters_paths. split; [done|]. apply not_elem_of_empty. }
  clear -Hnd Hin. induction (extractions (Lint.calls s)) as [|[ws fp'] ps IH]; simpl in *.
  - by apply elem_of_nil in Hin.
  - apply NoDup_cons in Hnd as [Hfresh Hnd]. rewrite filter_cons. simpl.
    destruct (decide (fp' = fp)) as [->|Hne]; simpl.
    + f_equal. clear IH Hin Hnd. induction ps as [|[ws' fp''] ps IH]; [done|].
      rewrite filter_cons. simpl in *. apply not_elem_of_cons in Hfresh as [Hne Hfresh].
      rewrite decide_False by (intros ?; by apply Hne). by apply IH.
    + apply IH; [done|]. apply elem_of_cons in Hin as [?|?]; [congruence|done].
Qed.

(** C6 on the sample run: two units, three Docker artifacts, two distinct
    Dockerfile paths. *)
Lemma extraction_once_per_dockerfile_witness :
  let env := Samples.healthyEnv in
  let p := Lint.GetSkaffoldYamlsLintResults env in
  let distinct := [("/w/a", "/w/a/Dockerfile"); ("/w/b", "/w/b/Dockerfile")]%string in
  artifactPaths env "/w" [Samples.unitA; Samples.unitB] =
    [("/w/a", "/w/a/Dockerfile"); ("/w/b", "/w/b/Dockerfile"); ("/w/a", "/w/a/Dockerfile")]%string /\
  NoDup (extractions (Lint.calls p.2)).*2 /\
  extractions (Lint.calls p.2) = distinct /\
  Lint.dockerfileDepMap p.2 = sideTable env distinct /\
  List.length (filter (fun q => q.2 = "/w/a/Dockerfile"%string) (extractions (Lint.calls p.2))) = 1%nat.
Proof.
  intros env p distinct.
  destruct (extraction_once_per_dockerfile env p.1 p.2 (surjective_pairing _))
    as (Hnd & _ & _ & Hok).
  destruct (Hok _ [Samples.unitA; Samples.unitB] "/w"%string
              (ltac:(vm_compute; reflexivity) : p.1 = Ok _) eq_refl eq_refl)
    as (Hx & Htab & Hone).
  split; [vm_compute; reflexivity|]. split; [exact Hnd|].
  split; [rewrite Hx; vm_compute; reflexivity|].
  split; [rewrite Htab; vm_compute; reflexivity|].
  apply Hone. vm_compute. apply list_elem_of_here.
Defined.

(** ** The conditions of the rule catalog *)

Section ConditionFacts.
Import Lint.
Context {Result : Type}.
Variable env : Env Result.

Lemma hasPythonDependency_spec inputs :
  hasPythonDependency inputs = true <->
  exists fp deps dep,
    DockerfileToDepMap inputs !! fp = Some deps /\ In dep deps /\
    GoStrings.HasSuffix dep ".py" = true.
Proof.
  unfold hasPythonDependency. rewrite existsb_exists. split.
  - intros ([fp deps] & Hin & Hdeps). simpl in Hdeps.
    apply existsb_exists in Hdeps as (dep & Hdep & Hpy).
    exists fp, deps, dep. split; [|done].
    apply elem_of_map_to_list. by apply list_elem_of_In.
  - intros (fp & deps & dep & Hfp & Hdep & Hpy). exists (fp, deps). split.
    + apply list_elem_of_In. by apply elem_of_map_to_list.
    + simpl. apply existsb_exists. eauto.
Qed.

(** The conditions of the catalog are the two conditions of the sync rule. *)
Lemma catalog_conditions r cond :
  In r (skaffoldYamlRules env) -> In cond (LintConditions r) ->
  cond = noSyncStanza env \/ cond = hasPythonDependency.
Proof.
  intros [<-|[<-|[<-|[]]]]; simpl; try done.
  intros [<-|[<-|[]]]; auto.
Qed.
End ConditionFacts.

(** C8. Whenever the nested [Lint] call of the sync rule fails, the nested-
    lint condition returns [false]; the catalog has no other condition that
    can fail (its only other condition reads the side-table and returns
    whether some dependency ends in [.py]); every condition returns a
    boolean, never an error, and the conjunction of the conditions of the
    sync rule is then false, so that the rule does not fire. *)
Theorem conditions_fail_closed
    {Result : Type} (env : Lint.Env Result) (inputs : Lint.LintInputs) (e : error) :
  Lint.Lint env Lint.YamlFieldLinter inputs Lint.noSyncStanzaRules = Err e ->
  Lint.noSyncStanza env inputs = false /\
  (forall r cond,
     In r (Lint.skaffoldYamlRules env) -> In cond (Lint.LintConditions r) ->
     (cond = Lint.noSyncStanza env /\ cond inputs = false) \/
     (cond = Lint.hasPythonDependency /\
      (cond inputs = true <->
       exists fp deps dep,
         Lint.DockerfileToDepMap inputs !! fp = Some deps /\ In dep deps /\
         GoStrings.HasSuffix dep ".py" = true))) /\
  (forall r,
     In r (Lint.skaffoldYamlRules env) ->
     Lint.RuleID_ r = Some Lint.SkaffoldYamlSyncPython ->
     forallb (fun cond => cond inputs) (Lint.LintConditions r) = false).
Proof.
  intros Hfail.
  assert (Hno : Lint.noSyncStanza env inputs = false).
  { unfold Lint.noSyncStanza. by rewrite Hfail. }
  split; [done|]. split.
  - intros r cond Hr Hcond.
    destruct (catalog_conditions env r cond Hr Hcond) as [->| ->]; [by left|right].
    split; [done|]. apply hasPythonDependency_spec.
  - intros r [<-|[<-|[<-|[]]]]; simpl; try done. intros _. by rewrite Hno.
Qed.

(** C8 on a sample environment whose field linter fails on every input. *)
Lemma conditions_fail_closed_witness :
  let env := Samples.brokenFieldLinterEnv in
  let inputs := Samples.sampleInputs in
  Lint.Lint env Lint.YamlFieldLinter inputs Lint.noSyncStanzaRules = Err "lint failed"%string /\
  Lint.noSyncStanza env inputs = false /\
  Lint.hasPythonDependency inputs = true /\
  (forall r,
     In r (Lint.skaffoldYamlRules env) ->
     Lint.RuleID_ r = Some Lint.SkaffoldYamlSyncPython ->
     forallb (fun cond => cond inputs) (Lint.LintConditions r) = false).
Proof.
  intros env inputs.
  assert (Hfail : Lint.Lint env Lint.YamlFieldLinter inputs Lint.noSyncStanzaRules
                  = Err "lint failed"%string) by reflexivity.
  destruct (conditions_fail_closed env inputs _ Hfail) as (Hno & _ & Hgate).
  split; [exact Hfail|]. split; [exact Hno|]. split; [vm_compute; reflexivity|exact Hgate].
Defined.

(* ===================================================================== *)
(** * Part III: further properties of the two packages                    *)
(* ===================================================================== *)

(** ** From the matcher to the synthesizer *)

(** The offsets the matcher computes on ASCII text are the bounds the
    synthesizer slices at. *)
Lemma emitted_splits_text (env : Inspect.Env) (d : Dockerfile) (rec r : Recommendation) :
  In r (emitted env d rec) ->
  GoStrings.isASCII (Text d) = true ->
  GoStrings.isASCII (ConfigTemplate (FlaggedConfig rec)) = true ->
  (GoStrings.len (Text d) <= GoInt.MaxInt)%Z ->
  ConfigTemplate (FlaggedConfig r) = ConfigTemplate (FlaggedConfig rec) /\
  Path (FlaggedConfig r) = AbsPath d /\
  exists before flaggedBytes after : string,
    Text d = (before ++ flaggedBytes ++ after)%string /\
    TextStartIndex (FlaggedConfig r) = GoStrings.len before /\
    TextEndIndex (FlaggedConfig r) = GoStrings.len (before ++ flaggedBytes)%string /\
    GoStrings.mapBytes GoStrings.upperByte flaggedBytes =
      GoStrings.mapBytes GoStrings.upperByte (ConfigTemplate (FlaggedConfig r)) /\
    Inspect.generateRecommendationDiff env d r =
      Some (IndexLine.ReplaceAllString
              (Inspect.writerDiff env {| diff.SrcPrefix := ""; diff.DstPrefix := "" |}
                 {| diff.ReadSeeker := Text d; diff.Path := (RelPath d ++ ".orig")%string |}
                 {| diff.ReadSeeker :=
                      (before ++ ConfigTemplate (RecommendedConfig r) ++ after)%string;
                    diff.Path := RelPath d |})).
Proof.
  intros Hr Htext Ht Hfits.
  apply emitted_inv in Hr as [-> [Hocc _]]. split; [done|]. split; [done|]. simpl.
  set (t := ConfigTemplate (FlaggedConfig rec)) in *.
  unfold Inspect.ToUpper in Hocc. rewrite !ToUpper_ascii in Hocc by done.
  unfold Inspect.ToUpper. rewrite !ToUpper_ascii by done.
  apply occursAt_upper_split in Hocc as (n & Hidx & Hn & Hfl). rewrite Hidx.
  set (text := Text d) in *.
  assert (Hend : GoInt.add (Z.of_nat n) (GoStrings.len t) = Z.of_nat (n + String.length t)).
  { unfold GoInt.add. rewrite wrap_small; unfold GoStrings.len, GoInt.MinInt in *; lia. }
  exists (GoStrings.take n text), (GoStrings.take (String.length t) (GoStrings.drop n text)),
    (GoStrings.drop (n + String.length t) text).
  assert (Hb : String.length (GoStrings.take n text) = n) by (apply length_take_le; lia).
  assert (Hf : String.length (GoStrings.take (String.length t) (GoStrings.drop n text))
               = String.length t).
  { rewrite <- (length_mapBytes GoStrings.upperByte), Hfl. apply length_mapBytes. }
  split; [by rewrite <- drop_drop, !take_drop|].
  split; [unfold GoStrings.len; by rewrite Hb|].
  split; [rewrite Hend; unfold GoStrings.len; rewrite length_app, Hb, Hf; done|].
  split; [done|].
  unfold Inspect.generateRecommendationDiff, Inspect.flagged.
  cbn [TextStartIndex TextEndIndex FlaggedConfig RecommendedConfig ConfigTemplate].
  fold t text. rewrite Hend.
  rewrite (sliceTo_inRange text (Z.of_nat n)), (sliceFrom_inRange text (Z.of_nat (n + String.length t)));
    [by rewrite !Nat2Z.id| |]; unfold inRange, GoStrings.len; lia.
Qed.

(** X1. On an all-ASCII Dockerfile whose length fits an [int], every
    recommendation that [SuggestRecsViaStringEquals] emits for an all-ASCII
    template can be handed to [generateRecommendationDiff] with the same
    Dockerfile: the two offsets cut the text into the bytes before, the
    flagged bytes (equal to the template up to the case of letters) and the
    bytes after, the call does not panic, and the buffer compared with the
    original is the text with exactly the flagged bytes replaced by
    [RecommendedConfig.ConfigTemplate]. *)
Theorem matcher_offsets_fit_the_synthesizer
    (env : Inspect.Env) (rc recs : list Recommendation) (d : Dockerfile) (r : Recommendation) :
  Inspect.SuggestRecsViaStringEquals env rc d = Ok recs ->
  In r recs ->
  GoStrings.isASCII (Text d) = true ->
  GoStrings.isASCII (ConfigTemplate (FlaggedConfig r)) = true ->
  (GoStrings.len (Text d) <= GoInt.MaxInt)%Z ->
  exists before flaggedBytes after : string,
    Text d = (before ++ flaggedBytes ++ after)%string /\
    TextStartIndex (FlaggedConfig r) = GoStrings.len before /\
    TextEndIndex (FlaggedConfig r) = GoStrings.len (before ++ flaggedBytes)%string /\
    GoStrings.mapBytes GoStrings.upperByte flaggedBytes =
      GoStrings.mapBytes GoStrings.upperByte (ConfigTemplate (FlaggedConfig r)) /\
    Inspect.generateRecommendationDiff env d r =
      Some (IndexLine.ReplaceAllString
              (Inspect.writerDiff env {| diff.SrcPrefix := ""; diff.DstPrefix := "" |}
                 {| diff.ReadSeeker := Text d; diff.Path := (RelPath d ++ ".orig")%string |}
                 {| diff.ReadSeeker :=
                      (before ++ ConfigTemplate (RecommendedConfig r) ++ after)%string;
                    diff.Path := RelPath d |})).
Proof.
  intros Hrun Hr Htext Ht Hfits.
  rewrite SuggestRecsViaStringEquals_flat_map in Hrun.
  assert (recs = flat_map (emitted env d) rc) as -> by congruence.
  apply in_flat_map in Hr as (rec & _ & Hr).
  assert (Hsame : ConfigTemplate (FlaggedConfig r) = ConfigTemplate (FlaggedConfig rec))
    by (by apply emitted_inv in Hr as [-> _]).
  rewrite Hsame in Ht.
  by destruct (emitted_splits_text env d rec r Hr Htext Ht Hfits) as (_ & _ & H).
Qed.

(** X1 on the scenario Dockerfile and the scenario rule. *)
Lemma matcher_offsets_fit_the_synthesizer_witness :
  let d := Samples.copyAllDockerfile in
  Inspect.SuggestRecsViaStringEquals Samples.inspectEnv Samples.copySrcRule d
    = Ok [scenarioRecommendation] /\
  GoStrings.isASCII (Text d) = true /\
  (GoStrings.len (Text d) <= GoInt.MaxInt)%Z /\
  exists before flaggedBytes after : string,
    Text d = (before ++ flaggedBytes ++ after)%string /\
    GoStrings.len before = 7%Z /\
    GoStrings.len (before ++ flaggedBytes)%string = 15%Z /\
    GoStrings.mapBytes GoStrings.upperByte flaggedBytes = "COPY . ."%string /\
    exists out, Inspect.generateRecommendationDiff Samples.inspectEnv d scenarioRecommendation
                = Some out.
Proof.
  intros d.
  assert (Hrun : Inspect.SuggestRecsViaStringEquals Samples.inspectEnv Samples.copySrcRule d
                 = Ok [scenarioRecommendation]) by (vm_compute; reflexivity).
  assert (Htext : GoStrings.isASCII (Text d) = true) by (vm_compute; reflexivity).
  assert (Hfits : (GoStrings.len (Text d) <= GoInt.MaxInt)%Z) by (vm_compute; discriminate).
  split; [exact Hrun|]. split; [exact Htext|]. split; [exact Hfits|].
  destruct (matcher_offsets_fit_the_synthesizer Samples.inspectEnv Samples.copySrcRule
              [scenarioRecommendation] d scenarioRecommendation Hrun
              (or_introl eq_refl) Htext eq_refl Hfits)
    as (before & fl & after & Hsplit & Hstart & Hend & Hfl & Hdiff).
  exists before, fl, after.
  split; [exact Hsplit|]. split; [by rewrite <- Hstart|]. split; [by rewrite <- Hend|].
  split; [exact Hfl|eexists; exact Hdiff].
Defined.

(** ** The index-line filter *)

Section StripFacts.
Import IndexLine GoStrings.
Local Open Scope string_scope.

Lemma newlineRun_index s : forall b r,
  newlineRun b s = (true, r) -> HasPrefix r "index" = true ->
  (b = true /\ r = s) \/ noIndexAfterLF s = false.
Proof.
  induction s as [|c s IH]; intros b r; cbn [newlineRun].
  - intros [= -> <-] _. by left.
  - destruct (Ascii.eqb_spec c LF) as [->|Hlf].
    + intros Hrun P. right. cbn [noIndexAfterLF]. change (Ascii.eqb LF LF) with true. cbn iota.
      destruct (IH true r Hrun P) as [[_ ->]|Hs]; [by rewrite P|by rewrite Hs, andb_false_r].
    + destruct (Ascii.eqb_spec c CR) as [->|Hcr].
      * intros Hrun P. right. cbn [noIndexAfterLF].
        destruct (IH false r Hrun P) as [[? _]|Hs]; [done|by rewrite Hs, andb_false_r].
      * intros [= -> <-] _. by left.
Qed.

(** A match needs a line that begins with [index] after a LF. *)
Lemma matchAt_needs_index_line s rest : matchAt s = Some rest -> noIndexAfterLF s = false.
Proof.
  unfold matchAt. destruct (newlineRun false s) as [b r] eqn:E.
  destruct b; cbn [andb]; [|done].
  destruct (HasPrefix r "index") eqn:P; [|done]. intros _.
  by destruct (newlineRun_index s false r E P) as [[? _]|?].
Qed.

(** Text without such a line is left as it is. *)
Lemma ReplaceAllString_clean s : noIndexAfterLF s = true -> ReplaceAllString s = s.
Proof.
  induction s as [|c s IH]; intros Hs; rewrite ReplaceAllString_eq.
  - done.
  - destruct (matchAt (String c s)) as [rest|] eqn:E.
    + apply matchAt_needs_index_line in E. congruence.
    + cbn [noIndexAfterLF] in Hs. apply andb_true_iff in Hs as [_ Hs]. by rewrite IH.
Qed.
End StripFacts.

(** X2. The text [generateRecommendationDiff] returns is a fixed point of
    its regular-expression filter: replacing the [index] lines once more
    changes nothing.  The filter removes nothing else: backend output in
    which no line after a newline begins with [index] is returned byte for
    byte. *)
Theorem stripped_diff_is_stable
    (env : Inspect.Env) (d : Dockerfile) (r : Recommendation) (out : string) :
  Inspect.generateRecommendationDiff env d r = Some out ->
  IndexLine.ReplaceAllString out = out /\
  (forall raw, noIndexAfterLF raw = true -> IndexLine.ReplaceAllString raw = raw) /\
  (forall raw, IndexLine.ReplaceAllString (IndexLine.ReplaceAllString raw)
               = IndexLine.ReplaceAllString raw).
Proof.
  intros Hout. split; [|split].
  - unfold Inspect.generateRecommendationDiff in Hout.
    destruct (GoStrings.sliceTo _ _); [|done]. destruct (GoStrings.sliceFrom _ _); [|done].
    injection Hout as <-. apply ReplaceAllString_clean, ReplaceAllString_noIndexAfterLF.
  - apply ReplaceAllString_clean.
  - intros raw. apply ReplaceAllString_clean, ReplaceAllString_noIndexAfterLF.
Qed.

(** X2 on the diff of the scenario. *)
Lemma stripped_diff_is_stable_witness :
  exists out,
    Inspect.generateRecommendationDiff Samples.inspectEnv Samples.copyAllDockerfile
      scenarioRecommendation = Some out /\
    IndexLine.ReplaceAllString out = out /\
    out <> Samples.gitStyleDiff {| diff.SrcPrefix := ""; diff.DstPrefix := "" |}
             {| diff.ReadSeeker := Samples.copyAllText; diff.Path := "app/Dockerfile.orig" |}
             {| diff.ReadSeeker := ("FROM x" ++ Samples.nl ++ "Copy $SRC ." ++ Samples.nl)%string;
                diff.Path := "app/Dockerfile" |}.
Proof.
  destruct (Inspect.generateRecommendationDiff Samples.inspectEnv Samples.copyAllDockerfile
              scenarioRecommendation) as [out|] eqn:E; [|vm_compute in E; discriminate].
  exists out. split; [reflexivity|].
  split; [exact (proj1 (stripped_diff_is_stable _ _ _ out E))|].
  vm_compute in E. injection E as <-. vm_compute. discriminate.
Defined.

(** ** Edge cases of the matcher *)

Section EmptyTemplate.
Import GoStrings.

Lemma ToUpper_empty unicodeUpper : ToUpper unicodeUpper "" = ""%string.
Proof. reflexivity. Qed.

Lemma Index_empty s : Index s "" = 0%Z.
Proof. by destruct s. Qed.
End EmptyTemplate.

(** X3. A catalog entry whose flagged template is empty matches every
    Dockerfile, the empty one included: it is emitted with
    [TextStartIndex == TextEndIndex == 0], and its diff never panics and
    compares the text with the replacement put in front of it. *)
Theorem empty_template_flags_offset_zero
    (env : Inspect.Env) (rc : list Recommendation) (d : Dockerfile) (rec : Recommendation) :
  In rec rc ->
  ConfigTemplate (FlaggedConfig rec) = ""%string ->
  exists recs r,
    Inspect.SuggestRecsViaStringEquals env rc d = Ok recs /\ In r recs /\
    r = Inspect.flagged d 0 rec /\
    TextStartIndex (FlaggedConfig r) = 0%Z /\ TextEndIndex (FlaggedConfig r) = 0%Z /\
    Inspect.generateRecommendationDiff env d r =
      Some (IndexLine.ReplaceAllString
              (Inspect.writerDiff env {| diff.SrcPrefix := ""; diff.DstPrefix := "" |}
                 {| diff.ReadSeeker := Text d; diff.Path := (RelPath d ++ ".orig")%string |}
                 {| diff.ReadSeeker := (ConfigTemplate (RecommendedConfig rec) ++ Text d)%string;
                    diff.Path := RelPath d |})).
Proof.
  intros Hin Ht.
  assert (He : emitted env d rec = [Inspect.flagged d 0 rec]).
  { unfold emitted, Inspect.ToUpper. by rewrite Ht, ToUpper_empty, Index_empty. }
  exists (flat_map (emitted env d) rc), (Inspect.flagged d 0 rec).
  split; [apply SuggestRecsViaStringEquals_flat_map|].
  split; [apply in_flat_map; exists rec; split; [done|]; rewrite He; by left|].
  split; [done|]. unfold Inspect.flagged. cbn [TextStartIndex TextEndIndex FlaggedConfig].
  rewrite Ht. split; [done|]. split; [done|].
  unfold Inspect.generateRecommendationDiff.
  cbn [TextStartIndex TextEndIndex FlaggedConfig RecommendedConfig ConfigTemplate].
  change (GoInt.add 0 (GoStrings.len "")) with 0%Z.
  rewrite (sliceTo_inRange (Text d) 0), (sliceFrom_inRange (Text d) 0);
    [done| |]; (split; [done|apply len_nonneg]).
Qed.

(** X3 on a one-entry catalog with an empty template and an empty Dockerfile. *)
Lemma empty_template_flags_offset_zero_witness :
  let rec := {| FlaggedConfig := Inspect.configOpt "" Replace "";
                RecommendedConfig := Inspect.configOpt "FROM scratch" Add "" |} in
  let d := {| AbsPath := "/w/Dockerfile"; RelPath := "Dockerfile"; Text := "" |} in
  In rec [rec] /\
  exists recs r,
    Inspect.SuggestRecsViaStringEquals Samples.inspectEnv [rec] d = Ok recs /\ In r recs /\
    TextStartIndex (FlaggedConfig r) = 0%Z /\ TextEndIndex (FlaggedConfig r) = 0%Z /\
    exists out, Inspect.generateRecommendationDiff Samples.inspectEnv d r = Some out.
Proof.
  intros rec d. split; [by left|].
  destruct (empty_template_flags_offset_zero Samples.inspectEnv [rec] d rec
              (or_introl eq_refl) eq_refl)
    as (recs & r & Hrun & Hr & _ & Hs & He & Hd).
  exists recs, r. repeat (split; [assumption|]). eexists. exact Hd.
Defined.

(** ** The driver [PrintDockerfilesList] *)

Section DriverFacts.
Import Schema Inspect.
Local Open Scope string_scope.
Variable env : Env.

Lemma printDiffs_bounded ds recs : forall i, (i <= List.length ds)%nat ->
  (List.length (fst (printDiffs env ds i recs)) <= List.length ds - i)%nat /\
  ((List.length ds - i < List.length recs)%nat -> snd (printDiffs env ds i recs) = Panic).
Proof.
  induction recs as [|r recs IH]; intros i Hi; cbn [printDiffs].
  - cbn. split; lia.
  - destruct (ds !! i) as [d|] eqn:Ed; [|cbn; split; [lia|done]].
    apply lookup_lt_Some in Ed.
    destruct (generateRecommendationDiff env d r); [|cbn; split; [lia|done]].
    destruct (IH (S i) ltac:(lia)) as [Hlen Hpanic].
    destruct (printDiffs env ds (S i) recs) as [printed o]. cbn in *.
    split; [lia|]. intros ?. apply Hpanic. lia.
Qed.

(** Where the print loop panics: at the first recommendation whose
    Dockerfile is missing, or whose diff panics. *)
Lemma printDiffs_panic_point ds recs : forall i printed,
  printDiffs env ds i recs = (printed, Panic) ->
  exists r, recs !! List.length printed = Some r /\
    (ds !! (i + List.length printed)%nat = None \/
     exists d, ds !! (i + List.length printed)%nat = Some d /\
               generateRecommendationDiff env d r = None).
Proof.
  induction recs as [|r recs IH]; intros i printed; cbn [printDiffs]; [done|].
  destruct (ds !! i) as [d|] eqn:Ed.
  - destruct (generateRecommendationDiff env d r) as [text|] eqn:Et.
    + destruct (printDiffs env ds (S i) recs) as [printed' o] eqn:Ep.
      intros [= <- ->]. destruct (IH _ _ Ep) as (r' & Hr' & Hpoint).
      exists r'. cbn [List.length]. split; [done|]. by rewrite Nat.add_succ_r.
    + intros [= <-]. exists r. cbn [List.length]. rewrite Nat.add_0_r.
      split; [done|]. right. by exists d.
  - intros [= <-]. exists r. cbn [List.length]. rewrite Nat.add_0_r. split; [done|]. by left.
Qed.

Lemma inspectArtifact_failedRead workdir a s :
  ends (fun _ => True) (failedRead env) (inspectArtifact env workdir a s).
Proof.
  unfold inspectArtifact. destruct (DockerArtifact_ a) as [da|]; [|done].
  unfold bind, get, modify, try, ret.
  destruct (seen s !! _); [done|].
  destruct (ReadFile env _) as [b|e] eqn:Er.
  - by rewrite getDockerfileRecommendations_eq.
  - cbn. eexists. split; [exact Er|]. cbn. by rewrite lookup_insert_eq.
Qed.

Lemma collectRecommendations_failedRead workdir cfgs s :
  ends (fun _ => True) (failedRead env) (collectRecommendations env workdir cfgs s).
Proof.
  unfold collectRecommendations.
  apply (forEach_ends (fun _ _ => True) (failedRead env)); [|done].
  intros _ c _ s0 _ _.
  apply (forEach_ends (fun _ _ => True) (failedRead env)); [|done].
  intros _ a _ s1 _ _. apply inspectArtifact_failedRead.
Qed.

Lemma inspectArtifact_faithful workdir a s r s' :
  collectedFaithful env s -> inspectArtifact env workdir a s = (r, s') ->
  collectedFaithful env s'.
Proof.
  unfold inspectArtifact. intros [Hd Hr].
  destruct (DockerArtifact_ a) as [da|]; [|by intros [= _ <-]].
  unfold bind, get, modify, try, ret.
  destruct (seen s !! _); [by intros [= _ <-]|].
  destruct (ReadFile env _) as [b|e] eqn:Er; [|by intros [= _ <-]].
  rewrite getDockerfileRecommendations_eq.
  set (d := {| AbsPath := _ |}). remember (flat_map (emitted env d) StringEqualsRecs) as recs.
  intros [= _ <-]. subst recs.
  split; cbn [l Dockerfiles DockerfileRecs collect markSeen].
  - apply Forall_app. split; [done|]. by repeat constructor.
  - apply Forall_app. split.
    + eapply Forall_impl; [exact Hr|]. intros r0 (d0 & Hin & Hrest).
      exists d0. split; [|done]. apply in_or_app. by left.
    + apply Forall_forall. intros r0 Hr0%list_elem_of_In.
      eexists. split; [apply in_or_app; right; by left|]. split; [done|].
      apply in_flat_map in Hr0 as (rec & _ & Hr0). by apply emitted_inv in Hr0 as [-> _].
Qed.

Lemma collectRecommendations_faithful workdir cfgs r s :
  collectRecommendations env workdir cfgs init = (r, s) -> collectedFaithful env s.
Proof.
  unfold collectRecommendations. intros Hrun.
  apply (forEach_invariant (collectedFaithful env) _ _) with (s := init) (r := r) (s' := s)
    in Hrun; [done| |by split; constructor].
  intros c s0 r0 s1 _ Hs0 Hc.
  apply (forEach_invariant (collectedFaithful env) _ _) with (s := s0) (r := r0) (s' := s1)
    in Hc; [done| |done].
  intros a s2 r2 s3 _. apply inspectArtifact_faithful.
Qed.
End DriverFacts.

(** X4. [PrintDockerfilesList] indexes [l.Dockerfiles] with the index of the
    recommendation: it never prints more diffs than Dockerfiles were
    collected, and when the collected recommendations outnumber the collected
    Dockerfiles the print loop ends in a panic.  The panic is raised at the
    first recommendation that was not printed: either every Dockerfile has
    had a diff printed and [l.Dockerfiles[i]] is out of range, or the
    Dockerfile at that index exists and a slice expression of
    [generateRecommendationDiff] is out of bounds on it. *)
Theorem print_loop_panics_when_recs_outnumber_dockerfiles
    (env : Inspect.Env) (cfgs : list Schema.SkaffoldConfig) (workdir : string)
    (s : Inspect.locals) :
  Inspect.GetConfigSet env = Ok cfgs ->
  Inspect.RealWorkDir env = Ok workdir ->
  Inspect.collectRecommendations env workdir cfgs Inspect.init = (Ok tt, s) ->
  let printed := fst (Inspect.PrintDockerfilesList env) in
  (List.length printed <= List.length (Dockerfiles (Inspect.l s)))%nat /\
  ((List.length (Dockerfiles (Inspect.l s)) < List.length (DockerfileRecs (Inspect.l s)))%nat ->
   snd (Inspect.PrintDockerfilesList env) = Panic /\
   exists r,
     DockerfileRecs (Inspect.l s) !! List.length printed = Some r /\
     (List.length printed = List.length (Dockerfiles (Inspect.l s)) /\
      Dockerfiles (Inspect.l s) !! List.length printed = None
      \/
      exists d, Dockerfiles (Inspect.l s) !! List.length printed = Some d /\
                Inspect.generateRecommendationDiff env d r = None)).
Proof.
  intros Hc Hw Hrun. cbn zeta. unfold Inspect.PrintDockerfilesList. rewrite Hc, Hw, Hrun.
  destruct (printDiffs_bounded env (Dockerfiles (Inspect.l s)) (DockerfileRecs (Inspect.l s)) 0
              ltac:(lia)) as [Hlen Hpanic].
  split; [lia|]. intros Hmore.
  assert (Ho : snd (Inspect.printDiffs env (Dockerfiles (Inspect.l s)) 0
                      (DockerfileRecs (Inspect.l s))) = Panic) by (apply Hpanic; lia).
  split; [done|].
  destruct (Inspect.printDiffs env (Dockerfiles (Inspect.l s)) 0 (DockerfileRecs (Inspect.l s)))
    as [printed o] eqn:Ep.
  cbn [fst snd] in *. subst o.
  destruct (printDiffs_panic_point env _ _ _ _ Ep) as (r & Hr & Hpoint).
  exists r. split; [done|]. cbn [Nat.add] in Hpoint.
  destruct Hpoint as [Hnone|Hslice]; [left|by right].
  split; [|done]. apply lookup_ge_None in Hnone. lia.
Qed.

(** X4 on one Dockerfile that holds both catalog phrases: one diff is
    printed, then [l.Dockerfiles[1]] is out of range. *)
Lemma print_loop_panics_when_recs_outnumber_dockerfiles_witness :
  exists s,
    Inspect.collectRecommendations MoreSamples.bothPhrasesEnv "/w" MoreSamples.oneDockerfile
      Inspect.init = (Ok tt, s) /\
    List.length (Dockerfiles (Inspect.l s)) = 1%nat /\
    List.length (DockerfileRecs (Inspect.l s)) = 2%nat /\
    List.length (fst (Inspect.PrintDockerfilesList MoreSamples.bothPhrasesEnv)) = 1%nat /\
    snd (Inspect.PrintDockerfilesList MoreSamples.bothPhrasesEnv) = Panic /\
    Dockerfiles (Inspect.l s) !! 1%nat = None.
Proof.
  destruct (Inspect.collectRecommendations MoreSamples.bothPhrasesEnv "/w"
              MoreSamples.oneDockerfile Inspect.init) as [r s] eqn:E.
  assert (Hr : r = Ok tt) by (apply (f_equal fst) in E; vm_compute in E; congruence).
  subst r. exists s.
  pose proof (f_equal snd E) as Es. cbn [snd] in Es.
  assert (Hd : List.length (Dockerfiles (Inspect.l s)) = 1%nat)
    by (rewrite <- Es; vm_compute; reflexivity).
  assert (Hn : List.length (DockerfileRecs (Inspect.l s)) = 2%nat)
    by (rewrite <- Es; vm_compute; reflexivity).
  assert (Hp : List.length (fst (Inspect.PrintDockerfilesList MoreSamples.bothPhrasesEnv)) = 1%nat)
    by (vm_compute; reflexivity).
  split; [reflexivity|]. split; [exact Hd|]. split; [exact Hn|]. split; [exact Hp|].
  destruct (print_loop_panics_when_recs_outnumber_dockerfiles MoreSamples.bothPhrasesEnv
              MoreSamples.oneDockerfile "/w" s eq_refl eq_refl E) as [_ Hpanic].
  destruct Hpanic as (Ho & r & _ & Hpoint); [rewrite Hd, Hn; lia|].
  split; [exact Ho|]. rewrite Hp in Hpoint.
  destruct Hpoint as [[_ Hnone]|(d & Hsome & _)]; [exact Hnone|].
  apply lookup_lt_Some in Hsome. rewrite Hd in Hsome. lia.
Defined.

(** X5. The matchers never fail, so a run of [PrintDockerfilesList] whose
    collection loops end with an error ends with the error of a
    [ReadFile] of a Dockerfile path the run had just marked as seen; the
    error is returned as it is and nothing is printed. *)
Theorem collection_error_is_a_read_error
    (env : Inspect.Env) (cfgs : list Schema.SkaffoldConfig) (workdir : string)
    (e : error) (s : Inspect.locals) :
  Inspect.GetConfigSet env = Ok cfgs ->
  Inspect.RealWorkDir env = Ok workdir ->
  Inspect.collectRecommendations env workdir cfgs Inspect.init = (Err e, s) ->
  Inspect.PrintDockerfilesList env = ([], Return (Some e)) /\
  failedRead env e s.
Proof.
  intros Hc Hw Hrun. split.
  - unfold Inspect.PrintDockerfilesList. by rewrite Hc, Hw, Hrun.
  - pose proof (collectRecommendations_failedRead env workdir cfgs Inspect.init) as H.
    by rewrite Hrun in H.
Qed.

(** X5 on a file system that refuses every read. *)
Lemma collection_error_is_a_read_error_witness :
  exists s,
    Inspect.collectRecommendations MoreSamples.unreadableEnv "/w" MoreSamples.oneDockerfile
      Inspect.init = (Err "permission denied"%string, s) /\
    Inspect.PrintDockerfilesList MoreSamples.unreadableEnv
      = ([], Return (Some "permission denied"%string)) /\
    failedRead MoreSamples.unreadableEnv "permission denied"%string s.
Proof.
  destruct (Inspect.collectRecommendations MoreSamples.unreadableEnv "/w"
              MoreSamples.oneDockerfile Inspect.init) as [r s] eqn:E.
  assert (Hr : r = Err "permission denied"%string)
    by (apply (f_equal fst) in E; vm_compute in E; congruence).
  subst r. exists s. split; [reflexivity|].
  exact (collection_error_is_a_read_error MoreSamples.unreadableEnv MoreSamples.oneDockerfile
           "/w" _ s eq_refl eq_refl E).
Defined.

(** X6. Whatever way the collection loops of [PrintDockerfilesList] end,
    the Dockerfiles collected so far have pairwise distinct absolute paths,
    each one holds the bytes [ReadFile] returns at its path, and every
    collected recommendation was emitted by the matcher from a catalog entry
    for one of the collected Dockerfiles, whose path it carries on both
    sides. *)
Theorem collected_dockerfiles_faithful
    (env : Inspect.Env) (workdir : string) (cfgs : list Schema.SkaffoldConfig) :
  let s := snd (Inspect.collectRecommendations env workdir cfgs Inspect.init) in
  NoDup (AbsPath <$> Dockerfiles (Inspect.l s)) /\ collectedFaithful env s.
Proof.
  cbn zeta.
  destruct (Inspect.collectRecommendations env workdir cfgs Inspect.init) as [r s] eqn:E.
  split; [by eapply collectRecommendations_once|by eapply collectRecommendations_faithful].
Qed.

(** X7. The print loop pairs recommendation [i] with Dockerfile [i].  When
    the first collected Dockerfile holds no catalog phrase, the first
    collected recommendation belongs to a later Dockerfile (its [Path] is
    that file's path, not the first one's), and yet it is the text of the
    first Dockerfile that [generateRecommendationDiff] slices for it: the
    first printed diff is that one, or the run panics on the slice. *)
Theorem first_recommendation_diffed_against_first_dockerfile
    (env : Inspect.Env) (cfgs : list Schema.SkaffoldConfig) (workdir : string)
    (s : Inspect.locals) (d1 : Dockerfile) (ds : list Dockerfile)
    (r : Recommendation) (rs : list Recommendation) :
  Inspect.GetConfigSet env = Ok cfgs ->
  Inspect.RealWorkDir env = Ok workdir ->
  Inspect.collectRecommendations env workdir cfgs Inspect.init = (Ok tt, s) ->
  Dockerfiles (Inspect.l s) = d1 :: ds ->
  DockerfileRecs (Inspect.l s) = r :: rs ->
  Inspect.getDockerfileRecommendations env d1 = Ok [] ->
  Path (FlaggedConfig r) <> AbsPath d1 /\
  (exists d, In d ds /\ Path (FlaggedConfig r) = AbsPath d) /\
  match Inspect.generateRecommendationDiff env d1 r with
  | None => Inspect.PrintDockerfilesList env = ([], Panic)
  | Some text => exists printed o, Inspect.PrintDockerfilesList env = (text :: printed, o)
  end.
Proof.
  intros Hc Hw Hrun Hds Hrs Hnone.
  pose proof (collectRecommendations_once env _ _ _ _ Hrun) as Hnd.
  destruct (collectRecommendations_faithful env _ _ _ _ Hrun) as [_ Hrecs].
  rewrite Hds in Hnd. rewrite Hrs, Hds in Hrecs.
  rewrite fmap_cons in Hnd. apply NoDup_cons in Hnd as [Hfresh _].
  apply Forall_cons in Hrecs as [(d & Hd & Hem & Hp & _) _].
  assert (Hlater : In d ds).
  { destruct Hd as [<-|Hd]; [|done].
    rewrite getDockerfileRecommendations_eq in Hnone.
    assert (Hflat : flat_map (emitted env d1) Inspect.StringEqualsRecs = []) by congruence.
    rewrite Hflat in Hem. destruct Hem. }
  split; [|split].
  - rewrite Hp. intros Heq. apply Hfresh. rewrite <- Heq.
    apply list_elem_of_fmap. exists d. split; [done|by apply list_elem_of_In].
  - by exists d.
  - unfold Inspect.PrintDockerfilesList. rewrite Hc, Hw, Hrun, Hds, Hrs.
    cbn [Inspect.printDiffs lookup list_lookup].
    destruct (Inspect.generateRecommendationDiff env d1 r) as [text|]; [|done].
    destruct (Inspect.printDiffs env (d1 :: ds) 1 rs) as [printed o]. by exists printed, o.
Qed.

(** X7 on two Dockerfiles, the first without a catalog phrase and shorter
    than the end offset of the recommendation for the second: the run
    panics before it prints anything. *)
Lemma first_recommendation_diffed_against_first_dockerfile_witness :
  exists s d1 ds r rs,
    Inspect.collectRecommendations MoreSamples.cleanThenFlaggedEnv "/w"
      MoreSamples.sharedDockerfile Inspect.init = (Ok tt, s) /\
    Dockerfiles (Inspect.l s) = d1 :: ds /\
    DockerfileRecs (Inspect.l s) = r :: rs /\
    Inspect.getDockerfileRecommendations MoreSamples.cleanThenFlaggedEnv d1 = Ok [] /\
    Path (FlaggedConfig r) <> AbsPath d1 /\
    Inspect.PrintDockerfilesList MoreSamples.cleanThenFlaggedEnv = ([], Panic).
Proof.
  destruct (Inspect.collectRecommendations MoreSamples.cleanThenFlaggedEnv "/w"
              MoreSamples.sharedDockerfile Inspect.init) as [res s] eqn:E.
  assert (Hres : res = Ok tt) by (apply (f_equal fst) in E; vm_compute in E; congruence).
  subst res.
  pose proof (f_equal snd E) as Es. cbn [snd] in Es.
  destruct (Dockerfiles (Inspect.l s)) as [|d1 ds] eqn:Hds;
    [rewrite <- Es in Hds; vm_compute in Hds; discriminate|].
  destruct (DockerfileRecs (Inspect.l s)) as [|r rs] eqn:Hrs;
    [rewrite <- Es in Hrs; vm_compute in Hrs; discriminate|].
  assert (Hnone : Inspect.getDockerfileRecommendations MoreSamples.cleanThenFlaggedEnv d1 = Ok []).
  { rewrite <- Es in Hds. vm_compute in Hds. injection Hds as <- _. vm_compute. reflexivity. }
  exists s, d1, ds, r, rs. repeat (split; [reflexivity || assumption|]).
  destruct (first_recommendation_diffed_against_first_dockerfile
              MoreSamples.cleanThenFlaggedEnv MoreSamples.sharedDockerfile "/w" s d1 ds r rs
              eq_refl eq_refl E Hds Hrs Hnone) as (Hne & _ & _).
  split; [exact Hne|]. vm_compute. reflexivity.
Defined.

(** ** The trace of [GetSkaffoldYamlsLintResults] *)

Section TraceFacts.
Import Schema Lint.
Context {Result : Type}.
Variable env : Env Result.

#[local] Abbreviation locals := (@locals Result).

Lemma sameTrace_refl (s : locals) : sameTrace env s s.
Proof. done. Qed.

Lemma extractArtifact_sameTrace workdir a (s0 s : locals) r s' :
  sameTrace env s0 s -> extractArtifact env workdir a s = (r, s') -> sameTrace env s0 s'.
Proof.
  intros (Hl & Hres & Hlint & Hread). rewrite extractArtifact_eq.
  destruct (artifactPath env workdir a) as [[ws fp]|]; [|by intros [= _ <-]].
  destruct (seen s !! fp); [by intros [= _ <-]|]. cbn zeta.
  assert (Hlog : sameTrace env s0 (logCall (CallGetDependencies ws fp) (markSeen fp s))).
  { unfold sameTrace, lintCalls, reads. cbn [l calls logCall markSeen].
    rewrite flat_map_app, !omap_app. cbn. by rewrite !app_nil_r. }
  by destruct (getDockerfileFileDependencies env ws fp); intros [= _ <-].
Qed.

Lemma extractArtifacts_sameTrace workdir arts (s : locals) r s' :
  forEach (extractArtifact env workdir) arts s = (r, s') -> sameTrace env s s'.
Proof.
  intros Hrun.
  apply (forEach_invariant (sameTrace env s) _ _) with (s := s) (r := r) (s' := s') in Hrun;
    [done| |apply sameTrace_refl].
  intros a s1 r1 s2 _. apply extractArtifact_sameTrace.
Qed.

(** The linters of one unit are all handed the same inputs. *)
Lemma runLinters_trace skaffoldyaml c linters : forall results (s : locals) out s',
  runLinters env skaffoldyaml c linters results s = (Ok out, s') ->
  let evaluations := map (fun r => CallLint r (lintInputs skaffoldyaml c s)) linters in
  l s' = l s /\ calls s' = (calls s ++ evaluations)%list /\
  out = (results ++ flat_map (lintResults env) evaluations)%list.
Proof.
  induction linters as [|r linters IH]; intros results s out s'.
  - intros [= <- <-]. cbn. by rewrite !app_nil_r.
  - rewrite runLinters_cons. cbn zeta.
    destruct (Lint env r _ _) as [recs|e] eqn:E; [|done].
    intros Hrun. apply IH in Hrun as (Hl & Hcalls & Hout).
    change (lintInputs skaffoldyaml c (logCall _ s)) with (lintInputs skaffoldyaml c s) in *.
    cbn [l calls logCall] in Hl, Hcalls. split; [done|].
    split; [by rewrite Hcalls, <- app_assoc|].
    rewrite Hout, <- app_assoc. cbn [map flat_map lintResults]. by rewrite E.
Qed.

Lemma lintCalls_evaluations inputs linters :
  lintCalls (map (fun r => CallLint r inputs) linters) = map (fun r => (r, inputs)) linters.
Proof. induction linters as [|r linters IH]; [done|]. cbn. by rewrite <- IH. Qed.

Lemma reads_evaluations inputs linters :
  reads (map (fun r => CallLint r inputs) linters) = [].
Proof. by induction linters. Qed.

Lemma lintCalls_app (cs1 cs2 : list call) :
  lintCalls (cs1 ++ cs2) = (lintCalls cs1 ++ lintCalls cs2)%list.
Proof. apply omap_app. Qed.

Lemma reads_app (cs1 cs2 : list call) : reads (cs1 ++ cs2) = (reads cs1 ++ reads cs2)%list.
Proof. apply omap_app. Qed.

Lemma lintConfig_trace workdir prev c (s : locals) :
  trace env workdir prev s ->
  ends (trace env workdir (prev ++ [c])) (fun _ _ => True) (lintConfig env workdir c s).
Proof.
  intros (Hl & Hunits & Hinputs & Hreads). rewrite lintConfig_eq. cbn zeta.
  destruct (ReadFile env (SourceFile c)) as [b|e] eqn:Eb; [|done].
  destruct (forEach _ _ _) as [[[]|e] s1] eqn:E1; [|done].
  apply extractArtifacts_sameTrace in E1 as (Hl1 & Hres1 & Hlint1 & Hread1).
  cbn [l calls logCall] in Hl1, Hres1, Hlint1, Hread1.
  rewrite flat_map_app in Hres1. rewrite lintCalls_app in Hlint1. rewrite reads_app in Hread1.
  change (flat_map (lintResults env) [CallReadFile (SourceFile c)]) with (@nil Result) in Hres1.
  change (lintCalls [CallReadFile (SourceFile c)]) with (@nil (Linter * LintInputs)) in Hlint1.
  change (reads [CallReadFile (SourceFile c)]) with [SourceFile c] in Hread1.
  rewrite app_nil_r in Hres1, Hlint1.
  destruct (runLinters _ _ _ _ _ _) as [[results|e] s2] eqn:E2; [|done].
  apply runLinters_trace in E2 as (Hl2 & Hcalls2 & Hout). cbn zeta in *.
  set (inputs := lintInputs (configFile workdir c b) c s1) in *.
  set (evaluations := map (fun r => CallLint r inputs) SkaffoldYamlLinters) in *.
  unfold ends, trace. cbn [l calls appendResults]. rewrite Hcalls2.
  rewrite flat_map_app, !lintCalls_app, reads_app.
  unfold evaluations at 2 3 4. rewrite lintCalls_evaluations, reads_evaluations.
  rewrite Hlint1, Hread1, Hres1, Hl2, Hl1, Hout, Hl, Hreads.
  split; [done|]. split; [|split].
  - rewrite fmap_app, Hunits, flat_map_app. by f_equal.
  - apply Forall_app. split; [done|].
    apply Forall_forall. intros p (r & <- & _)%list_elem_of_In%in_map_iff. by exists b.
  - by rewrite app_nil_r, map_app.
Qed.

(** *** The side-tables only grow *)

Lemma increasing_snoc tables (t : gmap string (list string)) :
  increasing tables -> Forall (fun t' => t' ⊆ t) tables -> increasing (tables ++ [t]).
Proof.
  intros Hinc Hall j k t1 t2 Hjk H1 H2.
  destruct (decide (k < List.length tables)%nat) as [Hk|Hk].
  - rewrite lookup_app_l in H1 by lia. rewrite lookup_app_l in H2 by lia.
    exact (Hinc j k t1 t2 Hjk H1 H2).
  - assert (t2 = t) as ->.
    { rewrite lookup_app_r in H2 by lia. destruct (k - List.length tables)%nat; [|done].
      by injection H2. }
    destruct (decide (j < List.length tables)%nat) as [Hj|Hj].
    + rewrite lookup_app_l in H1 by lia. rewrite Forall_forall in Hall.
      apply Hall. by eapply list_elem_of_lookup_2.
    + rewrite lookup_app_r in H1 by lia. destruct (j - List.length tables)%nat; [|done].
      by injection H1 as <-.
Qed.

Lemma extractArtifact_tablesGrow workdir a (s : locals) r s' :
  tablesGrow s -> extractArtifact env workdir a s = (r, s') -> tablesGrow s'.
Proof.
  intros (Hseen & Hall & Hinc). rewrite extractArtifact_eq.
  destruct (artifactPath env workdir a) as [[ws fp]|]; [|by intros [= _ <-]].
  destruct (seen s !! fp) eqn:Efp; [by intros [= _ <-]|]. cbn zeta.
  assert (Hlog : lintTables (calls s ++ [CallGetDependencies ws fp]) = lintTables (calls s)).
  { unfold lintTables, lintCalls. rewrite omap_app. cbn. by rewrite app_nil_r. }
  assert (Hfresh : dockerfileDepMap s !! fp = None).
  { destruct (dockerfileDepMap s !! fp) eqn:Et; [|done].
    destruct (Hseen fp) as [x Hx]; [by rewrite Et|congruence]. }
  destruct (getDockerfileFileDependencies env ws fp) as [deps|e]; intros [= _ <-];
    unfold tablesGrow, tableInSeen; cbn [seen dockerfileDepMap calls setDeps logCall markSeen];
    rewrite Hlog.
  - split; [|split; [|done]].
    + intros x. destruct (decide (fp = x)) as [->|Hne].
      * by rewrite !lookup_insert_eq.
      * rewrite !lookup_insert_ne by done. apply Hseen.
    + eapply Forall_impl; [exact Hall|]. intros t Ht. etrans; [exact Ht|].
      by apply insert_subseteq.
  - split; [|done]. intros x Hx. destruct (decide (fp = x)) as [->|Hne].
    + by rewrite lookup_insert_eq.
    + rewrite lookup_insert_ne by done. by apply Hseen.
Qed.

Lemma runLinters_tablesGrow skaffoldyaml c linters : forall results (s : locals) r s',
  tablesGrow s -> runLinters env skaffoldyaml c linters results s = (r, s') -> tablesGrow s'.
Proof.
  induction linters as [|r0 linters IH]; intros results s r s' Hs.
  - by intros [= _ <-].
  - rewrite runLinters_cons. cbn zeta.
    assert (Hlog : tablesGrow (logCall (CallLint r0 (lintInputs skaffoldyaml c s)) s)).
    { destruct Hs as (Hseen & Hall & Hinc). unfold tablesGrow, tableInSeen, lintTables, lintCalls.
      cbn [seen dockerfileDepMap calls logCall]. rewrite omap_app, fmap_app. cbn.
      split; [done|]. split; [apply Forall_app; split; [done|by repeat constructor]|].
      by apply increasing_snoc. }
    destruct (Lint env r0 _ _) as [recs|e]; [by apply IH|by intros [= _ <-]].
Qed.

Lemma lintConfig_tablesGrow workdir c (s : locals) r s' :
  tablesGrow s -> lintConfig env workdir c s = (r, s') -> tablesGrow s'.
Proof.
  intros Hs. rewrite lintConfig_eq. cbn zeta.
  assert (Hlog : tablesGrow (logCall (CallReadFile (SourceFile c)) s)).
  { destruct Hs as (Hseen & Hall & Hinc). unfold tablesGrow, tableInSeen, lintTables, lintCalls.
    cbn [seen dockerfileDepMap calls logCall]. rewrite omap_app. cbn. by rewrite app_nil_r. }
  destruct (ReadFile env (SourceFile c)) as [b|e]; [|by intros [= _ <-]].
  destruct (forEach _ _ _) as [r1 s1] eqn:E1.
  apply (forEach_invariant tablesGrow _ _) with (s' := s1) (r := r1) in E1;
    [| |exact Hlog].
  2:{ intros a s2 r2 s3 _. apply extractArtifact_tablesGrow. }
  destruct r1 as [[]|e]; [|by intros [= _ <-]].
  destruct (runLinters _ _ _ _ _ _) as [r2 s2] eqn:E2.
  apply runLinters_tablesGrow in E2; [|done].
  by destruct r2 as [results|e]; intros [= _ <-].
Qed.

Lemma init_tablesGrow : tablesGrow (@init Result).
Proof.
  split; [|split].
  - intros fp [x Hx]. cbn [dockerfileDepMap init] in Hx. by rewrite lookup_empty in Hx.
  - constructor.
  - intros j k t1 t2 _ H. change (@nil (gmap string (list string)) !! j = Some t1) in H.
    by rewrite lookup_nil in H.
Qed.
End TraceFacts.

(** X8. In a run of [GetSkaffoldYamlsLintResults] that returns normally,
    the configuration files are read in the order of the configuration set,
    the rules are evaluated for each unit in that order and for each linter
    of [SkaffoldYamlLinters] in its order, each evaluation is handed the
    [ConfigFile] built from the bytes read at the source file of its unit,
    and the returned list is the concatenation, in that order, of what the
    evaluations returned. *)
Theorem successful_run_concatenates_in_order
    {Result : Type} (env : Lint.Env Result) (cfgs : list Schema.SkaffoldConfig)
    (workdir : string) (results : list Result) (s : Lint.locals) :
  Lint.getConfigSet env = Ok cfgs ->
  Lint.realWorkDir env = Ok workdir ->
  Lint.GetSkaffoldYamlsLintResults env = (Ok results, s) ->
  results = flat_map (lintResults env) (Lint.calls s) /\
  evaluatedUnit <$> lintCalls (Lint.calls s) = flat_map unitLintCalls cfgs /\
  Forall (readInputs env workdir) (lintCalls (Lint.calls s)) /\
  reads (Lint.calls s) = map Schema.SourceFile cfgs.
Proof.
  intros Hc Hw. unfold Lint.GetSkaffoldYamlsLintResults. rewrite Hc, Hw.
  pose proof (forEach_ends (trace env workdir) (fun _ _ => True) (Lint.lintConfig env workdir) cfgs
                (fun prev c _ s' _ Hs' => lintConfig_trace env workdir prev c s' Hs')
                Lint.init ltac:(by repeat split)) as H.
  destruct (forEach _ _ _) as [[[]|e] s1]; [|done].
  intros [= <- <-]. exact H.
Qed.

(** X8 on the sample run: two units, two linters each. *)
Lemma successful_run_concatenates_in_order_witness :
  exists s,
    Lint.GetSkaffoldYamlsLintResults Samples.healthyEnv =
      (Ok ["regexp:/w/a/skaffold.yaml"; "yamlfield:/w/a/skaffold.yaml";
           "regexp:/w/b/skaffold.yaml"; "yamlfield:/w/b/skaffold.yaml"]%string, s) /\
    evaluatedUnit <$> lintCalls (Lint.calls s) =
      [(Lint.RegExpLinter, Samples.unitA); (Lint.YamlFieldLinter, Samples.unitA);
       (Lint.RegExpLinter, Samples.unitB); (Lint.YamlFieldLinter, Samples.unitB)] /\
    reads (Lint.calls s) = ["/w/a/skaffold.yaml"; "/w/b/skaffold.yaml"]%string.
Proof.
  destruct (Lint.GetSkaffoldYamlsLintResults Samples.healthyEnv) as [res s] eqn:E.
  assert (Hres : res = Ok ["regexp:/w/a/skaffold.yaml"; "yamlfield:/w/a/skaffold.yaml";
                           "regexp:/w/b/skaffold.yaml"; "yamlfield:/w/b/skaffold.yaml"]%string)
    by (apply (f_equal fst) in E; vm_compute in E; congruence).
  subst res. exists s. split; [reflexivity|].
  destruct (successful_run_concatenates_in_order Samples.healthyEnv
              [Samples.unitA; Samples.unitB] "/w" _ s eq_refl eq_refl E)
    as (_ & Hunits & _ & Hreads).
  split; [exact Hunits|exact Hreads].
Defined.

(** X9. Along every run of [GetSkaffoldYamlsLintResults], failed or not,
    the side-tables handed to the rule evaluations only grow: a later
    evaluation sees every entry an earlier one saw, with the same
    dependencies, every table handed out is contained in the table at the
    return, and the table has entries for paths marked as seen only. *)
Theorem side_tables_only_grow
    {Result : Type} (env : Lint.Env Result) (res : result (list Result)) (s : Lint.locals) :
  Lint.GetSkaffoldYamlsLintResults env = (res, s) ->
  increasing (lintTables (Lint.calls s)) /\
  Forall (fun t => t ⊆ Lint.dockerfileDepMap s) (lintTables (Lint.calls s)) /\
  tableInSeen s.
Proof.
  unfold Lint.GetSkaffoldYamlsLintResults. intros Hrun.
  assert (H : tablesGrow s); [|by destruct H as (? & ? & ?)].
  destruct (Lint.getConfigSet env) as [cfgs|e];
    [|injection Hrun as _ <-; apply init_tablesGrow].
  destruct (Lint.realWorkDir env) as [workdir|e];
    [|injection Hrun as _ <-; apply init_tablesGrow].
  destruct (forEach _ _ _) as [r1 s1] eqn:E1.
  apply (forEach_invariant tablesGrow _ _) with (s' := s1) (r := r1) in E1;
    [| |apply init_tablesGrow].
  2:{ intros c s2 r2 s3 _. apply lintConfig_tablesGrow. }
  by destruct r1 as [[]|e]; injection Hrun as _ <-.
Qed.

(** X9 on the sample run: the evaluations of the first unit see one entry,
    those of the second unit two. *)
Lemma side_tables_only_grow_witness :
  exists s,
    (Lint.GetSkaffoldYamlsLintResults Samples.healthyEnv).2 = s /\
    size <$> lintTables (Lint.calls s) = [1; 1; 2; 2]%nat /\
    increasing (lintTables (Lint.calls s)) /\
    Forall (fun t => t ⊆ Lint.dockerfileDepMap s) (lintTables (Lint.calls s)).
Proof.
  destruct (Lint.GetSkaffoldYamlsLintResults Samples.healthyEnv) as [res s] eqn:E.
  exists s. split; [reflexivity|].
  pose proof (f_equal snd E) as Es. cbn [snd] in Es.
  split; [rewrite <- Es; vm_compute; reflexivity|].
  destruct (side_tables_only_grow Samples.healthyEnv res s E) as (Hinc & Hall & _).
  split; [exact Hinc|exact Hall].
Defined.

(** X10. [GetSkaffoldYamlsLintResults] raises no error of its own: an error
    it returns is the error of [getConfigSet] or of [realWorkDir], with no
    file read, no extraction and no rule evaluation made, or it is the
    error of the last external call of the run, every earlier call having
    succeeded. *)
Theorem returned_error_has_an_origin
    {Result : Type} (env : Lint.Env Result) (e : error) (s : Lint.locals) :
  Lint.GetSkaffoldYamlsLintResults env = (Err e, s) ->
  (Lint.getConfigSet env = Err e /\ Lint.calls s = []) \/
  (Lint.getConfigSet env <> Err e /\ Lint.realWorkDir env = Err e /\ Lint.calls s = []) \/
  (exists pre c, Lint.calls s = (pre ++ [c])%list /\ allSucceeded env pre /\
                 failure env c = Some e).
Proof.
  unfold Lint.GetSkaffoldYamlsLintResults.
  destruct (Lint.getConfigSet env) as [cfgs|e0]; [|intros [= <- <-]; by left].
  destruct (Lint.realWorkDir env) as [workdir|e0]; [|intros [= <- <-]; right; by left].
  pose proof (forEach_ends (fun _ => logOk env) (logFailed env) (Lint.lintConfig env workdir) cfgs
                (fun _ c _ s' _ Hs' => lintConfig_failFast env workdir c s' Hs')
                Lint.init ltac:(by constructor)) as H.
  destruct (forEach _ _ _) as [[[]|e1] s1]; intros [= <- <-]. right; right. exact H.
Qed.

(** X10 on the sample run whose second extraction fails. *)
Lemma returned_error_has_an_origin_witness :
  exists s pre,
    Lint.GetSkaffoldYamlsLintResults Samples.brokenExtractionEnv
      = (Err "extraction failed"%string, s) /\
    Lint.calls s = (pre ++ [Lint.CallGetDependencies "/w/b" "/w/b/Dockerfile"])%list /\
    allSucceeded Samples.brokenExtractionEnv pre.
Proof.
  destruct (Lint.GetSkaffoldYamlsLintResults Samples.brokenExtractionEnv) as [res s] eqn:E.
  assert (Hres : res = Err "extraction failed"%string)
    by (apply (f_equal fst) in E; vm_compute in E; congruence).
  subst res.
  destruct (returned_error_has_an_origin Samples.brokenExtractionEnv _ s E)
    as [[Hc _]|[(_ & Hw & _)|(pre & c & Hlog & Hpre & Hc)]];
    [vm_compute in Hc; discriminate|vm_compute in Hw; discriminate|].
  exists s, pre. split; [reflexivity|]. split; [|exact Hpre].
  assert (Hlast : last (Lint.calls s)
                  = Some (Lint.CallGetDependencies "/w/b" "/w/b/Dockerfile")).
  { pose proof (f_equal snd E) as Es. cbn [snd] in Es. rewrite <- Es. vm_compute. reflexivity. }
  rewrite Hlog, last_snoc in Hlast. by injection Hlast as ->.
Defined.

(** ** The explanation populators *)

Section PopulatorFacts.
Import Lint Populators.
Local Open Scope string_scope.
Variable filepathJoin : list string -> string.
Variable filepathDir : string -> string.

Lemma scanDeps_spec deps :
  match scanDeps filepathJoin filepathDir deps with
  | Some r => exists dep, In dep deps /\ GoStrings.HasSuffix dep ".py" = true /\
                r = Ok {| FieldMap := {[ "src" := filepathJoin [filepathDir dep; "**"; "*.py"] ]} |}
  | None => existsb (fun dep => GoStrings.HasSuffix dep ".py") deps = false
  end.
Proof.
  induction deps as [|dep deps IH]; cbn [scanDeps existsb]; [done|].
  destruct (GoStrings.HasSuffix dep ".py") eqn:E.
  - exists dep. split; [by left|done].
  - destruct (scanDeps _ _ deps) as [r|]; [|done].
    destruct IH as (dep' & Hin & Hpy & ->). exists dep'. split; [by right|done].
Qed.

Lemma scanTable_spec entries :
  match scanTable filepathJoin filepathDir entries with
  | Some r => exists fp deps dep, In (fp, deps) entries /\ In dep deps /\
                GoStrings.HasSuffix dep ".py" = true /\
                r = Ok {| FieldMap := {[ "src" := filepathJoin [filepathDir dep; "**"; "*.py"] ]} |}
  | None => existsb (fun entry : string * list string =>
                       existsb (fun dep => GoStrings.HasSuffix dep ".py") entry.2) entries = false
  end.
Proof.
  induction entries as [|[fp deps] entries IH]; cbn [scanTable existsb snd]; [done|].
  pose proof (scanDeps_spec deps) as Hdeps.
  destruct (scanDeps _ _ deps) as [r|].
  - destruct Hdeps as (dep & Hin & Hpy & ->). exists fp, deps, dep. split; [by left|done].
  - rewrite Hdeps. cbn [orb]. destruct (scanTable _ _ entries) as [r|]; [|done].
    destruct IH as (fp' & deps' & dep & Hin & Hrest). exists fp', deps', dep.
    split; [by right|done].
Qed.

Lemma existsb_Permutation {A} (f : A -> bool) (xs ys : list A) :
  xs ≡ₚ ys -> existsb f xs = existsb f ys.
Proof.
  intros Hp. apply eq_true_iff_eq. rewrite !existsb_exists.
  split; intros (x & Hin & Hx); exists x; (split; [|done]);
    apply list_elem_of_In; apply list_elem_of_In in Hin;
    first [by rewrite <- Hp | by rewrite Hp].
Qed.
End PopulatorFacts.

(** X11. Whatever order [range] visits the side-table in, the populator of
    the sync rule never fails, and it fills the [src] field exactly when the
    second condition of the rule holds (some extracted dependency ends in
    [.py]); the value is [Join(Dir(dep), "**", "*.py")] for one such
    dependency of the table. *)
Theorem sync_populator_agrees_with_condition
    (filepathJoin : list string -> string) (filepathDir : string -> string)
    (rangeOrder : gmap string (list string) -> list (string * list string))
    (lintInputs : Lint.LintInputs) :
  rangeOrder (Lint.DockerfileToDepMap lintInputs)
    ≡ₚ map_to_list (Lint.DockerfileToDepMap lintInputs) ->
  exists info,
    Populators.syncPythonPopulator filepathJoin filepathDir rangeOrder lintInputs = Ok info /\
    (Lint.hasPythonDependency lintInputs = true <->
       is_Some (Populators.FieldMap info !! "src"%string)) /\
    (forall src, Populators.FieldMap info !! "src"%string = Some src ->
       exists fp deps dep,
         Lint.DockerfileToDepMap lintInputs !! fp = Some deps /\ In dep deps /\
         GoStrings.HasSuffix dep ".py" = true /\
         src = filepathJoin [filepathDir dep; "**"; "*.py"]%string).
Proof.
  intros Hp. unfold Populators.syncPythonPopulator, Lint.hasPythonDependency.
  rewrite <- (existsb_Permutation _ _ _ Hp).
  pose proof (scanTable_spec filepathJoin filepathDir
                (rangeOrder (Lint.DockerfileToDepMap lintInputs))) as Hscan.
  destruct (Populators.scanTable _ _ _) as [r|].
  - destruct Hscan as (fp & deps & dep & Hin & Hdep & Hpy & ->).
    eexists. split; [done|]. cbn [Populators.FieldMap]. split.
    + split; [intros _; by rewrite lookup_singleton_eq|]. intros _.
      apply existsb_exists. exists (fp, deps). split; [done|].
      apply existsb_exists. by exists dep.
    + intros src. rewrite lookup_singleton_eq. intros [= <-].
      exists fp, deps, dep. split; [|done].
      apply elem_of_map_to_list. rewrite <- Hp. by apply list_elem_of_In.
  - exists Populators.emptyInfo. split; [done|]. rewrite Hscan. cbn [Populators.FieldMap Populators.emptyInfo].
    split; [split; [done|]|]; rewrite lookup_empty; [by intros [? ?]|done].
Qed.

(** X11 on the sample inputs, whose table holds [/w/a/main.py]. *)
Lemma sync_populator_agrees_with_condition_witness :
  exists info,
    Populators.syncPythonPopulator Samples.joinPath MoreSamples.dirName map_to_list
      Samples.sampleInputs = Ok info /\
    Populators.FieldMap info !! "src"%string = Some "/w/a/**/*.py"%string /\
    Lint.hasPythonDependency Samples.sampleInputs = true.
Proof.
  destruct (sync_populator_agrees_with_condition Samples.joinPath MoreSamples.dirName
              map_to_list Samples.sampleInputs ltac:(reflexivity))
    as (info & Hrun & Hiff & _).
  exists info. split; [exact Hrun|].
  split; [|vm_compute; reflexivity].
  vm_compute in Hrun. injection Hrun as <-. vm_compute. reflexivity.
Defined.

Section StaticPortFacts.
Import Populators.
Variable IsURL : string -> bool.
Variable Glob : string -> result (list string).
Variable ReadFile : string -> result string.

Lemma readExpanded_spec expanded :
  match readExpanded ReadFile expanded with
  | Some r => r = Ok emptyInfo /\ Exists (fun relPath => exists e, ReadFile relPath = Err e) expanded
  | None => Forall (fun relPath => exists b, ReadFile relPath = Ok b) expanded
  end.
Proof.
  induction expanded as [|relPath expanded IH]; cbn [readExpanded]; [done|].
  destruct (ReadFile relPath) as [b|e] eqn:E.
  - destruct (readExpanded ReadFile expanded) as [r|].
    + destruct IH as [-> IH]. split; [done|by right].
    + constructor; [by exists b|done].
  - split; [done|]. left. by exists e.
Qed.

Lemma useStaticPortPopulator_passed pre manifests :
  Forall (passed IsURL Glob ReadFile) pre ->
  useStaticPortPopulator IsURL Glob ReadFile (pre ++ manifests)
  = useStaticPortPopulator IsURL Glob ReadFile manifests.
Proof.
  induction 1 as [|pattern pre Hp _ IH]; [done|].
  cbn [app useStaticPortPopulator].
  destruct (IsURL pattern) eqn:Eu; [done|].
  destruct Hp as [?|(expanded & -> & Hread)]; [congruence|].
  pose proof (readExpanded_spec expanded) as Hspec.
  destruct (readExpanded ReadFile expanded) as [r|]; [|done].
  destruct Hspec as [_ Hex]. apply Exists_exists in Hex as (relPath & Hin & e & He).
  rewrite Forall_forall in Hread. destruct (Hread relPath Hin) as [b Hb]. congruence.
Qed.

Lemma useStaticPortPopulator_cases manifests :
  (useStaticPortPopulator IsURL Glob ReadFile manifests = Ok emptyInfo /\
   (Forall (passed IsURL Glob ReadFile) manifests \/
    exists pre pattern post expanded,
      manifests = (pre ++ pattern :: post)%list /\ Forall (passed IsURL Glob ReadFile) pre /\
      IsURL pattern = false /\ Glob pattern = Ok expanded /\
      Exists (fun relPath => exists e, ReadFile relPath = Err e) expanded)) \/
  (exists e pre pattern post,
     useStaticPortPopulator IsURL Glob ReadFile manifests = Err e /\
     manifests = (pre ++ pattern :: post)%list /\ Forall (passed IsURL Glob ReadFile) pre /\
     IsURL pattern = false /\ Glob pattern = Err e).
Proof.
  induction manifests as [|pattern manifests IH]; cbn [useStaticPortPopulator].
  - left. split; [done|]. left. constructor.
  - assert (Hstep : passed IsURL Glob ReadFile pattern ->
      (useStaticPortPopulator IsURL Glob ReadFile manifests = Ok emptyInfo /\
       (Forall (passed IsURL Glob ReadFile) (pattern :: manifests) \/
        exists pre pattern' post expanded,
          pattern :: manifests = (pre ++ pattern' :: post)%list /\
          Forall (passed IsURL Glob ReadFile) pre /\
          IsURL pattern' = false /\ Glob pattern' = Ok expanded /\
          Exists (fun relPath => exists e, ReadFile relPath = Err e) expanded)) \/
      (exists e pre pattern' post,
         useStaticPortPopulator IsURL Glob ReadFile manifests = Err e /\
         pattern :: manifests = (pre ++ pattern' :: post)%list /\
         Forall (passed IsURL Glob ReadFile) pre /\
         IsURL pattern' = false /\ Glob pattern' = Err e)).
    { intros Hp. destruct IH as [[Hok [Hall|(pre & p' & post & ex & -> & Hpre & Hrest)]]
                                |(e & pre & p' & post & Herr & -> & Hpre & Hrest)].
      - left. split; [done|]. left. by constructor.
      - left. split; [done|]. right. exists (pattern :: pre), p', post, ex.
        split; [done|]. split; [by constructor|done].
      - right. exists e, (pattern :: pre), p', post.
        split; [done|]. split; [done|]. split; [by constructor|done]. }
    destruct (IsURL pattern) eqn:Eu; [apply Hstep; by left|].
    destruct (Glob pattern) as [expanded|e] eqn:Eg.
    + pose proof (readExpanded_spec expanded) as Hspec.
      destruct (readExpanded ReadFile expanded) as [r|].
      * destruct Hspec as [-> Hex]. left. split; [done|]. right.
        exists [], pattern, manifests, expanded. by repeat split.
      * apply Hstep. right. by exists expanded.
    + right. exists e, [], pattern, manifests. by repeat split.
Qed.
End StaticPortFacts.

(** X12. The populator of the static-port rule never fills a field: its
    result is the empty [explanationInfo] or an error.  It fails exactly
    when it reaches a manifest pattern that is not a URL and whose [Glob]
    fails, every earlier pattern being a URL or expanding to readable files
    only, and the error is that of the [Glob].  A file that cannot be read
    ends the scan without an error: the patterns after it are not expanded,
    so that a [Glob] failure among them is not reported. *)
Theorem static_port_populator_outcomes
    (IsURL : string -> bool) (Glob : string -> result (list string))
    (ReadFile : string -> result string) (manifests : list string) :
  let populate := Populators.useStaticPortPopulator IsURL Glob ReadFile in
  (forall info, populate manifests = Ok info -> info = Populators.emptyInfo) /\
  (forall e, populate manifests = Err e <->
     exists pre pattern post,
       manifests = (pre ++ pattern :: post)%list /\
       Forall (Populators.passed IsURL Glob ReadFile) pre /\
       IsURL pattern = false /\ Glob pattern = Err e) /\
  (forall pre pattern post expanded,
     manifests = (pre ++ pattern :: post)%list ->
     Forall (Populators.passed IsURL Glob ReadFile) pre ->
     IsURL pattern = false -> Glob pattern = Ok expanded ->
     Exists (fun relPath => exists e, ReadFile relPath = Err e) expanded ->
     populate manifests = Ok Populators.emptyInfo).
Proof.
  cbn zeta. split; [|split].
  - intros info Hrun.
    destruct (useStaticPortPopulator_cases IsURL Glob ReadFile manifests)
      as [[Hok _]|(e & pre & p & post & Herr & _)]; congruence.
  - intros e. split.
    + intros Hrun.
      destruct (useStaticPortPopulator_cases IsURL Glob ReadFile manifests)
        as [[Hok _]|(e' & pre & p & post & Herr & Hrest)]; [congruence|].
      assert (e' = e) as -> by congruence. by exists pre, p, post.
    + intros (pre & p & post & -> & Hpre & Hu & Hg).
      rewrite useStaticPortPopulator_passed by done.
      cbn [Populators.useStaticPortPopulator]. by rewrite Hu, Hg.
  - intros pre p post expanded -> Hpre Hu Hg Hex.
    rewrite useStaticPortPopulator_passed by done.
    cbn [Populators.useStaticPortPopulator]. rewrite Hu, Hg.
    pose proof (readExpanded_spec ReadFile expanded) as Hspec.
    destruct (Populators.readExpanded ReadFile expanded) as [r|]; [by destruct Hspec|].
    apply Exists_exists in Hex as (relPath & Hin & e & He).
    rewrite Forall_forall in Hspec. destruct (Hspec relPath Hin) as [b Hb]. congruence.
Qed.

(** X12 on two patterns: a file of the first one cannot be read, the
    second one does not expand. *)
Lemma static_port_populator_swallows_read_error :
  let IsURL := fun _ : string => false in
  let Glob := fun pattern : string =>
    if String.eqb pattern "a/*" then Ok ["a/x"%string] else Err "bad pattern"%string in
  let ReadFile := fun _ : string => @Err string "permission denied"%string in
  Populators.useStaticPortPopulator IsURL Glob ReadFile ["a/*"; "b/*"]%string
    = Ok Populators.emptyInfo /\
  Populators.useStaticPortPopulator IsURL Glob ReadFile ["b/*"; "a/*"]%string
    = Err "bad pattern"%string.
Proof.
  intros IsURL Glob ReadFile. split.
  - apply (proj2 (proj2 (static_port_populator_outcomes IsURL Glob ReadFile _))
             [] "a/*"%string ["b/*"%string] ["a/x"%string]); try reflexivity.
    + constructor.
    + left. by exists "permission denied"%string.
  - reflexivity.
Defined.

(** ** [timeSlice.avg] *)

Section AvgFacts.
Import ComparisonStats.
Local Open Scope Z_scope.

Lemma wrap_add_l a b : GoInt.wrap (GoInt.wrap a + b) = GoInt.wrap (a + b).
Proof.
  unfold GoInt.wrap. f_equal.
  replace ((a + 2 ^ 63) mod 2 ^ 64 - 2 ^ 63 + b + 2 ^ 63)
    with ((a + 2 ^ 63) mod 2 ^ 64 + b) by lia.
  rewrite Zplus_mod_idemp_l. f_equal. lia.
Qed.

Lemma fold_add_wrap ts : forall a,
  fold_left GoInt.add ts (GoInt.wrap a) = GoInt.wrap (a + sum ts).
Proof.
  induction ts as [|t ts IH]; intros a; cbn [fold_left sum fold_right].
  - by rewrite Z.add_0_r.
  - unfold GoInt.add at 2. rewrite wrap_add_l, IH. fold (sum ts). f_equal. lia.
Qed.

(** The loop computes the sum modulo [2^64]: an overflow in the middle
    of the loop does no harm when the sum itself fits. *)
Lemma total_sum ts :
  GoInt.MinInt <= sum ts <= GoInt.MaxInt -> total ts = sum ts.
Proof.
  intros H. unfold total. change 0 with (GoInt.wrap 0) at 1.
  rewrite fold_add_wrap. by apply wrap_small.
Qed.

Lemma sum_bounds lo hi ts :
  Forall (fun t => lo <= t <= hi) ts -> Len ts * lo <= sum ts <= Len ts * hi.
Proof.
  unfold Len. induction 1 as [|t ts Ht _ IH]; cbn [sum fold_right List.length].
  - lia.
  - fold (sum ts). lia.
Qed.

Lemma quot_bounds s n lo hi :
  0 < n -> n * lo <= s <= n * hi -> lo <= s ÷ n <= hi.
Proof.
  intros Hn Hs. pose proof (Z.quot_rem' s n) as Hq.
  destruct (Z_le_gt_dec 0 s) as [Hpos|Hneg].
  - pose proof (Z.rem_bound_pos_pos s n Hn Hpos). nia.
  - pose proof (Z.rem_bound_pos_neg s n Hn ltac:(lia)). nia.
Qed.
End AvgFacts.

(** X13. [avg] panics (integer divide by zero) on the empty slice, on which
    [ComparisonStats.String] calls it when a loop recorded no inner
    iteration.  On a non-empty slice whose sum fits an [int64] it returns
    the sum divided by the length, truncated toward zero, even if the
    running sum wrapped around in between, and the result lies between any
    bounds of the elements. *)
Theorem avg_within_bounds (ts : ComparisonStats.timeSlice) (lo hi : Z) :
  ts <> [] ->
  (GoInt.MinInt <= ComparisonStats.sum ts <= GoInt.MaxInt)%Z ->
  Forall (fun t => lo <= t <= hi)%Z ts ->
  ComparisonStats.avg [] = None /\
  exists q,
    ComparisonStats.avg ts = Some q /\
    q = (ComparisonStats.sum ts ÷ ComparisonStats.Len ts)%Z /\
    (lo <= q <= hi)%Z.
Proof.
  intros Hne Hsum Hall. split; [done|].
  assert (Hn : (0 < ComparisonStats.Len ts)%Z).
  { unfold ComparisonStats.Len. destruct ts; [done|]. cbn [List.length]. lia. }
  exists (ComparisonStats.sum ts ÷ ComparisonStats.Len ts)%Z.
  split; [|split; [done|]].
  - unfold ComparisonStats.avg. rewrite total_sum by done.
    destruct (Z.eqb_spec (ComparisonStats.Len ts) 0); [lia|done].
  - apply quot_bounds; [done|]. by apply sum_bounds.
Qed.

(** X13 on three durations whose running sum overflows before a negative
    one brings it back. *)
Lemma avg_within_bounds_witness :
  let ts := [GoInt.MaxInt; 1; -4]%Z in
  ComparisonStats.total (take 2 ts) = GoInt.MinInt /\
  ComparisonStats.avg ts = Some 3074457345618258601%Z.
Proof.
  intros ts. split; [vm_compute; reflexivity|].
  destruct (avg_within_bounds ts (-4) GoInt.MaxInt) as (_ & q & Hq & -> & _).
  - discriminate.
  - vm_compute. split; discriminate.
  - repeat constructor; vm_compute; discriminate.
  - rewrite Hq. vm_compute. reflexivity.
Defined.

(** ** [validateArgs] and the start of [main] *)

Section ValidateFacts.
Import Validate.
Variable Stat : string -> option error.
Variable filepathJoin : list string -> string.

Lemma validateBinaries_firstError binpaths :
  validateBinaries Stat binpaths = firstError Stat binpaths.
Proof. induction binpaths as [|b binpaths IH]; cbn; [done|]. by destruct (Stat b). Qed.

Lemma firstError_app paths1 paths2 :
  firstError Stat (paths1 ++ paths2) =
  match firstError Stat paths1 with
  | Some err => Some err
  | None => firstError Stat paths2
  end.
Proof. induction paths1 as [|p paths1 IH]; cbn; [done|]. by destruct (Stat p). Qed.

Lemma index_lookup (args : list string) (i : nat) :
  index args (Z.of_nat i) = args !! i.
Proof.
  unfold index. destruct (Z.leb_spec 0 (Z.of_nat i)); [|lia]. by rewrite Nat2Z.id.
Qed.

Lemma validateArgs_eq (args : list string) :
  (3 <= List.length args)%nat ->
  validateArgs Stat filepathJoin args
  = Returned (firstError Stat (checkedPaths filepathJoin args)).
Proof.
  intros Hlen. unfold validateArgs, numBinaries, len, slice, checkedPaths, len. cbn zeta.
  destruct (Z.ltb_spec (Z.of_nat (List.length args)) (2 + 1)); [lia|].
  replace ((0 <=? 1)%Z && (1 <=? Z.of_nat (List.length args) - 2)%Z
           && (Z.of_nat (List.length args) - 2 <=? Z.of_nat (List.length args))%Z)
    with true by (symmetry; rewrite !andb_true_iff, !Z.leb_le; lia).
  replace (Z.to_nat (Z.of_nat (List.length args) - 2 - 1)) with (List.length args - 3)%nat by lia.
  replace (Z.of_nat (List.length args) - 2)%Z with (Z.of_nat (List.length args - 2)) by lia.
  replace (Z.of_nat (List.length args) - 1)%Z with (Z.of_nat (List.length args - 1)) by lia.
  rewrite !index_lookup. change (Z.to_nat 1) with 1%nat.
  assert (Hbins : take (List.length args - 3) (drop 1 args)
                  = drop 1 (take (List.length args - 2) args)).
  { rewrite skipn_firstn_comm. f_equal. lia. }
  rewrite Hbins, validateBinaries_firstError, firstError_app.
  destruct (firstError Stat (drop 1 (take _ args))) as [err|]; [done|].
  destruct (lookup_lt_is_Some_2 args (List.length args - 2)%nat ltac:(lia)) as [app ->].
  destruct (lookup_lt_is_Some_2 args (List.length args - 1)%nat ltac:(lia)) as [src ->].
  cbn [default firstError]. unfold validateExampleAppNameAndSrcFile.
  destruct (Stat _); [done|]. by destruct (Stat _).
Qed.
End ValidateFacts.

(** X14. With fewer than three arguments [validateArgs] ends the process
    ([logrus.Fatalf]).  With three or more it neither exits nor panics: it
    returns the first error [os.Stat] gives on the arguments from the second
    one up to the third from the end, then on the example directory named
    by the last but one argument, then on the source file named by the last
    one in that directory.  The first argument, the first binary of the
    documented usage, is not among the paths checked. *)
Theorem validateArgs_checks
    (Stat : string -> option error) (filepathJoin : list string -> string)
    (args : list string) :
  ((List.length args < 3)%nat -> Validate.validateArgs Stat filepathJoin args = Validate.Fatal) /\
  ((3 <= List.length args)%nat ->
   Validate.validateArgs Stat filepathJoin args
   = Validate.Returned (Validate.firstError Stat (Validate.checkedPaths filepathJoin args)) /\
   forall bin1 bin2 app src, args = [bin1; bin2; app; src] ->
     Validate.checkedPaths filepathJoin args
     = [bin2; filepathJoin ["../../examples/"; app]%string;
        filepathJoin ["../../examples/"; app; src]%string]).
Proof.
  split.
  - intros Hlen. unfold Validate.validateArgs, Validate.numBinaries, Validate.len.
    destruct (Z.ltb_spec (Z.of_nat (List.length args)) (2 + 1)); [done|lia].
  - intros Hlen. split; [by apply validateArgs_eq|]. by intros bin1 bin2 app src ->.
Qed.

(** X14 on the documented usage, with a first binary that does not exist:
    the validation passes. *)
Lemma validateArgs_checks_witness :
  let Stat := fun path : string =>
    if String.eqb path "/missing/skaffold-1" then Some "no such file"%string else None in
  Validate.validateArgs Stat Samples.joinPath
    ["/missing/skaffold-1"; "/bin/skaffold-2"; "microservices"; "main.go"]%string
  = Validate.Returned None.
Proof.
  intros Stat.
  destruct (proj2 (validateArgs_checks Stat Samples.joinPath
                     ["/missing/skaffold-1"; "/bin/skaffold-2"; "microservices"; "main.go"]%string))
    as [Hrun Hpaths]; [cbn; lia|].
  rewrite Hrun, (Hpaths _ _ _ _ eq_refl). reflexivity.
Defined.

(** X15. [main] reads the example name and the source file at positions 2
    and 3 of the arguments, whereas [validateArgs] has checked the last two
    arguments: three arguments that pass the validation make [main] panic
    on [flag.Args()[3]], and for more than four arguments the two fields
    are not the pair that was validated.  [main] goes on only after a
    validation without error. *)
Theorem main_reads_positions_2_and_3
    (Stat : string -> option error) (filepathJoin : list string -> string)
    (args : list string) :
  Validate.validateArgs Stat filepathJoin args = Validate.Returned None ->
  ((List.length args = 3)%nat -> Validate.mainArgs Stat filepathJoin args = Validate.Panicked) /\
  ((4 <= List.length args)%nat ->
   exists app src,
     Validate.mainArgs Stat filepathJoin args = Validate.Returned (app, src) /\
     args !! 2%nat = Some app /\ args !! 3%nat = Some src /\
     Stat (filepathJoin ["../../examples/";
             default ""%string (args !! (List.length args - 2)%nat)]%string) = None).
Proof.
  intros Hok. unfold Validate.mainArgs. rewrite Hok.
  change 2%Z with (Z.of_nat 2). change 3%Z with (Z.of_nat 3). rewrite !index_lookup.
  split.
  - intros Hlen. destruct args as [|a0 [|a1 [|a2 [|a3 args]]]]; try discriminate. done.
  - intros Hlen.
    destruct (lookup_lt_is_Some_2 args 2%nat ltac:(lia)) as [app Happ].
    destruct (lookup_lt_is_Some_2 args 3%nat ltac:(lia)) as [src Hsrc].
    exists app, src. rewrite Happ, Hsrc. split; [done|]. split; [done|]. split; [done|].
    rewrite validateArgs_eq in Hok by lia. injection Hok as Hok.
    unfold Validate.checkedPaths in Hok. cbn zeta in Hok. rewrite firstError_app in Hok.
    destruct (Validate.firstError Stat (drop 1 _)); [done|].
    cbn [Validate.firstError] in Hok. by destruct (Stat _).
Qed.

(** X15 on three arguments and on five. *)
Lemma main_reads_positions_2_and_3_witness :
  let Stat := fun _ : string => @None error in
  Validate.mainArgs Stat Samples.joinPath ["bin2"; "app"; "main.go"]%string = Validate.Panicked /\
  Validate.mainArgs Stat Samples.joinPath ["bin1"; "bin2"; "bin3"; "app"; "main.go"]%string
    = Validate.Returned ("bin3", "app")%string.
Proof.
  intros Stat. split.
  - apply (main_reads_positions_2_and_3 Stat Samples.joinPath
             ["bin2"; "app"; "main.go"]%string eq_refl); reflexivity.
  - destruct (proj2 (main_reads_positions_2_and_3 Stat Samples.joinPath
                       ["bin1"; "bin2"; "bin3"; "app"; "main.go"]%string eq_refl))
      as (app & src & Hrun & Happ & Hsrc & _); [cbn; lia|].
    injection Happ as <-. injection Hsrc as <-. exact Hrun.
Defined.

(** ** The minikube client *)

Section ClusterFacts.
Import Cluster.
Local Open Scope string_scope.
Context {Version Object : Type}.
Variable env : Env Version Object.
Variable find : globals Version -> (string * Version * option Error) * globals Version.

Lemma findByNode_spec host valid :
  match findByNode env host valid with
  | Some v => In v valid /\ existsb (nodeMatches env host) (Nodes (Config v)) = true
  | None => Forall (fun v => existsb (nodeMatches env host) (Nodes (Config v)) = false) valid
  end.
Proof.
  induction valid as [|v valid IH]; cbn [findByNode]; [done|].
  destruct (existsb _ (Nodes (Config v))) eqn:E; [split; [by left|done]|].
  destruct (findByNode env host valid); [destruct IH; split; [by right|done]|by constructor].
Qed.

Lemma findByName_spec cluster kubeContext' valid :
  match findByName cluster kubeContext' valid with
  | Some v => In v valid /\ nameMatches cluster kubeContext' v = true
  | None => Forall (fun v => nameMatches cluster kubeContext' v = false) valid
  end.
Proof.
  induction valid as [|v valid IH]; cbn [findByName]; [done|].
  destruct (nameMatches cluster kubeContext' v) eqn:E; [split; [by left|done]|].
  destruct (findByName cluster kubeContext' valid);
    [destruct IH; split; [by right|done]|by constructor].
Qed.

(** What [resolveProfile] leaves behind. *)
Lemma resolveProfile_spec (s : state Version) r s' :
  resolveProfile env find s = (r, s') ->
  kubeContext (c s') = kubeContext (c s) /\ isMinikube (c s') = isMinikube (c s) /\
  match r with
  | None =>
      (exists v, profile_ (c s) = Some v /\ s' = s) \/
      (profile_ (c s) = None /\
       exists kubeConfig ktxt cluster profiles gl' host v,
         CurrentConfig env = OK kubeConfig /\
         Contexts kubeConfig !! kubeContext (c s) = Some ktxt /\
         Clusters kubeConfig !! Cluster ktxt = Some cluster /\
         listProfilesLight env find (g s) = (OK profiles, gl') /\
         urlParseHost env (Server cluster) = OK host /\
         In v (Valid profiles) /\ s' = setProfile v (setGlobals gl' s) /\
         (findByNode env host (Valid profiles) = Some v \/
          findByNode env host (Valid profiles) = None /\
          findByName (Cluster ktxt) (kubeContext (c s)) (Valid profiles) = Some v))
  | Some _ => profile_ (c s) = None /\ profile_ (c s') = None
  end.
Proof.
  unfold resolveProfile.
  destruct (profile_ (c s)) as [p|] eqn:Ep; [intros [= <- <-]; eauto 6|].
  destruct (CurrentConfig env) as [kubeConfig|e] eqn:Ec; [|by intros [= <- <-]].
  destruct (Contexts kubeConfig !! _) as [ktxt|] eqn:Ek; [|by intros [= <- <-]].
  destruct (Clusters kubeConfig !! _) as [cluster|] eqn:El; [|by intros [= <- <-]].
  destruct (listProfilesLight env find (g s)) as [[profiles|e] gl'] eqn:Ep'; [|by intros [= <- <-]].
  destruct (urlParseHost env (Server cluster)) as [host|e] eqn:Eh; [|by intros [= <- <-]].
  pose proof (findByNode_spec host (Valid profiles)) as Hnode.
  pose proof (findByName_spec (Cluster ktxt) (kubeContext (c s)) (Valid profiles)) as Hname.
  destruct (findByNode env host (Valid profiles)) as [v|] eqn:En.
  - intros [= <- <-]. split; [done|]. split; [done|]. right. split; [done|].
    exists kubeConfig, ktxt, cluster, profiles, gl', host, v. destruct Hnode. by repeat split; auto.
  - destruct (findByName _ _ (Valid profiles)) as [v|] eqn:Em; intros [= <- <-]; [|done].
    split; [done|]. split; [done|]. right. split; [done|].
    exists kubeConfig, ktxt, cluster, profiles, gl', host, v. destruct Hname. by repeat split; auto.
Qed.

Lemma resolveProfile_matches (s : state Version) s' :
  resolveProfile env find s = (None, s') -> profile_ (c s) = None ->
  exists kubeConfig v,
    CurrentConfig env = OK kubeConfig /\ profile_ (c s') = Some v /\
    profileMatches env kubeConfig (kubeContext (c s)) v.
Proof.
  intros Hrun Hnone. apply resolveProfile_spec in Hrun as (_ & _ & [(v & Hv & _)|(_ & H)]);
    [congruence|].
  destruct H as (kubeConfig & ktxt & cluster & profiles & gl' & host & v
                 & Hc & Hk & Hl & _ & Hh & _ & -> & Hfound).
  exists kubeConfig, v. split; [done|]. split; [done|].
  exists ktxt, cluster, host. split; [done|]. split; [done|]. split; [done|].
  destruct Hfound as [Hn|[_ Hm]].
  - left. pose proof (findByNode_spec host (Valid profiles)) as H. rewrite Hn in H. apply H.
  - right. pose proof (findByName_spec (Cluster ktxt) (kubeContext (c s)) (Valid profiles)) as H.
    rewrite Hm in H. apply H.
Qed.
(** What [IsMinikube] leaves behind. *)
Lemma IsMinikube_spec kubeContext' (s : state Version) b s' :
  IsMinikube env find kubeContext' s = (b, s') ->
  kubeContext (c s') = kubeContext' /\ isMinikube (c s') = b /\
  (kubeContext (c s) = kubeContext' -> b = isMinikube (c s) /\ s' = s) /\
  (kubeContext (c s) <> kubeContext' ->
   if b then snd (fst (find (g s))) = None /\
             exists kubeConfig, CurrentConfig env = OK kubeConfig /\
                                detected env kubeConfig kubeContext' s'
   else profile_ (c s') = None).
Proof.
  unfold IsMinikube.
  destruct (String.eqb_spec (kubeContext (c s)) kubeContext') as [Heq|Hne].
  { intros [= <- <-]. by repeat split. }
  destruct (find (g s)) as [[[b0 v0] e0] gl'] eqn:Ef. cbn [fst snd].
  destruct e0 as [e0|]; [intros [= <- <-]; by repeat split|].
  destruct (CurrentConfig env) as [kubeConfig|e] eqn:Ec; [|intros [= <- <-]; by repeat split].
  destruct (Contexts kubeConfig !! kubeContext') as [ktxt|] eqn:Ek;
    [|intros [= <- <-]; by repeat split].
  destruct (Clusters kubeConfig !! Cluster ktxt) as [cluster|] eqn:El;
    [|intros [= <- <-]; by repeat split].
  assert (Htrue : forall s2 : state Version,
            kubeContext (c s2) = kubeContext' ->
            (hasMinikubeExtension env ktxt "context_info" = true \/
             hasMinikubeExtension env ktxt "cluster_info" = true \/
             matchClusterCertPath env (CertificateAuthority cluster) = true \/
             exists v, profile_ (c s2) = Some v /\ profileMatches env kubeConfig kubeContext' v) ->
            detected env kubeConfig kubeContext' (setIsMinikube true s2)).
  { intros s2 Hk Hcrit. exists ktxt, cluster. by repeat split. }
  destruct (hasMinikubeExtension env ktxt "context_info") eqn:E1.
  { intros [= <- <-]. repeat split; try done. exists kubeConfig. split; [done|].
    apply Htrue; [done|by left]. }
  destruct (hasMinikubeExtension env ktxt "cluster_info") eqn:E2.
  { intros [= <- <-]. repeat split; try done. exists kubeConfig. split; [done|].
    apply Htrue; [done|right; by left]. }
  destruct (matchClusterCertPath env (CertificateAuthority cluster)) eqn:E3.
  { intros [= <- <-]. repeat split; try done. exists kubeConfig. split; [done|].
    apply Htrue; [done|right; right; by left]. }
  destruct (resolveProfile env find _) as [[e|] s2] eqn:Er; intros [= <- <-].
  - destruct (resolveProfile_spec _ _ _ Er) as (Hk & Hm & _ & Hp). by repeat split.
  - destruct (resolveProfile_spec _ _ _ Er) as (Hk & _).
    destruct (resolveProfile_matches _ _ Er eq_refl) as (kubeConfig' & v & Hc & Hv & Hmatch).
    assert (kubeConfig' = kubeConfig) as -> by congruence.
    repeat split; try done. exists kubeConfig. split; [done|].
    apply Htrue; [done|]. right; right; right. by exists v.
Qed.
End ClusterFacts.

(** X16. [minikubeBinary] looks the binary up once: after a first call every
    later call returns the same path, version and error and changes
    nothing, whatever the file system and the binary have become.  In the
    lookup, a failure of the version query is recorded last: the error is
    then a [versionErr], even if the binary was not found, the path is what
    [exec.LookPath] returned, and the version is left as it was. *)
Theorem minikubeBinary_looks_up_once
    {Version Object : Type} (env : Cluster.Env Version Object) (gl : Cluster.globals Version) :
  let r := fst (Cluster.minikubeBinary env gl) in
  let gl1 := snd (Cluster.minikubeBinary env gl) in
  Cluster.findOnce gl1 = true /\
  (forall env' : Cluster.Env Version Object, Cluster.minikubeBinary env' gl1 = (r, gl1)) /\
  (Cluster.findOnce gl = false ->
   forall e, snd (Cluster.GetCurrentVersionFunc env) = Some e ->
     r = (fst (Cluster.LookPath env "minikube"), Cluster.version (Cluster.mk gl),
          Some (Cluster.versionErr e))).
Proof.
  cbn zeta. unfold Cluster.minikubeBinary.
  destruct (Cluster.findOnce gl) eqn:Eonce; cbn [fst snd Cluster.findOnce Cluster.mk].
  - split; [done|]. split; [|done]. intros env'. by rewrite Eonce.
  - split; [done|]. split; [done|]. intros _ e He. unfold Cluster.findMinikube.
    destruct (Cluster.LookPath env "minikube") as [filename lookErr].
    destruct (Cluster.GetCurrentVersionFunc env) as [v verr]. cbn [snd] in He. subst verr.
    cbn [fst]. by destruct lookErr, (Cluster.statIsNotExist env filename).
Qed.

(** X17. With the lookup of [minikubeBinary] behind it, [minikubeExec]
    builds a command without an error whenever the version query fails,
    even if no binary was found (the name of the command is then what
    [exec.LookPath] returned), and it does not add [--user=skaffold].  When
    the version query succeeds it fails if the lookup failed or the file
    does not exist, and otherwise appends [--user=skaffold] to the
    arguments exactly when the version is at least 1.18.0. *)
Theorem minikubeExec_after_first_lookup
    {Version Object : Type} (env : Cluster.Env Version Object) (arg : list string)
    (gl : Cluster.globals Version) :
  Cluster.findOnce gl = false ->
  Cluster.err (Cluster.mk gl) = None ->
  let filename := fst (Cluster.LookPath env "minikube") in
  let cmd := fst (Cluster.minikubeExec env (Cluster.minikubeBinary env) arg gl) in
  match Cluster.GetCurrentVersionFunc env with
  | (_, Some e) => cmd = Cluster.OK (Cluster.Command filename arg)
  | (v, None) =>
      match snd (Cluster.LookPath env "minikube"), Cluster.statIsNotExist env filename with
      | None, false =>
          cmd = Cluster.OK (Cluster.Command filename
                  (arg ++ if Cluster.GE env v (Cluster.MustParse env "1.18.0")
                          then ["--user=skaffold"%string] else []))
      | _, _ =>
          exists e, cmd = Cluster.Fail (Cluster.ErrorfW "getting minikube executable: %w" e) /\
                    Cluster.AsVersionErr e = false
      end
  end.
Proof.
  intros Honce Herr. cbn zeta.
  unfold Cluster.minikubeExec, Cluster.minikubeBinary, Cluster.findMinikube,
    Cluster.supportsUserFlag, Cluster.minikubeVersionWithUserFlag.
  rewrite Honce. cbn [Cluster.mk Cluster.findOnce].
  destruct (Cluster.LookPath env "minikube") as [filename lookErr]. cbn [fst snd].
  destruct (Cluster.GetCurrentVersionFunc env) as [v [e|]];
    destruct lookErr as [le|], (Cluster.statIsNotExist env filename);
    cbn [Cluster.setErr Cluster.setPath Cluster.setVersion Cluster.err Cluster.path
         Cluster.version Cluster.AsVersionErr negb fst];
    try done; try (eexists; split; [reflexivity|reflexivity]).
  rewrite Herr. destruct (Cluster.GE env v _); [done|]. by rewrite app_nil_r.
Qed.

(** X17 when neither the binary nor its version can be found: a command
    with an empty name. *)
Lemma minikubeExec_after_first_lookup_witness :
  let env := ClusterSamples.clusterEnv ClusterSamples.notFound ClusterSamples.noVersion ∅ in
  fst (Cluster.minikubeExec env (Cluster.minikubeBinary env) ["status"%string]
         (Cluster.initGlobals env))
  = Cluster.OK (Cluster.Command "" ["status"%string]).
Proof.
  intros env.
  exact (minikubeExec_after_first_lookup env ["status"%string] (Cluster.initGlobals env)
           eq_refl eq_refl).
Defined.

(** X18. [listProfilesLight] decides on [--light] from the version recorded
    before the call.  Once the binary has been found without an error the
    command is [profile list -o json] followed by both [--light] and
    [--user=skaffold], or by neither.  A call that makes the first lookup
    itself still sees the zero version: it does not pass [--light], whatever
    the version of the binary, while [--user=skaffold] follows that
    version. *)
Theorem profile_list_flags
    {Version Object : Type} (env : Cluster.Env Version Object) (gl : Cluster.globals Version) :
  let list := ["profile"; "list"; "-o"; "json"]%string in
  let atLeast_1_18 v := Cluster.GE env v (Cluster.MustParse env "1.18.0") in
  let profiles := Cluster.listProfilesLight env (Cluster.minikubeBinary env) gl in
  (Cluster.findOnce gl = true -> Cluster.err (Cluster.mk gl) = None ->
   profiles = (Cluster.runProfileList env
                 (Cluster.Command (Cluster.path (Cluster.mk gl))
                    (list ++ if atLeast_1_18 (Cluster.version (Cluster.mk gl))
                             then ["--light"; "--user=skaffold"]%string else [])), gl)) /\
  (Cluster.findOnce gl = false -> Cluster.err (Cluster.mk gl) = None ->
   atLeast_1_18 (Cluster.version (Cluster.mk gl)) = false ->
   forall filename v,
     Cluster.LookPath env "minikube" = (filename, None) ->
     Cluster.statIsNotExist env filename = false ->
     Cluster.GetCurrentVersionFunc env = (v, None) ->
     fst profiles = Cluster.runProfileList env
                      (Cluster.Command filename
                         (list ++ if atLeast_1_18 v then ["--user=skaffold"%string] else []))).
Proof.
  cbn zeta. split.
  - intros Honce Herr.
    unfold Cluster.listProfilesLight, Cluster.minikubeExec, Cluster.minikubeBinary,
      Cluster.supportsUserFlag, Cluster.minikubeVersionWithUserFlag,
      Cluster.minikubeVersionWithProfileLightFlag, Cluster.runProfileList.
    rewrite Honce, Herr.
    destruct (Cluster.GE env (Cluster.version (Cluster.mk gl)) _); cbn [app];
      by destruct (Cluster.RunCmdOut env _) as [out|e]; [destruct (Cluster.unmarshalProfiles env out)|].
  - intros Honce Herr Hzero filename v Hlook Hstat Hver.
    unfold Cluster.listProfilesLight, Cluster.minikubeExec, Cluster.minikubeBinary,
      Cluster.findMinikube, Cluster.supportsUserFlag, Cluster.minikubeVersionWithUserFlag,
      Cluster.minikubeVersionWithProfileLightFlag, Cluster.runProfileList.
    rewrite Hzero, Honce, Hlook, Hstat, Hver.
    cbn [Cluster.setErr Cluster.setPath Cluster.setVersion Cluster.err Cluster.path
         Cluster.version Cluster.mk]. rewrite Herr.
    destruct (Cluster.GE env v _); cbn [app fst];
      by destruct (Cluster.RunCmdOut env _) as [out|e]; [destruct (Cluster.unmarshalProfiles env out)|].
Qed.

(** X18 on a binary of version 1.25.0: the first listing is run without
    [--light], the second one with it. *)
Lemma profile_list_flags_witness :
  let env := ClusterSamples.healthy in
  let first := Cluster.listProfilesLight env (Cluster.minikubeBinary env) (Cluster.initGlobals env) in
  fst first = Cluster.runProfileList env
                (Cluster.Command "/usr/bin/minikube"
                   ["profile"; "list"; "-o"; "json"; "--user=skaffold"]%string) /\
  Cluster.listProfilesLight env (Cluster.minikubeBinary env) (snd first)
  = (Cluster.runProfileList env
       (Cluster.Command "/usr/bin/minikube"
          ["profile"; "list"; "-o"; "json"; "--light"; "--user=skaffold"]%string), snd first).
Proof.
  intros env first. split.
  - exact (proj2 (profile_list_flags env (Cluster.initGlobals env)) eq_refl eq_refl eq_refl
             "/usr/bin/minikube"%string _ eq_refl eq_refl eq_refl).
  - exact (proj1 (profile_list_flags env (snd first)) eq_refl eq_refl).
Defined.

(** X19. [resolveProfile] keeps the context and the answer of the client.
    A profile that is already set is kept, without any look at the
    environment.  Otherwise a call that returns [nil] has set a profile of
    the valid ones listed by minikube that matches the context of the
    client: one of its nodes sits at the address of the API server, or it
    carries the name of the cluster or of the context; a match by address
    is preferred over any match by name.  A call that returns an error
    leaves the profile unset. *)
Theorem resolveProfile_sets_a_matching_profile
    {Version Object : Type} (env : Cluster.Env Version Object)
    (find : Cluster.globals Version -> (string * Version * option Cluster.Error) * Cluster.globals Version)
    (s s' : Cluster.state Version) (r : option Cluster.Error) :
  Cluster.resolveProfile env find s = (r, s') ->
  Cluster.kubeContext (Cluster.c s') = Cluster.kubeContext (Cluster.c s) /\
  Cluster.isMinikube (Cluster.c s') = Cluster.isMinikube (Cluster.c s) /\
  (forall p, Cluster.profile_ (Cluster.c s) = Some p ->
     r = None /\ s' = s /\
     forall (env' : Cluster.Env Version Object) find',
       Cluster.resolveProfile env' find' s = (None, s)) /\
  (Cluster.profile_ (Cluster.c s) = None -> r = None ->
   exists kubeConfig profiles v,
     Cluster.CurrentConfig env = Cluster.OK kubeConfig /\
     fst (Cluster.listProfilesLight env find (Cluster.g s)) = Cluster.OK profiles /\
     In v (Cluster.Valid profiles) /\
     Cluster.profile_ (Cluster.c s') = Some v /\
     Cluster.profileMatches env kubeConfig (Cluster.kubeContext (Cluster.c s)) v /\
     forall ktxt cluster host w,
       Cluster.Contexts kubeConfig !! Cluster.kubeContext (Cluster.c s) = Some ktxt ->
       Cluster.Clusters kubeConfig !! Cluster.Cluster ktxt = Some cluster ->
       Cluster.urlParseHost env (Cluster.Server cluster) = Cluster.OK host ->
       In w (Cluster.Valid profiles) ->
       existsb (Cluster.nodeMatches env host) (Cluster.Nodes (Cluster.Config w)) = true ->
       existsb (Cluster.nodeMatches env host) (Cluster.Nodes (Cluster.Config v)) = true) /\
  (forall e, r = Some e -> Cluster.profile_ (Cluster.c s') = None).
Proof.
  intros Hrun. pose proof (resolveProfile_spec env find s r s' Hrun) as (Hk & Hm & Hr).
  split; [done|]. split; [done|]. split; [|split].
  - intros p Hp. unfold Cluster.resolveProfile in Hrun. rewrite Hp in Hrun.
    injection Hrun as <- <-. split; [done|]. split; [done|].
    intros env' find'. unfold Cluster.resolveProfile. by rewrite Hp.
  - intros Hnone ->. destruct Hr as [(v & Hv & _)|(_ & H)]; [congruence|].
    destruct H as (kubeConfig & ktxt & cluster & profiles & gl' & host & v
                   & Hc & Hkt & Hcl & Hlist & Hh & Hin & -> & Hfound).
    destruct (resolveProfile_matches env find s _ Hrun Hnone) as (kubeConfig' & v' & Hc' & Hv' & Hmatch).
    assert (kubeConfig' = kubeConfig) as -> by congruence.
    cbn [Cluster.setProfile Cluster.c Cluster.profile_] in Hv'. injection Hv' as <-.
    exists kubeConfig, profiles, v. rewrite Hlist. repeat (split; [done|]).
    intros ktxt' cluster' host' w Hkt' Hcl' Hh' Hw Hnode.
    assert (ktxt' = ktxt) as -> by congruence.
    assert (cluster' = cluster) as -> by congruence.
    assert (host' = host) as -> by congruence.
    pose proof (findByNode_spec env host (Cluster.Valid profiles)) as Hspec.
    destruct Hfound as [Hn|[Hn _]]; rewrite Hn in Hspec; [apply Hspec|].
    rewrite Forall_forall in Hspec. apply list_elem_of_In in Hw. apply Hspec in Hw. congruence.
  - intros e ->. apply Hr.
Qed.

(** X19 on two valid profiles: the second one, at the address of the API
    server, is preferred over the first one, named as the context. *)
Lemma resolveProfile_sets_a_matching_profile_witness :
  let env := ClusterSamples.healthy in
  let s := {| Cluster.g := Cluster.initGlobals env;
              Cluster.c := {| Cluster.kubeContext := "minikube"; Cluster.isMinikube := false;
                              Cluster.profile_ := None |} |} in
  exists s',
    Cluster.resolveProfile env (Cluster.minikubeBinary env) s = (None, s') /\
    Cluster.profile_ (Cluster.c s') = Some ClusterSamples.single /\
    Cluster.nameMatches "minikube" "minikube" ClusterSamples.named = true.
Proof.
  intros env s.
  destruct (Cluster.resolveProfile env (Cluster.minikubeBinary env) s) as [r s'] eqn:E.
  assert (Hr : r = None) by (apply (f_equal fst) in E; vm_compute in E; congruence).
  subst r. exists s'. split; [reflexivity|]. split; [|reflexivity].
  destruct (resolveProfile_sets_a_matching_profile env _ s s' None E)
    as (_ & _ & _ & Hset & _).
  destruct (Hset eq_refl eq_refl) as (kubeConfig & profiles & v & Hc & Hlist & Hin & Hv & _ & Hpref).
  rewrite Hv. f_equal.
  assert (Hp : profiles = {| Cluster.Valid := [ClusterSamples.named; ClusterSamples.single];
                             Cluster.Invalid := [] |})
    by (vm_compute in Hlist; injection Hlist as <-; reflexivity).
  injection Hc as <-. subst profiles.
  specialize (Hpref _ _ "192.168.49.2:8443"%string ClusterSamples.single
                eq_refl eq_refl eq_refl ltac:(right; by left) eq_refl).
  destruct Hin as [<-|[<-|[]]]; [vm_compute in Hpref; discriminate|reflexivity].
Defined.

(** X20. After a call [IsMinikube(kubeContext)] the client holds that
    context and the answer it gave, so that a further call for the same
    context returns the same answer and changes nothing, whatever the
    environment has become; a call for the context the client already holds
    looks at nothing (a client from [getClient] answers [false] for the
    empty context).  For another context the answer is [true] only if
    [FindMinikubeBinary] returned no error and the kubeconfig resolves the
    context to a cluster for which one of the four criteria holds:
    [context_info] or [cluster_info] of minikube, a certificate below the
    minikube directory, or a matching profile, which the client then
    holds.  When the answer is [false] no profile of the previous context
    is left in the client. *)
Theorem IsMinikube_caches_its_answer
    {Version Object : Type} (env : Cluster.Env Version Object)
    (find : Cluster.globals Version -> (string * Version * option Cluster.Error) * Cluster.globals Version)
    (kubeContext : string) (s : Cluster.state Version) :
  let b := fst (Cluster.IsMinikube env find kubeContext s) in
  let s' := snd (Cluster.IsMinikube env find kubeContext s) in
  Cluster.kubeContext (Cluster.c s') = kubeContext /\
  Cluster.isMinikube (Cluster.c s') = b /\
  (forall (env' : Cluster.Env Version Object) find',
     Cluster.IsMinikube env' find' kubeContext s' = (b, s')) /\
  (Cluster.kubeContext (Cluster.c s) = kubeContext ->
   b = Cluster.isMinikube (Cluster.c s) /\ s' = s) /\
  (Cluster.kubeContext (Cluster.c s) <> kubeContext -> b = true ->
   snd (fst (find (Cluster.g s))) = None /\
   exists kubeConfig, Cluster.CurrentConfig env = Cluster.OK kubeConfig /\
                      Cluster.detected env kubeConfig kubeContext s') /\
  (Cluster.kubeContext (Cluster.c s) <> kubeContext -> b = false ->
   Cluster.profile_ (Cluster.c s') = None).
Proof.
  cbn zeta. destruct (Cluster.IsMinikube env find kubeContext s) as [b s'] eqn:E. cbn [fst snd].
  destruct (IsMinikube_spec env find kubeContext s b s' E) as (Hk & Hb & Hsame & Hother).
  split; [done|]. split; [done|]. split; [|split; [done|]].
  - intros env' find'. unfold Cluster.IsMinikube. rewrite Hk, String.eqb_refl. by rewrite Hb.
  - split; intros Hne ->; by apply Hother.
Qed.

(** X20 on a cluster that is detected through its profile: the answer
    survives any change of the environment, and the empty context is
    answered without a look. *)
Lemma IsMinikube_caches_its_answer_witness :
  let env := ClusterSamples.healthy in
  let first := Cluster.IsMinikube env (Cluster.minikubeBinary env) "minikube"
                 (ClusterSamples.fresh env) in
  fst first = true /\
  Cluster.profile_ (Cluster.c (snd first)) = Some ClusterSamples.single /\
  (forall (env' : Cluster.Env ClusterSamples.triple string) find',
     Cluster.IsMinikube env' find' "minikube" (snd first) = (true, snd first)) /\
  (forall (env' : Cluster.Env ClusterSamples.triple string) find',
     Cluster.IsMinikube env' find' "" (ClusterSamples.fresh env')
     = (false, ClusterSamples.fresh env')).
Proof.
  intros env first.
  assert (Hb : fst first = true) by (vm_compute; reflexivity).
  split; [exact Hb|]. split; [vm_compute; reflexivity|]. split.
  - intros env' find'.
    destruct (IsMinikube_caches_its_answer env (Cluster.minikubeBinary env) "minikube"
                (ClusterSamples.fresh env)) as (_ & _ & Hcached & _).
    fold first in Hcached. rewrite Hb in Hcached. apply Hcached.
  - intros env' find'.
    destruct (IsMinikube_caches_its_answer env' find' "" (ClusterSamples.fresh env'))
      as (_ & _ & _ & Hsame & _).
    destruct (Hsame eq_refl) as [Hfalse Hs].
    destruct (Cluster.IsMinikube env' find' "" (ClusterSamples.fresh env')) as [b s'].
    cbn [fst snd] in Hfalse, Hs. by rewrite Hfalse, Hs.
Defined.

(** X21. [UseDockerEnv] never dereferences a nil profile: whenever
    [resolveProfile] returns [nil] the client holds a profile.  It answers
    [true] only if the profile it holds has the container runtime [docker]
    and exactly one node, and once the client holds a profile the answer is
    repeated without any look at the environment. *)
Theorem UseDockerEnv_never_panics
    {Version Object : Type} (env : Cluster.Env Version Object)
    (find : Cluster.globals Version -> (string * Version * option Cluster.Error) * Cluster.globals Version)
    (s : Cluster.state Version) :
  let s' := snd (Cluster.UseDockerEnv env find s) in
  exists b,
    fst (Cluster.UseDockerEnv env find s) = Some b /\
    (b = true ->
     exists p, Cluster.profile_ (Cluster.c s') = Some p /\
       Cluster.ContainerRuntime (Cluster.KubernetesConfig (Cluster.Config p)) = "docker"%string /\
       List.length (Cluster.Nodes (Cluster.Config p)) = 1%nat) /\
    (forall p, Cluster.profile_ (Cluster.c s') = Some p ->
       forall (env' : Cluster.Env Version Object) find',
         Cluster.UseDockerEnv env' find' s' = (Some b, s')).
Proof.
  cbn zeta. destruct (Cluster.UseDockerEnv env find s) as [r s'] eqn:E. cbn [fst snd].
  unfold Cluster.UseDockerEnv in E.
  destruct (Cluster.resolveProfile env find s) as [[e|] s2] eqn:Er.
  - injection E as <- <-.
    destruct (resolveProfile_spec env find s _ s2 Er) as (_ & _ & _ & Hp).
    exists false. split; [done|]. split; [done|]. intros p Hp'. congruence.
  - assert (Hset : exists p, Cluster.profile_ (Cluster.c s2) = Some p).
    { destruct (resolveProfile_spec env find s _ s2 Er) as (_ & _ & [(v & Hv & ->)|(_ & H)]);
        [by exists v|].
      destruct H as (? & ? & ? & ? & ? & ? & v & _ & _ & _ & _ & _ & _ & -> & _). by exists v. }
    destruct Hset as [p Hp]. rewrite Hp in E. injection E as <- <-.
    eexists. split; [reflexivity|]. split.
    + intros Hb. apply andb_true_iff in Hb as [Hrt Hn]. exists p. split; [done|].
      apply String.eqb_eq in Hrt. apply Z.eqb_eq in Hn. split; [done|lia].
    + intros p' Hp' env' find'. unfold Cluster.UseDockerEnv, Cluster.resolveProfile.
      rewrite Hp. cbn beta iota. by rewrite Hp.
Qed.

(** X21 after the detection of the sample cluster: the profile held has
    the runtime [docker] and one node. *)
Lemma UseDockerEnv_never_panics_witness :
  let env := ClusterSamples.healthy in
  let s := snd (Cluster.IsMinikube env (Cluster.minikubeBinary env) "minikube"
                  (ClusterSamples.fresh env)) in
  exists s',
    (forall (env' : Cluster.Env ClusterSamples.triple string) find',
       Cluster.UseDockerEnv env' find' s' = (Some true, s')) /\
    snd (Cluster.UseDockerEnv env (Cluster.minikubeBinary env) s) = s'.
Proof.
  intros env s.
  destruct (UseDockerEnv_never_panics env (Cluster.minikubeBinary env) s) as (b & Hb & _ & Hcached).
  exists (snd (Cluster.UseDockerEnv env (Cluster.minikubeBinary env) s)). split; [|reflexivity].
  assert (b = true) as -> by (vm_compute in Hb; congruence).
  apply (Hcached ClusterSamples.single). vm_compute. reflexivity.
Defined.

(** X22. When [minikube version] prints JSON without the key
    [minikubeVersion], [getCurrentVersion] returns the zero version and no
    error; the first lookup of [minikubeBinary] then records the binary
    with version zero and no error, and [minikubeExec] decides on
    [--user=skaffold] from the zero version. *)
Theorem version_output_without_key
    {Version Object : Type} (env : Cluster.Env Version Object) (arg : list string)
    (gl : Cluster.globals Version) (out filename : string) (minikubeOutput : gmap string string) :
  Cluster.GetCurrentVersionFunc env = Cluster.getCurrentVersion env ->
  Cluster.RunCmdOut env (Cluster.Command "minikube" ["version"; "--output=json"]%string)
    = Cluster.OK out ->
  Cluster.unmarshalStrings env out = (minikubeOutput, None) ->
  minikubeOutput !! "minikubeVersion"%string = None ->
  Cluster.findOnce gl = false ->
  Cluster.mk gl = Cluster.mk (Cluster.initGlobals env) ->
  Cluster.LookPath env "minikube" = (filename, None) ->
  Cluster.statIsNotExist env filename = false ->
  Cluster.getCurrentVersion env = (Cluster.zeroVersion env, None) /\
  fst (Cluster.minikubeBinary env gl) = (filename, Cluster.zeroVersion env, None) /\
  fst (Cluster.minikubeExec env (Cluster.minikubeBinary env) arg gl)
  = Cluster.OK (Cluster.Command filename
      (arg ++ if Cluster.GE env (Cluster.zeroVersion env) (Cluster.MustParse env "1.18.0")
              then ["--user=skaffold"%string] else [])).
Proof.
  intros Hfunc Hrun Hjson Hkey Honce Hmk Hlook Hstat.
  assert (Hver : Cluster.getCurrentVersion env = (Cluster.zeroVersion env, None)).
  { unfold Cluster.getCurrentVersion. by rewrite Hrun, Hjson, Hkey. }
  assert (Hbin : Cluster.minikubeBinary env gl
                 = ((filename, Cluster.zeroVersion env, None),
                    {| Cluster.findOnce := true;
                       Cluster.mk := {| Cluster.err := None;
                                        Cluster.version := Cluster.zeroVersion env;
                                        Cluster.path := filename |} |})).
  { unfold Cluster.minikubeBinary, Cluster.findMinikube.
    by rewrite Honce, Hlook, Hstat, Hfunc, Hver, Hmk. }
  split; [done|]. split; [by rewrite Hbin|].
  unfold Cluster.minikubeExec. rewrite Hbin.
  unfold Cluster.supportsUserFlag, Cluster.minikubeVersionWithUserFlag.
  destruct (Cluster.GE env _ _); [done|]. by rewrite app_nil_r.
Qed.

(** X22 on a binary whose version output is the empty JSON object. *)
Lemma version_output_without_key_witness :
  let env := ClusterSamples.clusterEnv ClusterSamples.found
               (Cluster.getCurrentVersion ClusterSamples.healthy) ∅ in
  fst (Cluster.minikubeExec env (Cluster.minikubeBinary env) ["status"%string]
         (Cluster.initGlobals env))
  = Cluster.OK (Cluster.Command "/usr/bin/minikube" ["status"%string]).
Proof.
  intros env.
  exact (proj2 (proj2 (version_output_without_key env ["status"%string] (Cluster.initGlobals env)
                         "{}"%string "/usr/bin/minikube"%string ∅
                         eq_refl eq_refl eq_refl eq_refl eq_refl eq_refl eq_refl eq_refl))).
Defined.

(** ** The print loop on aligned lists *)

Section AlignedFacts.
Import Schema Inspect.
Variable env : Env.

Lemma inspectArtifact_inOrder workdir a s r s' :
  collectedInOrder env s -> inspectArtifact env workdir a s = (r, s') ->
  collectedInOrder env s'.
Proof.
  unfold inspectArtifact, collectedInOrder. intros Hs.
  destruct (DockerArtifact_ a) as [da|]; [|by intros [= _ <-]].
  unfold bind, get, modify, try, ret.
  destruct (seen s !! _); [by intros [= _ <-]|].
  destruct (ReadFile env _) as [b|e] eqn:Er; [|by intros [= _ <-]].
  rewrite getDockerfileRecommendations_eq.
  set (d := {| AbsPath := _ |}). fold (catalogRecs env d).
  intros [= _ <-]. cbn [l Dockerfiles DockerfileRecs collect markSeen].
  rewrite flat_map_app, Hs. cbn [flat_map]. by rewrite app_nil_r.
Qed.

Lemma collectRecommendations_inOrder workdir cfgs r s :
  collectRecommendations env workdir cfgs init = (r, s) -> collectedInOrder env s.
Proof.
  unfold collectRecommendations. intros Hrun.
  apply (forEach_invariant (collectedInOrder env) _ _) with (s := init) (r := r) (s' := s)
    in Hrun; [done| |done].
  intros c0 s0 r0 s1 _ Hs0 Hc.
  apply (forEach_invariant (collectedInOrder env) _ _) with (s := s0) (r := r0) (s' := s1)
    in Hc; [done| |done].
  intros a s2 r2 s3 _. apply inspectArtifact_inOrder.
Qed.

Lemma catalog_ascii rec :
  In rec StringEqualsRecs -> GoStrings.isASCII (ConfigTemplate (FlaggedConfig rec)) = true.
Proof. intros [<-|[<-|[]]]; reflexivity. Qed.

(** A Dockerfile of ASCII text with one recommendation has its own diff. *)
Lemma ownDiff_defined d :
  GoStrings.isASCII (Text d) = true -> (GoStrings.len (Text d) <= GoInt.MaxInt)%Z ->
  List.length (catalogRecs env d) = 1%nat ->
  exists r out, catalogRecs env d = [r] /\ Path (FlaggedConfig r) = AbsPath d /\
                generateRecommendationDiff env d r = Some out /\ ownDiff env d = Some out.
Proof.
  intros Htext Hfits Hone. unfold ownDiff.
  destruct (catalogRecs env d) as [|r [|r' recs]] eqn:E; try discriminate.
  assert (Hr : In r (catalogRecs env d)) by (rewrite E; by left).
  apply in_flat_map in Hr as (rec & Hrec & Hr).
  destruct (emitted_splits_text env d rec r Hr Htext (catalog_ascii rec Hrec) Hfits)
    as (_ & Hpath & before & fl & after & _ & _ & _ & _ & Hdiff).
  exists r. eexists. split; [done|]. split; [done|]. by rewrite Hdiff.
Qed.

Lemma printDiffs_aligned all : forall ds i,
  drop i all = ds ->
  Forall (fun d => GoStrings.isASCII (Text d) = true /\
                   (GoStrings.len (Text d) <= GoInt.MaxInt)%Z /\
                   List.length (catalogRecs env d) = 1%nat) ds ->
  printDiffs env all i (flat_map (catalogRecs env) ds) = (omap (ownDiff env) ds, Return None) /\
  List.length (omap (ownDiff env) ds) = List.length ds.
Proof.
  induction ds as [|d ds IH]; intros i Hdrop Hall; [done|].
  apply Forall_cons in Hall as [(Htext & Hfits & Hone) Hall].
  destruct (ownDiff_defined d Htext Hfits Hone) as (r & out & Hr & _ & Hdiff & Hown).
  assert (Hi : all !! i = Some d).
  { rewrite <- (Nat.add_0_r i), <- lookup_drop, Hdrop. done. }
  assert (Hrest : drop (S i) all = ds).
  { apply drop_S in Hi. rewrite Hdrop in Hi. by injection Hi. }
  destruct (IH (S i) Hrest Hall) as [Hprint Hlen].
  cbn [flat_map omap list_omap]. rewrite Hr, Hown. cbn [app printDiffs].
  rewrite Hi, Hdiff, Hprint. split; [done|]. cbn [List.length]. by rewrite Hlen.
Qed.
End AlignedFacts.

(** X23. The collected recommendations are those of the collected
    Dockerfiles, in their order.  So when every collected Dockerfile is
    ASCII text that holds the phrase of exactly one catalog entry,
    [PrintDockerfilesList] runs to its end without a panic and prints one
    diff per Dockerfile, each one computed from the text of the Dockerfile
    its recommendation points at. *)
Theorem one_recommendation_each_prints_own_diffs
    (env : Inspect.Env) (cfgs : list Schema.SkaffoldConfig) (workdir : string)
    (s : Inspect.locals) :
  Inspect.GetConfigSet env = Ok cfgs ->
  Inspect.RealWorkDir env = Ok workdir ->
  Inspect.collectRecommendations env workdir cfgs Inspect.init = (Ok tt, s) ->
  Forall (fun d => GoStrings.isASCII (Text d) = true /\
                   (GoStrings.len (Text d) <= GoInt.MaxInt)%Z /\
                   List.length (catalogRecs env d) = 1%nat) (Dockerfiles (Inspect.l s)) ->
  DockerfileRecs (Inspect.l s) = flat_map (catalogRecs env) (Dockerfiles (Inspect.l s)) /\
  exists printed,
    Inspect.PrintDockerfilesList env = (printed, Return None) /\
    List.length printed = List.length (Dockerfiles (Inspect.l s)) /\
    forall k d, Dockerfiles (Inspect.l s) !! k = Some d ->
      exists r out,
        DockerfileRecs (Inspect.l s) !! k = Some r /\
        Path (FlaggedConfig r) = AbsPath d /\
        Inspect.generateRecommendationDiff env d r = Some out /\
        printed !! k = Some out.
Proof.
  intros Hc Hw Hrun Hall.
  pose proof (collectRecommendations_inOrder env _ _ _ _ Hrun) as Horder.
  unfold collectedInOrder in Horder. split; [done|].
  destruct (printDiffs_aligned env (Dockerfiles (Inspect.l s)) _ 0 eq_refl Hall) as [Hprint Hlen].
  exists (omap (ownDiff env) (Dockerfiles (Inspect.l s))).
  split; [unfold Inspect.PrintDockerfilesList; by rewrite Hc, Hw, Hrun, Horder|].
  split; [done|].
  rewrite Horder. clear Hprint Hlen Horder Hrun.
  induction Hall as [|d0 ds (Htext & Hfits & Hone) Hall IH]; intros k d Hk; [done|].
  destruct (ownDiff_defined env d0 Htext Hfits Hone) as (r & out & Hr & Hpath & Hdiff & Hown).
  cbn [flat_map omap list_omap]. rewrite Hr, Hown. cbn [app].
  destruct k as [|k]; [injection Hk as <-; by exists r, out|].
  apply (IH k d Hk).
Qed.

(** X23 on two Dockerfiles with the phrase of the first catalog entry. *)
Lemma one_recommendation_each_prints_own_diffs_witness :
  exists s printed,
    Inspect.collectRecommendations MoreSamples.sharedEnv "/w" MoreSamples.sharedDockerfile
      Inspect.init = (Ok tt, s) /\
    Inspect.PrintDockerfilesList MoreSamples.sharedEnv = (printed, Return None) /\
    List.length printed = 2%nat.
Proof.
  destruct (Inspect.collectRecommendations MoreSamples.sharedEnv "/w"
              MoreSamples.sharedDockerfile Inspect.init) as [res s] eqn:E.
  assert (Hres : res = Ok tt) by (apply (f_equal fst) in E; vm_compute in E; congruence).
  subst res.
  pose proof (f_equal snd E) as Es. cbn [snd] in Es.
  assert (Hall : Forall (fun d => GoStrings.isASCII (Text d) = true /\
                   (GoStrings.len (Text d) <= GoInt.MaxInt)%Z /\
                   List.length (catalogRecs MoreSamples.sharedEnv d) = 1%nat)
                   (Dockerfiles (Inspect.l s))).
  { rewrite <- Es. set (ds := Dockerfiles _). vm_compute in ds. subst ds.
    apply Forall_cons. split.
    { split; [vm_compute; reflexivity|]. split; [vm_compute; discriminate|].
      vm_compute; reflexivity. }
    apply Forall_cons. split; [|by apply Forall_nil].
    split; [vm_compute; reflexivity|]. split; [vm_compute; discriminate|].
    vm_compute; reflexivity. }
  destruct (one_recommendation_each_prints_own_diffs MoreSamples.sharedEnv
              MoreSamples.sharedDockerfile "/w" s eq_refl eq_refl E Hall)
    as (_ & printed & Hrun & Hlen & _).
  exists s, printed. split; [reflexivity|]. split; [exact Hrun|].
  rewrite Hlen, <- Es. vm_compute. reflexivity.
Defined.
